(** * task-machine: the scheduling engine of [src/index.js]

    A shallow embedding of the classes [Task] and [TaskMachine] and the
    properties of the polling loop, of stale-result detection, of error
    capture and of the execution cap.

    Conventions of the embedding.
    - The model is the caller's JavaScript object: a finite map from property
      names to values; reading an absent property gives [undefined].
    - A hook is a JavaScript function of the model (and of the result and the
      helpers it is handed).  A hook that the engine calls for its effect
      gives back the model it leaves behind together with its completion: the
      value it returns or the value it throws, which may be any value.  The
      guard is a function of the model only, as section 4.1 of the design
      requires of it.  Hooks reach the machine through the model alone: they
      do not call [clear], [destroy] or [start] themselves.
    - An [async] function is cut at its [await]s: the part that runs when it
      is called, and the part that runs when the awaited promise settles.
      What happens in between (executions settling, the caller invoking
      [clear] or [destroy], the caller writing to the model) is a list of
      actions supplied from outside, and so is the way each [execute] promise
      settles.
    - [Date.now()] is an input of every synchronous segment.
    - The logger does not affect control flow and is left out, except for the
      line ['Task #start'] and the keys of the runnable tasks of each poll,
      which the statements about launches refer to. *)

From stdpp Require Import gmap strings list fin_maps.
From Stdlib Require Import ZArith Lia.

Set Default Proof Using "Type".
Open Scope string_scope.
Open Scope list_scope.

(** ** JavaScript values *)

(** Numbers are the integers (time stamps and counters are all the engine
    computes with).  [VError] is an instance of [Error] with its [name] and
    [message]; [VObject] is any other object, known by its identity only and
    without a [message] property. *)
Inductive value :=
| VUndefined
| VNull
| VBool (b : bool)
| VNum (n : Z)
| VStr (s : string)
| VError (name message : string)
| VObject (id : nat).

#[global] Instance value_inhabited : Inhabited value := populate VUndefined.

(** [!!v] *)
Definition truthy (v : value) : bool :=
  match v with
  | VUndefined | VNull => false
  | VBool b => b
  | VNum n => negb (n =? 0)%Z
  | VStr s => negb (String.eqb s "")
  | VError _ _ | VObject _ => true
  end.

(** [v === t] for a number [t]. *)
Definition strict_eq_num (v : value) (t : Z) : bool :=
  match v with
  | VNum n => (n =? t)%Z
  | _ => false
  end.

(** How a call or a statement completes. *)
Inductive completion (A : Type) :=
| Normal (a : A)
| Throw (e : value).
Arguments Normal {A} a.
Arguments Throw {A} e.

Definition Error (message : string) : value := VError "Error" message.
Definition TypeError (message : string) : value := VError "TypeError" message.

(** Reading a property of [null] or [undefined]. *)
Definition null_deref : value := TypeError "Cannot read properties of null".

(** [err.message] *)
Definition get_message (err : value) : completion value :=
  match err with
  | VUndefined | VNull => Throw null_deref
  | VError _ m => Normal (VStr m)
  | _ => Normal VUndefined
  end.

Definition NEVER_EXECUTED : Z := 8640000000000000.

(** ** The model and the property keys *)

Abbreviation Model := (gmap string value).

Record MachinePropKeys := {
  mk_running : string;
  mk_startedAt : string;
  mk_stoppedAt : string
}.

Record TaskPropKeys := {
  tk_error : string;
  tk_executedAt : string;
  tk_running : string;
  tk_ready : string
}.

(** The naming functions receive the machine; the embedding hands them its
    [id]. *)
Definition defaultMachinePropKeys (machine : nat) : MachinePropKeys :=
  {| mk_running := "machineRunning";
     mk_startedAt := "machineStartedAt";
     mk_stoppedAt := "machineStoppedAt" |}.

Definition defaultTaskPropKeys (machine : nat) (taskKey : string) : TaskPropKeys :=
  {| tk_error := taskKey +:+ "Error";
     tk_executedAt := taskKey +:+ "ExecutedAt";
     tk_running := taskKey +:+ "Running";
     tk_ready := taskKey +:+ "Ready" |}.

(** ** Hooks and options *)

Inductive HookName := HBeforeExecute | HExecute | HAfterExecute | HAssign | HClear.

(** What the engine lets an observer see of a task, besides the model: the
    line ['Task #start'] it logs when [Task.start] is entered, and the
    invocations of the task's hooks. *)
Inductive Event :=
| Started
| Called (hook : HookName).

#[global] Instance HookName_eq_dec : EqDecision HookName.
Proof. solve_decision. Defined.

#[global] Instance Event_eq_dec : EqDecision Event.
Proof. solve_decision. Defined.

(** What the engine and the hooks act on: the model, and the events so far,
    each with the key of its task (most recent last). *)
Record Store := {
  model : Model;
  trace : list (string * Event)
}.

Definition HookResult : Type := Model * completion value.

Record Hooks := {
  guard : option (Model → value);
  beforeExecute : option (Model → value → HookResult);
  execute : option (Model → value → HookResult);
  afterExecute : option (Model → value → value → HookResult);
  assign : option (Model → value → value → HookResult);
  clear : option (Model → HookResult)
}.

Record Options := {
  errorAsObject : bool;
  interval : Z;
  machinePropKeys : nat → MachinePropKeys;
  maxExecutions : Z;
  taskPropKeys : nat → string → TaskPropKeys;
  waitForCompletion : bool;
  helpers : value
}.

(** ** Statements with effects on the store *)

Definition Eff (A : Type) : Type := Store → Store * completion A.

#[global] Instance Eff_ret : MRet Eff := λ A a s, (s, Normal a).
#[global] Instance Eff_bind : MBind Eff := λ A B f c s,
  match c s with
  | (s', Normal a) => f a s'
  | (s', Throw e) => (s', Throw e)
  end.

Definition throw {A} (e : value) : Eff A := λ s, (s, Throw e).

(** [try { body } catch (err) { handler }] *)
Definition try_catch {A} (body : Eff A) (handler : value → Eff A) : Eff A := λ s,
  match body s with
  | (s', Normal a) => (s', Normal a)
  | (s', Throw e) => handler e s'
  end.

(** [model[k] = v] *)
Definition write (k : string) (v : value) : Eff unit := λ s,
  ({| model := <[k := v]> (model s); trace := trace s |}, Normal tt).

(** The model as it is now (what a hook or a guard receives). *)
Definition get_model : Eff Model := λ s, (s, Normal (model s)).

(** [model[k]] *)
Definition read (k : string) : Eff value := λ s, (s, Normal (model s !!! k)).

(** [logger.info('Task #start', {id, key})] *)
Definition log_start (key : string) : Eff unit := λ s,
  ({| model := model s; trace := trace s ++ [(key, Started)] |}, Normal tt).

(** Calling a hook of the task [key]: the call is recorded, the hook runs on
    the model and its completion is the completion of the call. *)
Definition call_hook (key : string) (name : HookName) (f : Model → HookResult) : Eff value := λ s,
  let '(m', c) := f (model s) in
  ({| model := m'; trace := trace s ++ [(key, Called name)] |}, c).

Definition lift {A} (c : completion A) : Eff A := λ s, (s, c).

(** ** class Task *)

(** A field holding the shared object it was given, or [null]. *)
Inductive Ref := Null | Obj.

Record Task := {
  t_hooks : option Hooks;
  t_id : nat;
  t_key : string;
  t_model : Ref;
  t_options : Options;
  t_propKeys : option TaskPropKeys;
  t_destroyed : bool
}.

(** [new Task({hooks, id, key, model, options, propKeys})] *)
Definition Task_new (hooks : Hooks) (id : nat) (key : string) (options : Options)
    (propKeys : TaskPropKeys) : Task :=
  {| t_hooks := Some hooks; t_id := id; t_key := key; t_model := Obj;
     t_options := options; t_propKeys := Some propKeys; t_destroyed := false |}.

(** [get isRunning () { return this.model[this.propKeys.running] }] *)
Definition Task_get_isRunning (t : Task) : Eff value :=
  match t_model t, t_propKeys t with
  | Obj, Some k => read (tk_running k)
  | _, _ => throw null_deref
  end.

(** [set isRunning (newIsRunning)] *)
Definition Task_set_isRunning (t : Task) (newIsRunning : value) : Eff unit :=
  match t_model t with
  | Null => mret tt
  | Obj =>
      match t_propKeys t with
      | Some k => write (tk_running k) newIsRunning
      | None => throw null_deref
      end
  end.

(** [get isRunnable ()] *)
Definition Task_isRunnable (t : Task) : Eff bool :=
  r ← Task_get_isRunning t;
  if truthy r then mret false
  else
    match t_hooks t with
    | None => throw null_deref
    | Some h =>
        match guard h with
        | Some g => m ← get_model; mret (truthy (g m))
        | None => mret true
        end
    end.

(** [clear ()] *)
Definition Task_clear (t : Task) : Eff unit :=
  Task_set_isRunning t (VBool false);;
  match t_model t, t_propKeys t with
  | Obj, Some k =>
      write (tk_error k) VNull;;
      write (tk_ready k) (VBool false);;
      write (tk_executedAt k) (VNum NEVER_EXECUTED);;
      match t_hooks t with
      | None => throw null_deref
      | Some h =>
          match clear h with
          | Some f => call_hook (t_key t) HClear f;; mret tt
          | None => mret tt
          end
      end
  | _, _ => throw null_deref
  end.

(** [destroy ()] *)
Definition Task_destroy (t : Task) : Task :=
  {| t_hooks := None;
     t_id := t_id t;
     t_key := t_key t;
     t_model := Null;
     t_options := t_options t;
     t_propKeys := None;
     t_destroyed := true |}.

(** *** [async start ()]

    The function suspends once, at [await hooks.execute(model, helpers)].  Its
    locals [hooks], [propKeys], [helpers] and [time] live on in the suspended
    invocation; [this] is read again when the invocation resumes. *)
Record Invocation := {
  i_task : nat;            (* which task object [this] is *)
  i_key : string;
  i_hooks : Hooks;
  i_propKeys : TaskPropKeys;
  i_helpers : value;
  i_time : Z               (* the preemption token *)
}.

(** How the awaited promise settles. *)
Inductive Settlement :=
| Fulfilled (res : value)
| Rejected (err : value).

(** The [catch (err)] block.  [t] is the task as it is when the block runs. *)
Definition Task_start_catch (t : Task) (k : TaskPropKeys) (err : value) : Eff unit :=
  if t_destroyed t then mret tt
  else
    v ← (if errorAsObject (t_options t) then mret err else lift (get_message err));
    write (tk_error k) v;;
    Task_set_isRunning t (VBool false).

(** From the call to the [await]: [None] when the function has returned
    (its promise is fulfilled), [Some i] when it is suspended; a [Throw] is a
    rejected promise. *)
Definition Task_start_sync (t : Task) (index : nat) (now : Z) : Eff (option Invocation) :=
  log_start (t_key t);;
  Task_set_isRunning t (VBool true);;
  match t_model t, t_propKeys t with
  | Obj, Some k =>
      write (tk_error k) VNull;;
      write (tk_ready k) (VBool false);;
      try_catch
        (match t_hooks t with
         | None => throw null_deref
         | Some h =>
             match beforeExecute h with
             | Some f =>
                 call_hook (t_key t) HBeforeExecute (λ m, f m (helpers (t_options t)));;
                 mret tt
             | None => mret tt
             end;;
             match execute h with
             | None => throw (Error "Execute not a function")
             | Some f =>
                 write (tk_executedAt k) (VNum now);;
                 (* the value returned is the promise that is awaited *)
                 call_hook (t_key t) HExecute (λ m, f m (helpers (t_options t)));;
                 mret (Some {| i_task := index; i_key := t_key t; i_hooks := h;
                               i_propKeys := k; i_helpers := helpers (t_options t);
                               i_time := now |})
             end
         end)
        (λ err, Task_start_catch t k err;; mret None)
  | _, _ => throw null_deref
  end.

(** From the settlement of the awaited promise to the end of the function. *)
Definition Task_start_resume (t : Task) (i : Invocation) (o : Settlement) : Eff unit :=
  let k := i_propKeys i in
  let h := i_hooks i in
  match o with
  | Rejected err => Task_start_catch t k err
  | Fulfilled res =>
      cur ← read (tk_executedAt k);
      (* Abort if destroyed or preempted *)
      if t_destroyed t || negb (strict_eq_num cur (i_time i)) then mret tt
      else
        try_catch
          (res' ← match afterExecute h with
                  | Some f => call_hook (i_key i) HAfterExecute (λ m, f m res (i_helpers i))
                  | None => mret res
                  end;
           if negb (truthy res') then throw (Error "Result not truthy")
           else
             match assign h with
             | Some f => call_hook (i_key i) HAssign (λ m, f m res' (i_helpers i));; mret tt
             | None => mret tt
             end;;
             write (tk_ready k) (VBool true);;
             Task_set_isRunning t (VBool false))
          (Task_start_catch t k)
  end.

(** ** class TaskMachine *)

(** The module-level defaults, which [configure] may rebind. *)
Record Config := {
  cfg_interval : Z;
  cfg_maxExecutions : Z;
  cfg_machinePropKeys : nat → MachinePropKeys;
  cfg_taskPropKeys : nat → string → TaskPropKeys
}.

Definition initial_config : Config :=
  {| cfg_interval := 500;
     cfg_maxExecutions := 200;
     cfg_machinePropKeys := defaultMachinePropKeys;
     cfg_taskPropKeys := defaultTaskPropKeys |}.

(** The [options] argument of the constructor: each property may be absent. *)
Record OptionsArg := {
  o_errorAsObject : option bool;
  o_interval : option Z;
  o_machinePropKeys : option (nat → MachinePropKeys);
  o_maxExecutions : option Z;
  o_taskPropKeys : option (nat → string → TaskPropKeys);
  o_waitForCompletion : option bool;
  o_helpers : option value
}.

Definition no_options : OptionsArg :=
  {| o_errorAsObject := None; o_interval := None; o_machinePropKeys := None;
     o_maxExecutions := None; o_taskPropKeys := None; o_waitForCompletion := None;
     o_helpers := None |}.

(** [Object.assign({errorAsObject: false, ...}, options)] *)
Definition merge_options (cfg : Config) (o : OptionsArg) : Options :=
  {| errorAsObject := default false (o_errorAsObject o);
     interval := default (cfg_interval cfg) (o_interval o);
     machinePropKeys := default (cfg_machinePropKeys cfg) (o_machinePropKeys o);
     maxExecutions := default (cfg_maxExecutions cfg) (o_maxExecutions o);
     taskPropKeys := default (cfg_taskPropKeys cfg) (o_taskPropKeys o);
     waitForCompletion := default false (o_waitForCompletion o);
     helpers := default VUndefined (o_helpers o) |}.

Record TaskMachine := {
  mc_id : nat;
  mc_options : option Options;
  mc_interval : Z;
  mc_maxExecutions : Z;
  mc_model : Ref;
  mc_propKeys : MachinePropKeys;
  mc_tasks : Ref;                 (* the array of tasks, or null *)
  mc_destroyed : bool
}.

(** The objects the engine works on: the model (inside the store), the array
    of task objects built by the constructor, and the machine itself.  The
    array is shared: the machine's [tasks] field and the local [tasks] of a
    running [start] are the same array of the same objects. *)
Record World := {
  store : Store;
  task_objects : list Task;
  machine : TaskMachine
}.

Definition WEff (A : Type) : Type := World → World * completion A.

Definition with_store (w : World) (s : Store) : World :=
  {| store := s; task_objects := task_objects w; machine := machine w |}.

(** A statement on the store, run in a world. *)
Definition on_store {A} (c : Eff A) : WEff A := λ w,
  let '(s, r) := c (store w) in (with_store w s, r).

(** [constructor (model, tasks, options)]; [tasks] lists the own properties of
    the argument in the order of [Object.keys]. *)
Definition TaskMachine_new (cfg : Config) (nextId : nat) (tasks : list (string * Hooks))
    (options : OptionsArg) (s : Store) : World :=
  let opts := merge_options cfg options in
  let pk := machinePropKeys opts nextId in
  {| store :=
       {| model := <[mk_stoppedAt pk := VNum NEVER_EXECUTED]>
                     (<[mk_startedAt pk := VNum NEVER_EXECUTED]>
                        (<[mk_running pk := VBool false]> (model s)));
          trace := trace s |};
     task_objects :=
       map (λ kh : string * Hooks,
              Task_new kh.2 nextId kh.1 opts (taskPropKeys opts nextId kh.1)) tasks;
     machine :=
       {| mc_id := nextId; mc_options := Some opts; mc_interval := interval opts;
          mc_maxExecutions := maxExecutions opts; mc_model := Obj; mc_propKeys := pk;
          mc_tasks := Obj; mc_destroyed := false |} |}.

(** The [pred] argument of [clear]: [true] (the default), a task key, or a
    function of the task. *)
Inductive ClearPred :=
| PredTrue
| PredKey (key : string)
| PredFn (f : Task → bool).

Definition predFn (pred : ClearPred) (task : Task) : bool :=
  match pred with
  | PredFn f => f task
  | PredTrue => true
  | PredKey key => String.eqb (t_key task) key
  end.

(** [l.forEach(f)], stopping at the first throw. *)
Fixpoint for_each {A} (f : A → Eff unit) (l : list A) : Eff unit :=
  match l with
  | [] => mret tt
  | a :: l' => f a;; for_each f l'
  end.

(** [clear (pred = true)] *)
Definition TaskMachine_clear (pred : ClearPred) : WEff unit := λ w,
  match mc_tasks (machine w) with
  | Null => (w, Throw null_deref)
  | Obj => on_store (for_each Task_clear (filter (λ t, predFn pred t = true) (task_objects w))) w
  end.

(** [destroy ()] *)
Definition TaskMachine_destroy : WEff unit := λ w,
  let mc := machine w in
  let flagged :=
    {| mc_id := mc_id mc; mc_options := mc_options mc; mc_interval := mc_interval mc;
       mc_maxExecutions := mc_maxExecutions mc; mc_model := mc_model mc;
       mc_propKeys := mc_propKeys mc; mc_tasks := mc_tasks mc; mc_destroyed := true |} in
  match mc_tasks mc with
  | Null => ({| store := store w; task_objects := task_objects w; machine := flagged |},
             Throw null_deref)
  | Obj =>
      ({| store := store w;
          task_objects := map Task_destroy (task_objects w);
          machine :=
            {| mc_id := mc_id mc; mc_options := None; mc_interval := mc_interval mc;
               mc_maxExecutions := mc_maxExecutions mc; mc_model := Null;
               mc_propKeys := mc_propKeys mc; mc_tasks := Null; mc_destroyed := true |} |},
       Normal tt)
  end.

(** [get isRunning () { return this.model[this.propKeys.running] }] *)
Definition TaskMachine_get_isRunning : WEff value := λ w,
  match mc_model (machine w) with
  | Null => (w, Throw null_deref)
  | Obj => on_store (read (mk_running (mc_propKeys (machine w)))) w
  end.

(** [set isRunning (newIsRunning)] *)
Definition TaskMachine_set_isRunning (newIsRunning : bool) (now : Z) : WEff unit := λ w,
  match mc_model (machine w) with
  | Null => (w, Normal tt)
  | Obj =>
      let pk := mc_propKeys (machine w) in
      on_store (write (mk_running pk) (VBool newIsRunning);;
                write (if newIsRunning then mk_startedAt pk else mk_stoppedAt pk) (VNum now)) w
  end.

(** *** [async start ()]

    A run of [start] owns the locals [options], [count] and [total]; the
    embedding adds what the JavaScript runtime keeps for it: the executions in
    flight, the number of launches whose promise is already settled and whose
    [count--] reaction is queued, and the keys logged by each poll
    (['TaskMachine #start, runnable tasks'], latest first). *)
Record Run := {
  world : World;
  r_options : option Options;
  count : Z;
  total : Z;
  inflight : list Invocation;
  settled : nat;
  polled : list (list string)
}.

Definition with_world (r : Run) (w : World) : Run :=
  {| world := w; r_options := r_options r; count := count r; total := total r;
     inflight := inflight r; settled := settled r; polled := polled r |}.

(** The tasks of the array with their positions. *)
Definition indexed_tasks (w : World) : list (nat * Task) :=
  zip (seq 0 (length (task_objects w))) (task_objects w).

(** [tasks.filter(task => task.isRunnable)] *)
Fixpoint filter_runnable (ts : list (nat * Task)) : Eff (list (nat * Task)) :=
  match ts with
  | [] => mret []
  | it :: rest =>
      Task_isRunnable it.2 ≫= λ b : bool,
      filter_runnable rest ≫= λ keep,
      mret (if b then it :: keep else keep)
  end.

(** [runnableTasks.map(task => { count++; total++; return task.start().then(...) })]:
    the synchronous part of every [task.start()], in order.  The result lists
    the invocations left suspended and counts the promises already settled
    (fulfilled or rejected: both handlers of [then] decrement [count]). *)
Fixpoint launch_all (now : Z) (ts : list (nat * Task)) (s : Store)
    : Store * list Invocation * nat :=
  match ts with
  | [] => (s, [], 0)
  | it :: rest =>
      let '(s1, c) := Task_start_sync it.2 it.1 now s in
      let '(s2, invs, done) := launch_all now rest s1 in
      match c with
      | Normal (Some inv) => (s2, inv :: invs, done)
      | _ => (s2, invs, S done)
      end
  end.

Inductive CycleResult :=
| CycleThrow (e : value) (r : Run)     (* an exception leaves the loop *)
| CycleBreak (r : Run)                 (* [break] *)
| CycleAwait (r : Run).                (* the body reached its [await]s *)

(** The body of the [do] loop up to its first [await]. *)
Definition cycle (now : Z) (r : Run) : CycleResult :=
  let w := world r in
  match filter_runnable (indexed_tasks w) (store w) with
  | (s1, Throw e) => CycleThrow e (with_world r (with_store w s1))
  | (s1, Normal runnableTasks) =>
      let keys := map (λ it : nat * Task, t_key it.2) runnableTasks in
      let r1 := {| world := with_store w s1; r_options := r_options r; count := count r;
                   total := total r; inflight := inflight r; settled := settled r;
                   polled := keys :: polled r |} in
      if (length runnableTasks =? 0)%nat && (count r =? 0)%Z then CycleBreak r1
      else if (total r >? mc_maxExecutions (machine w))%Z then CycleBreak r1
      else
        let '(s2, invs, done) := launch_all now runnableTasks s1 in
        let n := Z.of_nat (length runnableTasks) in
        let r2 := {| world := with_store w s2; r_options := r_options r;
                     count := (count r + n)%Z; total := (total r + n)%Z;
                     inflight := inflight r ++ invs; settled := (settled r + done)%nat;
                     polled := keys :: polled r |} in
        match r_options r with
        | None => CycleThrow null_deref r2
        | Some _ => CycleAwait r2
        end
  end.

(** What can happen while [start] is suspended. *)
Inductive Action :=
| Settle (n : nat) (o : Settlement)   (* the [n]-th execution in flight settles *)
| CallClear (pred : ClearPred)        (* the caller invokes [machine.clear(pred)] *)
| CallDestroy                         (* the caller invokes [machine.destroy()] *)
| Mutate (f : Model → Model).         (* the caller writes to the model *)

(** The queued [count--] reactions run as soon as [start] suspends. *)
Definition drain (r : Run) : Run :=
  {| world := world r; r_options := r_options r;
     count := (count r - Z.of_nat (settled r))%Z; total := total r;
     inflight := inflight r; settled := 0; polled := polled r |}.

(** An execution settles: its invocation of [Task.start] resumes, and when it
    ends (normally or not) the reaction registered by [then] decrements
    [count]. *)
Definition settle (n : nat) (o : Settlement) (r : Run) : Run :=
  match inflight r !! n with
  | None => r
  | Some inv =>
      match task_objects (world r) !! i_task inv with
      | None => r
      | Some t =>
          let '(s, _) := Task_start_resume t inv o (store (world r)) in
          {| world := with_store (world r) s; r_options := r_options r;
             count := (count r - 1)%Z; total := total r;
             inflight := delete n (inflight r); settled := settled r;
             polled := polled r |}
      end
  end.

Definition act (r : Run) (a : Action) : Run :=
  match a with
  | Settle n o => settle n o r
  | CallClear pred => with_world r (TaskMachine_clear pred (world r)).1
  | CallDestroy => with_world r (TaskMachine_destroy (world r)).1
  | Mutate f =>
      let w := world r in
      with_world r (with_store w {| model := f (model (store w)); trace := trace (store w) |})
  end.

(** How far the promise returned by [start] has got. *)
Inductive Status :=
| Returned (b : bool)      (* fulfilled with [b] *)
| Threw (e : value)        (* rejected with [e] *)
| AwaitingTasks            (* suspended at [await Promise.all(pendingTasks)] *)
| AwaitingTimer.           (* suspended at the interval *)

(** [if (options.waitForCompletion) await Promise.all(pendingTasks)] is still
    waiting.  With [waitForCompletion] the launches of the earlier cycles have
    all settled, so [pendingTasks] are the executions in flight. *)
Definition waiting_for_tasks (r : Run) : bool :=
  match r_options r with
  | Some o => waitForCompletion o && negb (length (inflight r) =? 0)%nat
  | None => false
  end.

(** After the loop: [this.isRunning = false; return true]. *)
Definition finish (now : Z) (r : Run) : Status * Run :=
  let '(w, c) := TaskMachine_set_isRunning false now (world r) in
  (match c with Normal _ => Returned true | Throw e => Threw e end, with_world r w).

(** The [do ... while (!this.destroyed)] loop.  [now] is the clock of the
    segment that starts the next cycle; each element of [script] gives what
    happens while the loop is suspended and the clock when it resumes. *)
Fixpoint loop (now : Z) (script : list (list Action * Z)) (r : Run) : Status * Run :=
  match cycle now r with
  | CycleThrow e r' => (Threw e, r')
  | CycleBreak r' => finish now r'
  | CycleAwait r' =>
      match script with
      | [] =>
          let r'' := drain r' in
          (if waiting_for_tasks r'' then AwaitingTasks else AwaitingTimer, r'')
      | (acts, now') :: rest =>
          let r'' := foldl act (drain r') acts in
          if waiting_for_tasks r'' then (AwaitingTasks, r'')
          else if mc_destroyed (machine (world r'')) then finish now' r''
          else loop now' rest r''
      end
  end.

Definition fresh_run (w : World) : Run :=
  {| world := w; r_options := mc_options (machine w); count := 0; total := 0;
     inflight := []; settled := 0; polled := [] |}.

Definition TaskMachine_start (now : Z) (script : list (list Action * Z)) (w : World)
    : Status * Run :=
  match TaskMachine_get_isRunning w with
  | (w1, Throw e) => (Threw e, fresh_run w1)
  | (w1, Normal running) =>
      if truthy running || mc_destroyed (machine w1) then (Returned false, fresh_run w1)
      else
        let '(w2, c) := TaskMachine_set_isRunning true now w1 in
        match c with
        | Throw e => (Threw e, fresh_run w2)
        | Normal _ => loop now script (fresh_run w2)
        end
  end.


(** * The generator-driven engine (the first [TaskMachine] of [src/index.js])

    The file holds an earlier [TaskMachine] as well: tasks are plain hook
    objects kept by key, a [TaskContext] carries the preemption token, and
    the polling loop is a generator that every timer tick resumes.  It reads
    four options only ([interval], [maxExecutions] and the two naming
    functions) and calls its hooks without helpers. *)
Module V1.

(** ** class TaskContext *)

(** [this.model] is the shared model. *)
Record TaskContext := {
  c_time : Z;
  c_keys : TaskPropKeys
}.

(** [constructor (model, keys)], with [Date.now()] given. *)
Definition TaskContext_new (now : Z) (keys : TaskPropKeys) : TaskContext :=
  {| c_time := now; c_keys := keys |}.

(** What the promise returned by [execute] resolves to. *)
Record State := {
  preempted : bool;
  result : value
}.

(** [execute (task)], up to the promise of [task.execute(this.model)]. *)
Definition TaskContext_execute (c : TaskContext) (key : string) (task : Hooks) : Eff unit :=
  write (tk_executedAt (c_keys c)) (VNum (c_time c));;
  match execute task with
  | None => throw (TypeError "task.execute is not a function")
  | Some f => call_hook key HExecute (λ m, f m VUndefined);; mret tt
  end.

(** The reaction [res => ...] of [execute], when the promise is fulfilled. *)
Definition TaskContext_resolved (c : TaskContext) (res : value) : Eff State :=
  cur ← read (tk_executedAt (c_keys c));
  mret (if strict_eq_num cur (c_time c)
        then {| preempted := false; result := res |}
        else {| preempted := true; result := VUndefined |}).

(** ** class TaskMachine *)

(** The machine has the fields of the later one; [options] is never nulled.
    [tasks] is the caller's object: its hook objects by key, in the order of
    [Object.keys]. *)
Record World := {
  store : Store;
  tasks : list (string * Hooks);
  machine : TaskMachine
}.

Definition WEff (A : Type) : Type := World → World * completion A.

Definition with_store (w : World) (s : Store) : World :=
  {| store := s; tasks := tasks w; machine := machine w |}.

Definition on_store {A} (c : Eff A) : WEff A := λ w,
  let '(s, r) := c (store w) in (with_store w s, r).

(** [this.options.taskPropKeys(this, taskKey)] *)
Definition keys_of (mc : TaskMachine) (taskKey : string) : completion TaskPropKeys :=
  match mc_options mc with
  | Some o => Normal (taskPropKeys o (mc_id mc) taskKey)
  | None => Throw null_deref
  end.

(** [constructor (model, tasks, options)] *)
Definition TaskMachine_new (cfg : Config) (nextId : nat) (tasks : list (string * Hooks))
    (options : OptionsArg) (s : Store) : World :=
  let opts := merge_options cfg options in
  let pk := machinePropKeys opts nextId in
  {| store :=
       {| model := <[mk_stoppedAt pk := VNum NEVER_EXECUTED]>
                     (<[mk_startedAt pk := VNum NEVER_EXECUTED]>
                        (<[mk_running pk := VBool false]> (model s)));
          trace := trace s |};
     tasks := tasks;
     machine :=
       {| mc_id := nextId; mc_options := Some opts; mc_interval := interval opts;
          mc_maxExecutions := maxExecutions opts; mc_model := Obj; mc_propKeys := pk;
          mc_tasks := Obj; mc_destroyed := false |} |}.

(** The [pred] argument of [clear]: [true], a task key, or a function of the
    task key. *)
Inductive ClearPred :=
| PredTrue
| PredKey (key : string)
| PredFn (f : string → bool).

Definition predFn (pred : ClearPred) (taskKey : string) : bool :=
  match pred with
  | PredFn f => f taskKey
  | PredTrue => true
  | PredKey key => String.eqb taskKey key
  end.

(** The body of the [forEach] of [clear], for one task. *)
Definition clear_task (mc : TaskMachine) (kt : string * Hooks) : Eff unit :=
  keys ← lift (keys_of mc kt.1);
  match mc_model mc with
  | Null => throw null_deref
  | Obj =>
      write (tk_error keys) VNull;;
      write (tk_running keys) (VBool false);;
      write (tk_ready keys) (VBool false);;
      write (tk_executedAt keys) (VNum NEVER_EXECUTED);;
      match clear kt.2 with
      | Some f => call_hook kt.1 HClear f;; mret tt
      | None => mret tt
      end
  end.

(** [clear (pred = true)]; [Object.keys(null)] throws. *)
Definition TaskMachine_clear (pred : ClearPred) : WEff unit := λ w,
  match mc_tasks (machine w) with
  | Null => (w, Throw (TypeError "Cannot convert undefined or null to object"))
  | Obj =>
      on_store (for_each (clear_task (machine w))
                  (filter (λ kt : string * Hooks, predFn pred kt.1 = true) (tasks w))) w
  end.

(** [destroy ()] *)
Definition TaskMachine_destroy (w : World) : World :=
  let mc := machine w in
  {| store := store w; tasks := tasks w;
     machine :=
       {| mc_id := mc_id mc; mc_options := mc_options mc; mc_interval := mc_interval mc;
          mc_maxExecutions := mc_maxExecutions mc; mc_model := Null;
          mc_propKeys := mc_propKeys mc; mc_tasks := Null; mc_destroyed := true |} |}.

(** [get isRunning ()] *)
Definition TaskMachine_get_isRunning : WEff value := λ w,
  match mc_model (machine w) with
  | Null => (w, Throw null_deref)
  | Obj => on_store (read (mk_running (mc_propKeys (machine w)))) w
  end.

(** [set isRunning (newIsRunning)] *)
Definition TaskMachine_set_isRunning (newIsRunning : bool) (now : Z) (w : World) : World :=
  match mc_model (machine w) with
  | Null => w
  | Obj =>
      let pk := mc_propKeys (machine w) in
      (on_store (write (mk_running pk) (VBool newIsRunning);;
                 write (if newIsRunning then mk_startedAt pk else mk_stoppedAt pk) (VNum now))
         w).1
  end.

(** *** The worker

    A launch leaves a chain of reactions behind,
    [execute(task).then(...).catch(...).then(() => { count-- })], which runs
    when the promise of [task.execute] settles. *)
Record Invocation := {
  v_key : string;
  v_task : Hooks;
  v_keys : TaskPropKeys;
  v_context : TaskContext
}.

(** The body of the [map] callback up to the chain: an exception leaves the
    callback, the [map] and the generator. *)
Definition launch (kt : string * Hooks) (keys : TaskPropKeys) (now : Z) : Eff Invocation :=
  log_start kt.1;;
  write (tk_error keys) VNull;;
  write (tk_running keys) (VBool true);;
  write (tk_ready keys) (VBool false);;
  match beforeExecute kt.2 with
  | Some f => call_hook kt.1 HBeforeExecute (λ m, f m VUndefined);; mret tt
  | None => mret tt
  end;;
  TaskContext_execute (TaskContext_new now keys) kt.1 kt.2;;
  mret {| v_key := kt.1; v_task := kt.2; v_keys := keys;
          v_context := TaskContext_new now keys |}.

(** The reaction [state => ...]; [destroyed] is [this.destroyed] as it is when
    the reaction runs. *)
Definition worker_then (destroyed : bool) (i : Invocation) (state : State) : Eff unit :=
  write (tk_running (v_keys i)) (VBool false);;
  if destroyed || preempted state then mret tt
  else
    res ← match afterExecute (v_task i) with
          | Some f => call_hook (v_key i) HAfterExecute (λ m, f m (result state) VUndefined)
          | None => mret (result state)
          end;
    if negb (truthy res) then throw (Error ("Not found: " +:+ v_key i))
    else
      match assign (v_task i) with
      | Some f => call_hook (v_key i) HAssign (λ m, f m res VUndefined);; mret tt
      | None => mret tt
      end;;
      write (tk_ready (v_keys i)) (VBool true).

(** The reaction [err => ...] of [catch]. *)
Definition worker_catch (destroyed : bool) (i : Invocation) (err : value) : Eff unit :=
  if destroyed then mret tt
  else
    write (tk_running (v_keys i)) (VBool false);;
    v ← lift (get_message err);
    write (tk_error (v_keys i)) v.

(** The chain up to its last reaction: it completes normally when
    [count--] is reached, and throws when the chain ends rejected. *)
Definition reactions (destroyed : bool) (i : Invocation) (o : Settlement) : Eff unit :=
  match o with
  | Rejected err => worker_catch destroyed i err
  | Fulfilled res =>
      try_catch
        (state ← TaskContext_resolved (v_context i) res; worker_then destroyed i state)
        (worker_catch destroyed i)
  end.

(** The generator between two [yield]s owns [tasks], [model], [count] and
    [total]; [inflight] are the chains whose promise has not settled. *)
Record Run := {
  world : World;
  count : Z;
  total : Z;
  inflight : list Invocation
}.

Definition with_world (r : Run) (w : World) : Run :=
  {| world := w; count := count r; total := total r; inflight := inflight r |}.

(** The [filter] callback. *)
Definition is_runnable (mc : TaskMachine) (m : Model) (kt : string * Hooks)
    : completion bool :=
  match keys_of mc kt.1 with
  | Throw e => Throw e
  | Normal keys =>
      if truthy (m !!! tk_running keys) then Normal false
      else Normal match guard kt.2 with
                  | Some g => truthy (g m)
                  | None => true
                  end
  end.

(** [Object.keys(tasks).filter(...)] *)
Fixpoint filter_runnable (mc : TaskMachine) (m : Model) (ts : list (string * Hooks))
    : completion (list (string * Hooks)) :=
  match ts with
  | [] => Normal []
  | kt :: rest =>
      match is_runnable mc m kt with
      | Throw e => Throw e
      | Normal b =>
          match filter_runnable mc m rest with
          | Throw e => Throw e
          | Normal keep => Normal (if b then kt :: keep else keep)
          end
      end
  end.

(** [.map(taskKey => ...)]: the launches in order; the first exception ends
    the [map], the chains already made stay. *)
Fixpoint launch_all (mc : TaskMachine) (now : Z) (ts : list (string * Hooks)) (s : Store)
    : Store * list Invocation * nat * option value :=
  match ts with
  | [] => (s, [], 0, None)
  | kt :: rest =>
      match keys_of mc kt.1 with
      | Throw e => (s, [], 0, Some e)
      | Normal keys =>
          match launch kt keys now s with
          | (s1, Throw e) => (s1, [], 1, Some e)
          | (s1, Normal inv) =>
              let '(s2, invs, n, e) := launch_all mc now rest s1 in
              (s2, inv :: invs, S n, e)
          end
      end
  end.

(** What can happen between two ticks. *)
Inductive Action :=
| Settle (n : nat) (o : Settlement)
| CallClear (pred : ClearPred)
| CallDestroy
| Mutate (f : Model → Model).

(** A promise settles: the chain runs, with [this.destroyed] as it is now. *)
Definition settle (n : nat) (o : Settlement) (r : Run) : Run :=
  match inflight r !! n with
  | None => r
  | Some inv =>
      let '(s, c) := reactions (mc_destroyed (machine (world r))) inv o (store (world r)) in
      {| world := with_store (world r) s;
         count := match c with Normal _ => (count r - 1)%Z | Throw _ => count r end;
         total := total r;
         inflight := delete n (inflight r) |}
  end.

Definition act (r : Run) (a : Action) : Run :=
  match a with
  | Settle n o => settle n o r
  | CallClear pred => with_world r (TaskMachine_clear pred (world r)).1
  | CallDestroy => with_world r (TaskMachine_destroy (world r))
  | Mutate f =>
      let w := world r in
      with_world r (with_store w {| model := f (model (store w)); trace := trace (store w) |})
  end.

(** How far the promise returned by [start] has got.  [Crashed]: an
    exception left the generator inside a timer callback; the promise stays
    pending. *)
Inductive Status :=
| Returned (b : bool)
| Threw (e : value)
| Crashed (e : value)
| AwaitingTimer.

(** After the loop: [this.isRunning = false; done(true)]. *)
Definition finish (now : Z) (r : Run) : Status * Run :=
  (Returned true, with_world r (TaskMachine_set_isRunning false now (world r))).

(** The generator from a [yield] on.  Each element of [script] gives what
    happens until the timer fires and the clock of the tick; the tick runs
    the body of the [do] loop.  The locals [tasks] and [model] were taken
    when the generator started, so the body runs on them whatever [destroy]
    has done to the machine since. *)
Fixpoint worker (script : list (list Action * Z)) (r : Run) : Status * Run :=
  match script with
  | [] => (AwaitingTimer, r)
  | (acts, now) :: rest =>
      let r1 := foldl act r acts in
      let w := world r1 in
      match filter_runnable (machine w) (model (store w)) (tasks w) with
      | Throw e => (Crashed e, r1)
      | Normal runnable =>
          let '(s2, invs, n, e) := launch_all (machine w) now runnable (store w) in
          let r2 := {| world := with_store w s2; count := (count r1 + Z.of_nat n)%Z;
                       total := (total r1 + Z.of_nat n)%Z;
                       inflight := inflight r1 ++ invs |} in
          match e with
          | Some e => (Crashed e, r2)
          | None =>
              if (total r2 >? mc_maxExecutions (machine w))%Z then finish now r2
              else if (count r2 >? 0)%Z && negb (mc_destroyed (machine w))
                   then worker rest r2
                   else finish now r2
          end
      end
  end.

(** [start ()] *)
Definition TaskMachine_start (now : Z) (script : list (list Action * Z)) (w : World)
    : Status * Run :=
  let idle w := {| world := w; count := 0; total := 0; inflight := [] |} in
  match TaskMachine_get_isRunning w with
  | (w1, Throw e) => (Threw e, idle w1)
  | (w1, Normal running) =>
      if truthy running || mc_destroyed (machine w1) then (Returned false, idle w1)
      else worker script (idle (TaskMachine_set_isRunning true now w1))
  end.

End V1.
(** * Definitions used by the statements *)

(** ** What the statements speak of *)

(** The four fields of a task, in the order in which [clear] writes them. *)
Definition task_fields (k : TaskPropKeys) : list string :=
  [tk_running k; tk_error k; tk_ready k; tk_executedAt k].

(** The three fields of the machine. *)
Definition machine_fields (pk : MachinePropKeys) : list string :=
  [mk_running pk; mk_startedAt pk; mk_stoppedAt pk].

(** The model once [clear] has written the four fields, before the hook. *)
Definition reset_fields (k : TaskPropKeys) (m : Model) : Model :=
  <[tk_executedAt k := VNum NEVER_EXECUTED]>
    (<[tk_ready k := VBool false]>
       (<[tk_error k := VNull]>
          (<[tk_running k := VBool false]> m))).

(** [clear] on the model [m0] it has reset: the hook, when there is one, is
    invoked once on [m0], and its completion is that of [clear]. *)
Definition clear_result (t : Task) (h : Hooks) (m0 : Model) (s : Store)
    : Store * completion unit :=
  match clear h with
  | None => ({| model := m0; trace := trace s |}, Normal tt)
  | Some f =>
      ({| model := (f m0).1; trace := trace s ++ [(t_key t, Called HClear)] |},
       match (f m0).2 with Normal _ => Normal tt | Throw e => Throw e end)
  end.

(** A clear hook that can be repeated: it returns, doing it twice is doing it
    once, and it neither reads nor writes what [clear] resets. *)
Definition repeatable (k : TaskPropKeys) (f : Model → HookResult) : Prop :=
  (∀ m, ∃ v, (f m).2 = Normal v) ∧
  (∀ m, (f (f m).1).1 = (f m).1) ∧
  (∀ m, (f (reset_fields k m)).1 = reset_fields k (f m).1).

(** Runnability as the design states it: not running, and no guard or a guard
    that holds of the model. *)
Definition runnable (k : TaskPropKeys) (h : Hooks) (m : Model) : bool :=
  negb (truthy (m !!! tk_running k)) &&
  match guard h with
  | None => true
  | Some g => truthy (g m)
  end.

(** A task that has not been destroyed holds its model, keys and hooks. *)
Definition attached (t : Task) : Prop :=
  t_model t = Obj ∧ is_Some (t_propKeys t) ∧ is_Some (t_hooks t).

(** The machine and its tasks hang together: until [destroy] the machine holds
    its model, its task array and its options and no task has been destroyed;
    from [destroy] on both references are [null] and every task is destroyed. *)
Definition consistent (w : World) : Prop :=
  if mc_destroyed (machine w)
  then mc_model (machine w) = Null ∧ mc_tasks (machine w) = Null ∧
       Forall (λ t, t_destroyed t = true) (task_objects w)
  else mc_model (machine w) = Obj ∧ mc_tasks (machine w) = Obj ∧
       is_Some (mc_options (machine w)) ∧ Forall attached (task_objects w).

(** Runnability of a task object on a model. *)
Definition task_runnable (m : Model) (t : Task) : bool :=
  match t_propKeys t, t_hooks t with
  | Some k, Some h => runnable k h m
  | _, _ => false
  end.

(** The run a cycle leaves behind. *)
Definition cycle_run (c : CycleResult) : Run :=
  match c with
  | CycleThrow _ r | CycleBreak r | CycleAwait r => r
  end.

(** [strip_suffix sfx s] is [Some x] when [s] is [x] followed by [sfx]. *)
Definition strip_suffix (sfx s : string) : option string :=
  let rs := reverse (String.list_ascii_of_string s) in
  let rsfx := reverse (String.list_ascii_of_string sfx) in
  if bool_decide (take (length rsfx) rs = rsfx)
  then Some (String.string_of_list_ascii (reverse (drop (length rsfx) rs)))
  else None.

(** ** The polling loop *)

(** What no step of a run changes: the cap, the number of tasks and the
    machine's field names. *)
Definition cap (r : Run) : Z := mc_maxExecutions (machine (world r)).

Definition ntasks (r : Run) : nat := length (task_objects (world r)).

Definition frame (r : Run) : Z * nat * MachinePropKeys :=
  (cap r, ntasks r, mc_propKeys (machine (world r))).

(** The state in which the loop goes on after a suspension. *)
Definition resumed (acts : list Action) (r : Run) : Run := foldl act (drain r) acts.

(** The tasks a poll finds runnable, with their positions in the array. *)
Definition runnable_now (r : Run) : list (nat * Task) :=
  filter (λ it : nat * Task, task_runnable (model (store (world r))) it.2 = true)
         (indexed_tasks (world r)).

(** A run in which the loop may take another turn. *)
Definition loop_ready (r : Run) : Prop :=
  consistent (world r) ∧ mc_destroyed (machine (world r)) = false ∧ is_Some (r_options r).

(** The machine can be started: it is consistent, has not been destroyed and
    its [running] field is not truthy. *)
Definition at_rest (w : World) : Prop :=
  consistent w ∧ mc_destroyed (machine w) = false ∧
  truthy (model (store w) !!! mk_running (mc_propKeys (machine w))) = false.

(** The run with which the loop is entered at time [now]. *)
Definition entered (now : Z) (w : World) : Run :=
  fresh_run (TaskMachine_set_isRunning true now w).1.

(** Every event a statement adds to the trace satisfies [P]. *)
Definition emits (P : string * Event → Prop) {A} (c : Eff A) : Prop :=
  ∀ s, ∃ l, trace (c s).1 = trace s ++ l ∧ Forall P l.

(** The number of launches the trace records. *)
Definition launches (s : Store) : nat :=
  length (filter (λ e : string * Event, e.2 = Started) (trace s)).

(** An event other than a launch. *)
Definition quiet (e : string * Event) : Prop := e.2 ≠ Started.

(** Between [r] and [r'], [total] has grown by the number of launches. *)
Definition counted (r r' : Run) : Prop :=
  (Z.of_nat (launches (store (world r'))) - total r'
   = Z.of_nat (launches (store (world r))) - total r)%Z.

(** ** Objects used in the examples *)

Definition no_hooks : Hooks :=
  {| guard := None; beforeExecute := None; execute := None; afterExecute := None;
     assign := None; clear := None |}.

(** The task of the repository's test: it fetches [value] while there is none. *)
Definition fetch_hooks : Hooks :=
  {| guard := Some (λ m, VBool (negb (truthy (m !!! "value"))));
     beforeExecute := None;
     execute := Some (λ m _, (m, Normal (VObject 0)));
     afterExecute := Some (λ m res _, (m, Normal res));
     assign := Some (λ m res _, (<["value" := res]> m, Normal VUndefined));
     clear := Some (λ m, (<["value" := VNull]> m, Normal VUndefined)) |}.

(** A task with an [execute] hook and nothing else. *)
Definition bare_hooks : Hooks :=
  {| guard := None; beforeExecute := None;
     execute := Some (λ m _, (m, Normal (VObject 0)));
     afterExecute := None; assign := None; clear := None |}.

Definition num (v : value) : Z := match v with VNum n => n | _ => 0%Z end.

(** A task whose [clear] hook counts how often it ran:
    [clear (m) { m.cleared = (m.cleared || 0) + 1 }]. *)
Definition counting_hooks : Hooks :=
  {| guard := None; beforeExecute := None;
     execute := Some (λ m _, (m, Normal (VObject 0)));
     afterExecute := None; assign := None;
     clear := Some (λ m, (<["cleared" := VNum (num (m !!! "cleared") + 1)]> m,
                          Normal VUndefined)) |}.

Definition empty_store : Store := {| model := ∅; trace := [] |}.

Definition default_options : Options := merge_options initial_config no_options.

(** The task object the constructor builds for the key ["a"]. *)
Definition task_a (h : Hooks) : Task :=
  Task_new h 1 "a" default_options (defaultTaskPropKeys 1 "a").

(** The invocation of the test's task started at time 100 on an empty model,
    and the store a [clear()] leaves while it is in flight. *)
Definition started_a : Store * completion (option Invocation) :=
  Task_start_sync (task_a fetch_hooks) 0 100 empty_store.

Definition invocation_a : Invocation :=
  match started_a.2 with
  | Normal (Some i) => i
  | _ => {| i_task := 0; i_key := ""; i_hooks := no_hooks;
            i_propKeys := defaultTaskPropKeys 1 ""; i_helpers := VUndefined; i_time := 0 |}
  end.

Definition cleared_a : Store := (Task_clear (task_a fetch_hooks) started_a.1).1.

(** A machine with the single task ["a"], built with the defaults. *)
Definition machine_a (h : Hooks) : World :=
  TaskMachine_new initial_config 1 [("a", h)] no_options empty_store.

(** The invocation of the bare task started at time 100 on an empty model. *)
Definition started_bare : Store * completion (option Invocation) :=
  Task_start_sync (task_a bare_hooks) 0 100 empty_store.

Definition invocation_bare : Invocation :=
  match started_bare.2 with
  | Normal (Some i) => i
  | _ => invocation_a
  end.

(** A machine whose single task ["a"] has no hook at all, capped at two
    executions: every launch fails at once (no [execute] hook), so the task is
    runnable again at the next poll. *)
Definition capped_options : OptionsArg :=
  {| o_errorAsObject := None; o_interval := None; o_machinePropKeys := None;
     o_maxExecutions := Some 2%Z; o_taskPropKeys := None; o_waitForCompletion := None;
     o_helpers := None |}.

Definition machine_capped : World :=
  TaskMachine_new initial_config 1 [("a", no_hooks)] capped_options empty_store.

(** Three resumptions of the loop during which nothing happens. *)
Definition idle_script : list (list Action * Z) := [([], 1%Z); ([], 2%Z); ([], 3%Z)].

(** The run of the repository's test: [machine.clear().start()] at time 100;
    the [execute] promise resolves before the loop resumes at time 300. *)
Definition test_machine : World := (TaskMachine_clear PredTrue (machine_a fetch_hooks)).1.

Definition test_script : list (list Action * Z) :=
  [([Settle 0 (Fulfilled (VObject 7))], 300%Z); ([], 500%Z)].

(** A run during which the caller destroys the machine. *)
Definition destroy_script : list (list Action * Z) := [([CallDestroy], 300%Z)].

(** A machine whose single task always fails: its [execute] promise is
    rejected during every suspension of the loop. *)
Definition machine_failing : World :=
  TaskMachine_new initial_config 1 [("a", bare_hooks)] capped_options empty_store.

Definition failing_script : list (list Action * Z) :=
  let boom := Settle 0 (Rejected (Error "boom")) in
  [([boom], 1%Z); ([boom], 2%Z); ([boom], 3%Z); ([boom], 4%Z)].

(** The same task, cleared and started again within the millisecond of the
    first start: [executedAt] holds the first invocation's token once more. *)
Definition relaunched_a : Store * completion (option Invocation) :=
  Task_start_sync (task_a fetch_hooks) 0 100 cleared_a.

(** ** The environment of a run *)





(** A machine that waits for its tasks ([waitForCompletion]), capped at two
    executions; its task has an [execute] hook and nothing else. *)
Definition waiting_options : OptionsArg :=
  {| o_errorAsObject := None; o_interval := None; o_machinePropKeys := None;
     o_maxExecutions := Some 2%Z; o_taskPropKeys := None; o_waitForCompletion := Some true;
     o_helpers := None |}.

Definition machine_waiting : World :=
  TaskMachine_new initial_config 1 [("a", bare_hooks)] waiting_options empty_store.

(** A machine with a negative cap. *)
Definition negative_options : OptionsArg :=
  {| o_errorAsObject := None; o_interval := None; o_machinePropKeys := None;
     o_maxExecutions := Some (-5)%Z; o_taskPropKeys := None; o_waitForCompletion := None;
     o_helpers := None |}.

Definition machine_negative : World :=
  TaskMachine_new initial_config 1 [("a", bare_hooks)] negative_options empty_store.

(** * The module's settings

    [configure (options)] redirects the module-level defaults the
    constructor reads and the slots of the module's [logger].  Its argument
    is any JavaScript value; the embedding keeps what the function tells
    apart. *)

(** A slot of [logger]: [noLog], or the value the caller gave (by handle). *)
Inductive LogSlot :=
| NoLog
| LogTo (f : nat).

(** [options.logger]: [false], [null], an object (its truthy properties by
    name), or anything else, an absent property included. *)
Inductive LoggerArg :=
| LoggerFalse
| LoggerNull
| LoggerObject (props : string → option nat)
| LoggerOther.

(** The argument when it is an object other than [null]: a property is
    [Some] when it has the type [configure] asks for (['number'] for the
    first two, ['function'] for the naming functions). *)
Record ConfigureOptions := {
  c_interval : option Z;
  c_maxExecutions : option Z;
  c_machinePropKeys : option (nat → MachinePropKeys);
  c_taskPropKeys : option (nat → string → TaskPropKeys);
  c_logger : LoggerArg
}.

(** [typeof options]: not ['object'], or ['object'] for [null] and for
    objects. *)
Inductive ConfigureArg :=
| ArgNotObject
| ArgNull
| ArgObject (o : ConfigureOptions).

(** The module-level variables. *)
Record Settings := {
  defaults : Config;
  logger : gmap string LogSlot
}.

Definition logger_keys : list string := ["error"; "info"; "warn"].

(** [[...].forEach(k => { logger[k] = (options.logger && options.logger[k]) || noLog })] *)
Definition set_logger (a : LoggerArg) (l : gmap string LogSlot) : gmap string LogSlot :=
  match a with
  | LoggerOther => l
  | LoggerFalse | LoggerNull => foldl (λ l k, <[k := NoLog]> l) l logger_keys
  | LoggerObject props =>
      foldl (λ l k, <[k := from_option LogTo NoLog (props k)]> l) l logger_keys
  end.

(** [configure (options)]; when it throws (at [options.interval], for
    [null]) nothing has been assigned yet. *)
Definition configure (options : ConfigureArg) (st : Settings) : completion Settings :=
  match options with
  | ArgNotObject => Normal st
  | ArgNull => Throw null_deref
  | ArgObject o =>
      let d := defaults st in
      Normal
        {| defaults :=
             {| cfg_interval := default (cfg_interval d) (c_interval o);
                cfg_maxExecutions := default (cfg_maxExecutions d) (c_maxExecutions o);
                cfg_machinePropKeys := default (cfg_machinePropKeys d) (c_machinePropKeys o);
                cfg_taskPropKeys := default (cfg_taskPropKeys d) (c_taskPropKeys o) |};
           logger := set_logger (c_logger o) (logger st) |}
  end.

(** The variables as declared, and the call the module makes when it is
    loaded: [configure({ logger: false })]. *)
Definition declared : Settings := {| defaults := initial_config; logger := ∅ |}.

Definition only_logger (a : LoggerArg) : ConfigureOptions :=
  {| c_interval := None; c_maxExecutions := None; c_machinePropKeys := None;
     c_taskPropKeys := None; c_logger := a |}.

Definition loaded : completion Settings :=
  configure (ArgObject (only_logger LoggerFalse)) declared.

(** Every slot the module calls holds something. *)
Definition logger_complete (st : Settings) : Prop :=
  Forall (λ k, is_Some (logger st !! k)) logger_keys.

(** A sequence of [configure] calls; one that throws changes nothing. *)
Definition configure_all (args : list ConfigureArg) (st : Settings) : Settings :=
  foldl (λ st a, match configure a st with Normal st' => st' | Throw _ => st end) st args.

(** Whether a slot can be called: [noLog] can, a value of the caller when it
    is a function; [callable] tells which handles are functions. *)
Definition slot_callable (callable : nat → bool) (s : LogSlot) : bool :=
  match s with
  | NoLog => true
  | LogTo f => callable f
  end.

(** Every slot the module calls holds a function. *)
Definition logger_callable (callable : nat → bool) (st : Settings) : Prop :=
  Forall (λ k, ∃ s, logger st !! k = Some s ∧ slot_callable callable s = true) logger_keys.

(** The truthy [error], [info] and [warn] properties of the [logger] that
    the argument gives are functions. *)
Definition arg_callable (callable : nat → bool) (a : ConfigureArg) : Prop :=
  match a with
  | ArgObject o =>
      match c_logger o with
      | LoggerObject props =>
          ∀ k f, k ∈ logger_keys → props k = Some f → callable f = true
      | _ => True
      end
  | _ => True
  end.

(** [configure({ logger: { error: v, info: v, warn: v } })] for a truthy [v]. *)
Definition logger_of (f : nat) : ConfigureArg :=
  ArgObject (only_logger (LoggerObject (λ _, Some f))).

(** * Further notions used in the statements *)

(** The result as [afterExecute] leaves it (the hook is optional). *)
Definition after_hook (i : Invocation) (res : value) (m : Model) : HookResult :=
  match afterExecute (i_hooks i) with
  | Some f => f m res (i_helpers i)
  | None => (m, Normal res)
  end.

(** The model as [assign] leaves it (the hook is optional). *)
Definition assign_hook (i : Invocation) (res : value) (m : Model) : HookResult :=
  match assign (i_hooks i) with
  | Some f => f m res (i_helpers i)
  | None => (m, Normal VUndefined)
  end.

(** The hook invocations of a resumption, with or without [assign]. *)
Definition resume_calls (i : Invocation) (with_assign : bool) : list (string * Event) :=
  match afterExecute (i_hooks i) with
  | Some _ => [(i_key i, Called HAfterExecute)]
  | None => []
  end ++
  match assign (i_hooks i) with
  | Some _ => if with_assign then [(i_key i, Called HAssign)] else []
  | None => []
  end.

(** What the [catch] block stores for [err]. *)
Definition stored_error (t : Task) (err : value) : completion value :=
  if errorAsObject (t_options t) then Normal err else get_message err.

(** The model once [start] has marked the task as running, before any hook. *)
Definition started_fields (k : TaskPropKeys) (m : Model) : Model :=
  <[tk_ready k := VBool false]> (<[tk_error k := VNull]> (<[tk_running k := VBool true]> m)).

(** The model as [beforeExecute] leaves it (the hook is optional). *)
Definition before_hook (t : Task) (h : Hooks) (m : Model) : HookResult :=
  match beforeExecute h with
  | Some f => f m (helpers (t_options t))
  | None => (m, Normal VUndefined)
  end.

Definition before_calls (t : Task) (h : Hooks) : list (string * Event) :=
  match beforeExecute h with
  | Some _ => [(t_key t, Called HBeforeExecute)]
  | None => []
  end.

(** Every exception that leaves a statement satisfies [Q]. *)
Definition throws_only (Q : value → Prop) {A} (c : Eff A) : Prop :=
  ∀ s s' e, c s = (s', Throw e) → Q e.

(** [count] is the number of executions in flight plus the reactions queued. *)
Definition balanced (r : Run) : Prop :=
  count r = Z.of_nat (length (inflight r) + settled r).

(** An action of the engine's interface, not a write of the caller's. *)
Definition engine_action (a : Action) : Prop := ∀ f, a ≠ Mutate f.

(** ** What writes a property of the model *)

(** A statement leaves the property [fld] of the model as it is. *)
Definition keeps (fld : string) {A} (c : Eff A) : Prop :=
  ∀ s, model (c s).1 !!! fld = model s !!! fld.

(** No hook of [h] writes the property [fld]. *)
Definition hooks_spare (fld : string) (h : Hooks) : Prop :=
  (∀ f, beforeExecute h = Some f → ∀ m v, (f m v).1 !!! fld = m !!! fld) ∧
  (∀ f, execute h = Some f → ∀ m v, (f m v).1 !!! fld = m !!! fld) ∧
  (∀ f, afterExecute h = Some f → ∀ m res v, (f m res v).1 !!! fld = m !!! fld) ∧
  (∀ f, assign h = Some f → ∀ m res v, (f m res v).1 !!! fld = m !!! fld) ∧
  (∀ f, clear h = Some f → ∀ m, (f m).1 !!! fld = m !!! fld).

(** [fld] is none of the task's fields and none of its hooks writes it. *)
Definition task_spares (fld : string) (t : Task) : Prop :=
  (∀ k, t_propKeys t = Some k → fld ∉ task_fields k) ∧
  (∀ h, t_hooks t = Some h → hooks_spare fld h).

Definition invocation_spares (fld : string) (i : Invocation) : Prop :=
  (fld ∉ task_fields (i_propKeys i)) ∧ hooks_spare fld (i_hooks i).

(** A caller's write leaves [fld] alone. *)
Definition action_spares (fld : string) (a : Action) : Prop :=
  match a with
  | Mutate f => ∀ m, f m !!! fld = m !!! fld
  | _ => True
  end.

(** Nothing the run holds writes [fld]. *)
Definition spared (fld : string) (r : Run) : Prop :=
  Forall (task_spares fld) (task_objects (world r)) ∧
  Forall (invocation_spares fld) (inflight r).


(** The machine of the examples once destroyed, with nothing in flight. *)
Definition destroyed_run : Run := fresh_run (TaskMachine_destroy (machine_a fetch_hooks)).1.

(** The settings of the repository's test: [configure({ interval: 200, ... })]. *)
Definition test_settings : ConfigureOptions :=
  {| c_interval := Some 200%Z; c_maxExecutions := Some 100%Z; c_machinePropKeys := None;
     c_taskPropKeys := None; c_logger := LoggerObject (λ _, Some 0%nat) |}.

(** ** The generator-driven engine *)

(** The token of an invocation no longer is in the model. *)
Definition v1_stale (i : V1.Invocation) (m : Model) : Prop :=
  strict_eq_num (m !!! tk_executedAt (V1.c_keys (V1.v_context i)))
                (V1.c_time (V1.v_context i)) = false.

(** The cap and the number of tasks of a run. *)
Definition v1_frame (r : V1.Run) : Z * nat :=
  (mc_maxExecutions (V1.machine (V1.world r)), length (V1.tasks (V1.world r))).

(** The tasks the next tick finds runnable, after [acts]. *)
Definition v1_runnable (r : V1.Run) (acts : list V1.Action)
    : completion (list (string * Hooks)) :=
  let w := V1.world (foldl V1.act r acts) in
  V1.filter_runnable (V1.machine w) (model (V1.store w)) (V1.tasks w).

(** The launches of the tick at [now], after [acts]. *)
Definition v1_launches (r : V1.Run) (acts : list V1.Action) (now : Z)
    (runnable : list (string * Hooks)) : Store * list V1.Invocation * nat * option value :=
  let w := V1.world (foldl V1.act r acts) in
  V1.launch_all (V1.machine w) now runnable (V1.store w).

(** The result as [afterExecute] leaves it (the hook is optional). *)
Definition v1_after_hook (i : V1.Invocation) (res : value) (m : Model) : HookResult :=
  match afterExecute (V1.v_task i) with
  | Some f => f m res VUndefined
  | None => (m, Normal res)
  end.

(** The model as [assign] leaves it (the hook is optional). *)
Definition v1_assign_hook (i : V1.Invocation) (res : value) (m : Model) : HookResult :=
  match assign (V1.v_task i) with
  | Some f => f m res VUndefined
  | None => (m, Normal VUndefined)
  end.

(** The hook invocations of a chain of reactions, with or without [assign]. *)
Definition v1_calls (i : V1.Invocation) (with_assign : bool) : list (string * Event) :=
  match afterExecute (V1.v_task i) with
  | Some _ => [(V1.v_key i, Called HAfterExecute)]
  | None => []
  end ++
  match assign (V1.v_task i) with
  | Some _ => if with_assign then [(V1.v_key i, Called HAssign)] else []
  | None => []
  end.

(** The machine with the single task ["a"], and the run its [start] has
    entered at time 100. *)
Definition v1_machine (h : Hooks) : V1.World :=
  V1.TaskMachine_new initial_config 1 [("a", h)] no_options empty_store.

Definition v1_entered (h : Hooks) : V1.Run :=
  {| V1.world := V1.TaskMachine_set_isRunning true 100 (v1_machine h);
     V1.count := 0; V1.total := 0; V1.inflight := [] |}.

(** The run after the first tick, at time 300: the task is in flight. *)
Definition v1_in_flight : V1.Run := (V1.worker [([], 300%Z)] (v1_entered fetch_hooks)).2.

Definition v1_invocation : V1.Invocation :=
  {| V1.v_key := "a"; V1.v_task := fetch_hooks; V1.v_keys := defaultTaskPropKeys 1 "a";
     V1.v_context := V1.TaskContext_new 300 (defaultTaskPropKeys 1 "a") |}.

(** The store once the caller has called [clear()] during the flight, and
    the run once the caller has called [destroy()] and the promise has been
    fulfilled. *)
Definition v1_cleared : Store :=
  V1.store (V1.world (V1.act v1_in_flight (V1.CallClear V1.PredTrue))).

Definition v1_destroy_then_settle : list V1.Action :=
  [V1.CallDestroy; V1.Settle 0 (Fulfilled (VObject 7))].

(** Unfolding of the statements of the generator-driven engine. *)
Ltac v1_unfold :=
  unfold V1.reactions, V1.worker_then, V1.worker_catch, V1.TaskContext_resolved,
    V1.launch, V1.TaskContext_execute, V1.TaskContext_new,
    try_catch, call_hook, log_start, write, read, get_model, throw, lift,
    mbind, Eff_bind, mret, Eff_ret in *.
(** * Properties *)

Ltac eff_unfold :=
  unfold Task_start_sync, Task_start_resume, Task_start_catch, Task_clear, Task_isRunnable,
    Task_set_isRunning, Task_get_isRunning, try_catch, call_hook, log_start, write, read,
    get_model, throw, lift, mbind, Eff_bind, mret, Eff_ret in *.

(** ** Task: stale results *)

(** A suspended invocation remembers the clock it wrote into [executedAt] and
    the locals of the task it belongs to. *)
Lemma Task_start_sync_invocation t idx now s s' i :
  Task_start_sync t idx now s = (s', Normal (Some i)) →
  i_time i = now ∧ i_task i = idx ∧ i_key i = t_key t ∧
  t_propKeys t = Some (i_propKeys i) ∧ t_hooks t = Some (i_hooks i).
Proof.
  intros H. eff_unfold. simpl in H.
  repeat case_match; simplify_eq; simpl; done.
Qed.

(** C1, as amended.  Let an invocation of [Task.start] on the task [t] have
    recorded the token [now] and be suspended at its [await].  If, when the
    [execute] hook resolves (with any result [res]), the task's [executedAt]
    field does not hold [now], then the resumed invocation leaves the store
    as it found it: no model field is written and no hook is invoked
    ([afterExecute] and [assign] in particular), and the invocation ends
    normally.  [t'] is the task object as it is at that moment.  What counts
    is the value of the field at the resolution, not whether it has changed
    in between. *)
Theorem C1_preempted_resolution_discarded
    (t t' : Task) (idx : nat) (now : Z) (s0 s1 : Store) (i : Invocation)
    (res : value) (s : Store) :
  Task_start_sync t idx now s0 = (s1, Normal (Some i)) →
  model s !!! tk_executedAt (i_propKeys i) ≠ VNum now →
  Task_start_resume t' i (Fulfilled res) s = (s, Normal tt).
Proof.
  intros Hs Hne. apply Task_start_sync_invocation in Hs as (Ht & _).
  eff_unfold. simpl.
  assert (strict_eq_num (model s !!! tk_executedAt (i_propKeys i)) (i_time i) = false) as ->.
  { rewrite Ht. destruct (model s !!! _) eqn:E; simpl; try done.
    apply Z.eqb_neq. congruence. }
  by rewrite orb_true_r.
Qed.

Lemma C1_witness :
  Task_start_resume (task_a fetch_hooks) invocation_a (Fulfilled (VObject 7)) cleared_a
  = (cleared_a, Normal tt).
Proof.
  apply (C1_preempted_resolution_discarded (task_a fetch_hooks) (task_a fetch_hooks)
           0 100 empty_store started_a.1 invocation_a).
  - vm_compute. reflexivity.
  - vm_compute. discriminate.
Defined.

(** C1 as stated fails: [executedAt] can change and change back.  The task is
    started at time 100, cleared, and started again within the same
    millisecond; the field went from 100 to [NEVER_EXECUTED] to 100.  When the
    first execution then resolves its result is not discarded: [afterExecute]
    and [assign] run, [value] and [ready] are written and [running] is reset
    while the second execution is still in flight. *)
Lemma C1_counterexample :
  let s3 := relaunched_a.1 in
  let s4 := (Task_start_resume (task_a fetch_hooks) invocation_a (Fulfilled (VObject 7)) s3).1 in
  i_time invocation_a = 100%Z ∧
  model started_a.1 !!! "aExecutedAt" = VNum 100 ∧
  model cleared_a !!! "aExecutedAt" = VNum NEVER_EXECUTED ∧
  model s3 !!! "aExecutedAt" = VNum 100 ∧
  model s3 !!! "aRunning" = VBool true ∧
  model s4 !!! "value" = VObject 7 ∧
  model s4 !!! "aReady" = VBool true ∧
  model s4 !!! "aRunning" = VBool false ∧
  trace s4 = trace s3 ++ [("a", Called HAfterExecute); ("a", Called HAssign)].
Proof. by vm_compute. Qed.

(** ** Task: clear *)

Lemma reset_fields_idem k m : reset_fields k (reset_fields k m) = reset_fields k m.
Proof.
  unfold reset_fields. apply map_eq. intros i.
  rewrite !lookup_insert. repeat case_decide; done.
Qed.

Lemma reset_fields_values k m :
  NoDup (task_fields k) →
  reset_fields k m !!! tk_running k = VBool false ∧
  reset_fields k m !!! tk_error k = VNull ∧
  reset_fields k m !!! tk_ready k = VBool false ∧
  reset_fields k m !!! tk_executedAt k = VNum NEVER_EXECUTED.
Proof.
  unfold task_fields. rewrite !NoDup_cons, !elem_of_cons.
  intros (H1 & H2 & H3 & _). unfold reset_fields.
  rewrite !lookup_total_insert. repeat case_decide; try done; naive_solver.
Qed.

Lemma reset_fields_other k m key :
  key ∉ task_fields k → reset_fields k m !! key = m !! key.
Proof.
  unfold task_fields. rewrite !not_elem_of_cons. intros (?&?&?&?&_).
  unfold reset_fields. by rewrite !lookup_insert_ne.
Qed.

Lemma Task_clear_eq t k h s :
  t_model t = Obj → t_propKeys t = Some k → t_hooks t = Some h →
  Task_clear t s = clear_result t h (reset_fields k (model s)) s.
Proof.
  intros Hm Hk Hh. unfold clear_result, reset_fields. eff_unfold. rewrite Hm, Hk, Hh. simpl.
  destruct (clear h) as [f|]; simpl; [|done].
  destruct (f _) as [m' [v|e]]; done.
Qed.

(** C7, as amended.  For a task that has not been destroyed and whose four
    field names are distinct, and for every prior store: [Task.clear()] first
    sets [running = false], [error = null], [ready = false] and
    [executedAt = NEVER_EXECUTED] and touches no other field; it then invokes
    the clear hook, if there is one, once, on that model, and the model the
    hook leaves is the model [clear] leaves.  Clearing twice gives the model
    of clearing once when there is no clear hook, or when the hook is
    repeatable. *)
Theorem C7_clear_resets_then_calls_hook
    (t : Task) (k : TaskPropKeys) (h : Hooks) (s : Store) :
  t_model t = Obj → t_propKeys t = Some k → t_hooks t = Some h →
  NoDup (task_fields k) →
  let m0 := reset_fields k (model s) in
  (m0 !!! tk_running k = VBool false ∧ m0 !!! tk_error k = VNull ∧
   m0 !!! tk_ready k = VBool false ∧ m0 !!! tk_executedAt k = VNum NEVER_EXECUTED ∧
   ∀ key, key ∉ task_fields k → m0 !! key = model s !! key) ∧
  Task_clear t s = clear_result t h m0 s ∧
  (clear h = None ∨ (∃ f, clear h = Some f ∧ repeatable k f) →
   model (Task_clear t (Task_clear t s).1).1 = model (Task_clear t s).1).
Proof.
  intros Hm Hk Hh Hnd m0. split; [|split].
  - pose proof (reset_fields_values k (model s) Hnd) as (?&?&?&?).
    repeat split; try done. intros key. apply reset_fields_other.
  - by apply Task_clear_eq.
  - intros Hc. rewrite !(Task_clear_eq t k h) by done. unfold clear_result.
    destruct Hc as [->|(f & -> & Hn & Hi & Hr)]; simpl.
    + apply reset_fields_idem.
    + rewrite (Hr (model s)), reset_fields_idem, Hr, Hi. done.
Qed.

Lemma fetch_clear_repeatable :
  ∃ f, clear fetch_hooks = Some f ∧ repeatable (defaultTaskPropKeys 1 "a") f.
Proof.
  eexists. split; [reflexivity|]. repeat split.
  - intros m. by eexists.
  - intros m. simpl. by rewrite insert_insert_eq.
  - intros m. simpl. unfold reset_fields. simpl.
    apply map_eq. intros i. rewrite !lookup_insert. repeat case_decide; simplify_eq; done.
Defined.

Lemma C7_witness :
  let t := task_a fetch_hooks in
  let s := started_a.1 in
  reset_fields (defaultTaskPropKeys 1 "a") (model s) !!! "aRunning" = VBool false ∧
  Task_clear t s = clear_result t fetch_hooks (reset_fields (defaultTaskPropKeys 1 "a") (model s)) s ∧
  model (Task_clear t (Task_clear t s).1).1 = model (Task_clear t s).1.
Proof.
  intros t s.
  assert (NoDup (task_fields (defaultTaskPropKeys 1 "a"))) as Hnd
    by (apply (bool_decide_unpack _); vm_compute; exact I).
  destruct (C7_clear_resets_then_calls_hook t (defaultTaskPropKeys 1 "a") fetch_hooks s
              eq_refl eq_refl eq_refl Hnd) as ((Hr & _) & Heq & Hidem).
  split; [exact Hr|]. split; [exact Heq|].
  apply Hidem. right. exact fetch_clear_repeatable.
Defined.

(** C7 as stated fails: with a clear hook that counts its invocations,
    clearing twice does not leave the model of clearing once. *)
Lemma C7_counterexample :
  let t := task_a counting_hooks in
  model (Task_clear t (Task_clear t empty_store).1).1 ≠ model (Task_clear t empty_store).1.
Proof.
  intros t H. apply (f_equal (λ m : Model, m !! "cleared")) in H.
  vm_compute in H. discriminate.
Qed.

(** ** Task: runnability *)

Lemma Task_isRunnable_eq t k h s :
  t_model t = Obj → t_propKeys t = Some k → t_hooks t = Some h →
  Task_isRunnable t s = (s, Normal (runnable k h (model s))).
Proof.
  intros Hm Hk Hh. unfold runnable. eff_unfold. rewrite Hm, Hk, Hh. simpl.
  destruct (truthy (model s !!! tk_running k)); simpl; [done|].
  by destruct (guard h).
Qed.

Lemma runnable_true k h m :
  runnable k h m = true ↔
  truthy (m !!! tk_running k) = false ∧
  (guard h = None ∨ ∃ g, guard h = Some g ∧ truthy (g m) = true).
Proof.
  unfold runnable. rewrite andb_true_iff, negb_true_iff.
  destruct (guard h) as [g|]; split.
  - intros [Hr Hg]. split; [done|]. right. by exists g.
  - intros [Hr [Hn | (g' & Hg & Ht)]]; [done|]. by simplify_eq.
  - intros [Hr _]. split; [done|]. by left.
  - by intros [Hr _].
Qed.

(** ** Task: failures *)

(** The [catch] block on a task that has not been destroyed, for an error it
    can take the message of, or with [errorAsObject]. *)
Lemma Task_start_catch_stores t k err v s :
  t_destroyed t = false → t_model t = Obj → t_propKeys t = Some k →
  (if errorAsObject (t_options t) then Normal err else get_message err) = Normal v →
  Task_start_catch t k err s =
  ({| model := <[tk_running k := VBool false]> (<[tk_error k := v]> (model s));
      trace := trace s |}, Normal tt).
Proof.
  intros Hd Hm Hk Hv. eff_unfold. rewrite Hd, Hm, Hk.
  destruct (errorAsObject (t_options t)); simplify_eq; simpl; [done|].
  by rewrite Hv.
Qed.

(** The [catch] block on [null] or [undefined], without [errorAsObject]:
    [err.message] throws, nothing is stored, the exception leaves [start]. *)
Lemma Task_start_catch_nullish t k err s :
  t_destroyed t = false → errorAsObject (t_options t) = false →
  err = VUndefined ∨ err = VNull →
  Task_start_catch t k err s = (s, Throw null_deref).
Proof.
  intros Hd He Herr. eff_unfold. rewrite Hd, He. by destruct Herr as [-> | ->].
Qed.

(** C4 at the failing input: the task ["a"] with nothing but an [execute]
    hook, default options, started at time 100 on an empty model; its
    [execute] promise is rejected without a reason ([Promise.reject()]).
    [Task.start] is suspended with [running = true] and [error = null]; on
    the rejection the store is left as it is (no error is stored, [running]
    stays [true]) and the promise of [Task.start] is rejected with the
    TypeError raised by [err.message]. *)
Theorem C4_rejection_without_reason_escapes :
  started_bare.2 = Normal (Some invocation_bare) ∧
  t_destroyed (task_a bare_hooks) = false ∧
  model started_bare.1 !!! "aRunning" = VBool true ∧
  model started_bare.1 !!! "aError" = VNull ∧
  Task_start_resume (task_a bare_hooks) invocation_bare (Rejected VUndefined) started_bare.1
  = (started_bare.1, Throw null_deref).
Proof.
  split; [by vm_compute|]. split; [done|]. split; [by vm_compute|]. split; [by vm_compute|].
  unfold Task_start_resume. by apply Task_start_catch_nullish; [| |left].
Qed.

(** ** Events *)

Section emits.
Context (P : string * Event → Prop).

Lemma emits_silent {A} (c : Eff A) : (∀ s, trace (c s).1 = trace s) → emits P c.
Proof. intros H s. exists []. by rewrite H, app_nil_r. Qed.

Lemma emits_ret {A} (a : A) : emits P (mret a).
Proof. by apply emits_silent. Qed.

Lemma emits_throw {A} e : emits P (throw (A:=A) e).
Proof. by apply emits_silent. Qed.

Lemma emits_lift {A} (c : completion A) : emits P (lift c).
Proof. by apply emits_silent. Qed.

Lemma emits_write k v : emits P (write k v).
Proof. by apply emits_silent. Qed.

Lemma emits_read k : emits P (read k).
Proof. by apply emits_silent. Qed.

Lemma emits_log_start key : P (key, Started) → emits P (log_start key).
Proof. intros H s. exists [(key, Started)]. split; [done|]. by constructor. Qed.

Lemma emits_call_hook key name f : P (key, Called name) → emits P (call_hook key name f).
Proof.
  intros H s. exists [(key, Called name)]. unfold call_hook.
  destruct (f (model s)). split; [done|]. by constructor.
Qed.

Lemma emits_bind {A B} (c : Eff A) (f : A → Eff B) :
  emits P c → (∀ a, emits P (f a)) → emits P (c ≫= f).
Proof.
  intros Hc Hf s. unfold mbind, Eff_bind.
  destruct (Hc s) as (l1 & E1 & H1). destruct (c s) as [s1 [a|e]]; simpl in *.
  - destruct (Hf a s1) as (l2 & E2 & H2). exists (l1 ++ l2).
    split; [by rewrite E2, E1, app_assoc|]. by apply Forall_app.
  - by exists l1.
Qed.

Lemma emits_try_catch {A} (c : Eff A) (h : value → Eff A) :
  emits P c → (∀ e, emits P (h e)) → emits P (try_catch c h).
Proof.
  intros Hc Hh s. unfold try_catch.
  destruct (Hc s) as (l1 & E1 & H1). destruct (c s) as [s1 [a|e]]; simpl in *.
  - by exists l1.
  - destruct (Hh e s1) as (l2 & E2 & H2). exists (l1 ++ l2).
    split; [by rewrite E2, E1, app_assoc|]. by apply Forall_app.
Qed.

Lemma emits_set_isRunning t v : emits P (Task_set_isRunning t v).
Proof. apply emits_silent. intros s. unfold Task_set_isRunning. by repeat case_match. Qed.

Lemma emits_catch t k err : emits P (Task_start_catch t k err).
Proof.
  unfold Task_start_catch. destruct (t_destroyed t); [apply emits_ret|].
  apply emits_bind; [destruct (errorAsObject _); [apply emits_ret|apply emits_lift]|].
  intros v. apply emits_bind; [apply emits_write|]. intros _. apply emits_set_isRunning.
Qed.
End emits.

(** Everything [Task.start] does up to its [await] is done in the name of its
    task. *)
Lemma Task_start_sync_emits t idx now :
  emits (λ e, e.1 = t_key t) (Task_start_sync t idx now).
Proof.
  unfold Task_start_sync.
  apply emits_bind; [by apply emits_log_start|]. intros _.
  apply emits_bind; [apply emits_set_isRunning|]. intros _.
  destruct (t_model t); [apply emits_throw|].
  destruct (t_propKeys t) as [k|]; [|apply emits_throw].
  apply emits_bind; [apply emits_write|]. intros _.
  apply emits_bind; [apply emits_write|]. intros _.
  apply emits_try_catch.
  - destruct (t_hooks t) as [h|]; [|apply emits_throw].
    apply emits_bind.
    + destruct (beforeExecute h); [|apply emits_ret].
      apply emits_bind; [by apply emits_call_hook|]. intros _. apply emits_ret.
    + intros _. destruct (execute h); [|apply emits_throw].
      apply emits_bind; [apply emits_write|]. intros _.
      apply emits_bind; [by apply emits_call_hook|]. intros _. apply emits_ret.
  - intros e. apply emits_bind; [apply emits_catch|]. intros _. apply emits_ret.
Qed.

Lemma launch_all_emits now ts s :
  ∃ l, trace (launch_all now ts s).1.1 = trace s ++ l ∧
       Forall (λ e, ∃ it, it ∈ ts ∧ e.1 = t_key it.2) l.
Proof.
  revert s. induction ts as [|it ts IH]; intros s; simpl.
  - exists []. by rewrite app_nil_r.
  - destruct (Task_start_sync_emits it.2 it.1 now s) as (l1 & E1 & H1).
    destruct (Task_start_sync it.2 it.1 now s) as [s1 c]. simpl in E1.
    destruct (IH s1) as (l2 & E2 & H2).
    destruct (launch_all now ts s1) as [[s2 invs] done']. simpl in E2.
    exists (l1 ++ l2). split.
    + rewrite app_assoc, <- E1, <- E2. by repeat case_match.
    + apply Forall_app. split.
      * eapply Forall_impl; [exact H1|]. intros e He. exists it. split; [left|done].
      * eapply Forall_impl; [exact H2|]. intros e (it' & Hin & He). exists it'.
        split; [by right|done].
Qed.

Lemma filter_quiet l :
  Forall quiet l → filter (λ e : string * Event, e.2 = Started) l = [].
Proof.
  induction 1 as [|e l He _ IH]; [done|]. rewrite filter_cons, IH. by case_decide.
Qed.

Lemma emits_quiet_launches {A} (c : Eff A) s :
  emits quiet c → launches (c s).1 = launches s.
Proof.
  intros H. destruct (H s) as (l & El & Hl). unfold launches.
  by rewrite El, filter_app, (filter_quiet l Hl), app_nil_r.
Qed.

Lemma for_each_emits {A} P (f : A → Eff unit) l :
  (∀ a, emits P (f a)) → emits P (for_each f l).
Proof.
  intros Hf. induction l as [|a l IH]; simpl; [apply emits_ret|].
  apply emits_bind; [apply Hf|]. intros _. apply IH.
Qed.

Lemma Task_clear_emits t : emits quiet (Task_clear t).
Proof.
  unfold Task_clear.
  apply emits_bind; [apply emits_set_isRunning|]. intros _.
  destruct (t_model t); [apply emits_throw|].
  destruct (t_propKeys t) as [k|]; [|apply emits_throw].
  apply emits_bind; [apply emits_write|]. intros _.
  apply emits_bind; [apply emits_write|]. intros _.
  apply emits_bind; [apply emits_write|]. intros _.
  destruct (t_hooks t) as [h|]; [|apply emits_throw].
  destruct (clear h); [|apply emits_ret].
  apply emits_bind; [by apply emits_call_hook|]. intros _. apply emits_ret.
Qed.

Lemma Task_start_resume_emits t i o : emits quiet (Task_start_resume t i o).
Proof.
  unfold Task_start_resume. destruct o as [res|err]; [|apply emits_catch].
  apply emits_bind; [apply emits_read|]. intros cur.
  destruct (_ || _); [apply emits_ret|].
  apply emits_try_catch; [|intros e; apply emits_catch].
  apply emits_bind.
  - destruct (afterExecute (i_hooks i)); [by apply emits_call_hook|apply emits_ret].
  - intros res'. destruct (negb (truthy res')); [apply emits_throw|].
    apply emits_bind.
    + destruct (assign (i_hooks i)); [|apply emits_ret].
      apply emits_bind; [by apply emits_call_hook|]. intros _. apply emits_ret.
    + intros _. apply emits_bind; [apply emits_write|]. intros _. apply emits_set_isRunning.
Qed.

(** [Task.start] logs its start, once. *)
Lemma Task_start_sync_launches t idx now s :
  launches (Task_start_sync t idx now s).1 = S (launches s).
Proof.
  unfold Task_start_sync.
  set (rest := (Task_set_isRunning t (VBool true) ≫= _)).
  assert (emits quiet rest) as Hrest.
  { unfold rest. apply emits_bind; [apply emits_set_isRunning|]. intros _.
    destruct (t_model t); [apply emits_throw|].
    destruct (t_propKeys t) as [k|]; [|apply emits_throw].
    apply emits_bind; [apply emits_write|]. intros _.
    apply emits_bind; [apply emits_write|]. intros _.
    apply emits_try_catch.
    - destruct (t_hooks t) as [h|]; [|apply emits_throw].
      apply emits_bind.
      + destruct (beforeExecute h); [|apply emits_ret].
        apply emits_bind; [by apply emits_call_hook|]. intros _. apply emits_ret.
      + intros _. destruct (execute h); [|apply emits_throw].
        apply emits_bind; [apply emits_write|]. intros _.
        apply emits_bind; [by apply emits_call_hook|]. intros _. apply emits_ret.
    - intros e. apply emits_bind; [apply emits_catch|]. intros _. apply emits_ret. }
  unfold mbind at 1, Eff_bind at 1, log_start. simpl.
  rewrite (emits_quiet_launches rest _ Hrest). unfold launches. simpl.
  rewrite filter_app, length_app.
  change (filter _ [(t_key t, Started)]) with [(t_key t, Started)]. simpl. lia.
Qed.

Lemma launch_all_launches now ts s :
  launches (launch_all now ts s).1.1 = (launches s + length ts)%nat.
Proof.
  revert s. induction ts as [|it ts IH]; intros s; simpl; [unfold launches; simpl; lia|].
  pose proof (Task_start_sync_launches it.2 it.1 now s) as H1.
  destruct (Task_start_sync it.2 it.1 now s) as [s1 c]. simpl in H1.
  specialize (IH s1). destruct (launch_all now ts s1) as [[s2 invs] done']. simpl in IH.
  destruct c as [[inv|]|e]; simpl; lia.
Qed.

Lemma Task_isRunnable_store t s : (Task_isRunnable t s).1 = s.
Proof.
  unfold Task_isRunnable, Task_get_isRunning, mbind, Eff_bind, read, throw, mret, Eff_ret,
    get_model.
  destruct (t_model t); [done|]. destruct (t_propKeys t) as [k|]; [|done]. simpl.
  destruct (truthy _); [done|]. destruct (t_hooks t) as [h|]; [|done].
  by destruct (guard h).
Qed.

Lemma filter_runnable_store ts s : (filter_runnable ts s).1 = s.
Proof.
  revert s. induction ts as [|it ts IH]; intros s; simpl; [done|].
  unfold mbind, Eff_bind. pose proof (Task_isRunnable_store it.2 s) as H1.
  destruct (Task_isRunnable it.2 s) as [s1 [b|e]]; simpl in H1; subst s1; [|done].
  specialize (IH s). destruct (filter_runnable ts s) as [s2 [keep|e]]; simpl in IH; by subst s2.
Qed.

(** ** TaskMachine: using a destroyed machine *)

Lemma destroy_constructed cfg nextId tasks options s :
  let w := TaskMachine_new cfg nextId tasks options s in
  (TaskMachine_destroy w).2 = Normal tt ∧
  mc_model (machine (TaskMachine_destroy w).1) = Null ∧
  mc_tasks (machine (TaskMachine_destroy w).1) = Null ∧
  mc_destroyed (machine (TaskMachine_destroy w).1) = true ∧
  store (TaskMachine_destroy w).1 = store w.
Proof. done. Qed.

(** [start()] while the machine's [running] field is truthy: [false], and
    nothing has changed. *)
Lemma TaskMachine_start_when_running now script w :
  mc_model (machine w) = Obj →
  truthy (model (store w) !!! mk_running (mc_propKeys (machine w))) = true →
  TaskMachine_start now script w = (Returned false, fresh_run w).
Proof.
  intros Hm Hr. unfold TaskMachine_start, TaskMachine_get_isRunning, on_store, read.
  rewrite Hm. simpl. rewrite Hr. simpl. by destruct w.
Qed.

(** C2 at the failing input: a machine that was constructed and then
    destroyed.  [start()] does not return [false]: the getter [isRunning]
    reads [this.model[...]] with [this.model === null] before [this.destroyed]
    is looked at, and the promise is rejected with that TypeError.
    [clear(pred)] throws as well, on [this.tasks.filter] with
    [this.tasks === null]. *)
Theorem C2_start_on_destroyed_machine_rejects
    (cfg : Config) (nextId : nat) (tasks : list (string * Hooks)) (options : OptionsArg)
    (s : Store) (now : Z) (script : list (list Action * Z)) (pred : ClearPred) :
  let w := (TaskMachine_destroy (TaskMachine_new cfg nextId tasks options s)).1 in
  (TaskMachine_start now script w).1 = Threw null_deref ∧
  (TaskMachine_clear pred w).2 = Throw null_deref.
Proof. done. Qed.

(** C3 at the failing input: [destroy()] called twice on a constructed
    machine.  The first call returns; the second throws a TypeError, on
    [this.tasks.forEach] with [this.tasks === null]. *)
Theorem C3_second_destroy_throws
    (cfg : Config) (nextId : nat) (tasks : list (string * Hooks)) (options : OptionsArg)
    (s : Store) :
  let w := TaskMachine_new cfg nextId tasks options s in
  (TaskMachine_destroy w).2 = Normal tt ∧
  (TaskMachine_destroy (TaskMachine_destroy w).1).2 = Throw null_deref.
Proof. done. Qed.

(** ** TaskMachine: the constructor *)

Lemma list_ascii_of_string_append (a b : string) :
  String.list_ascii_of_string (a +:+ b)
  = String.list_ascii_of_string a ++ String.list_ascii_of_string b.
Proof. induction a as [|c a IH]; simpl; [done|]. by rewrite <- IH. Qed.

Lemma strip_suffix_append (x sfx : string) : strip_suffix sfx (x +:+ sfx) = Some x.
Proof.
  unfold strip_suffix. rewrite list_ascii_of_string_append, reverse_app.
  rewrite take_app_length, drop_app_length, reverse_involutive.
  rewrite bool_decide_eq_true_2 by done.
  by rewrite String.string_of_list_ascii_of_string.
Qed.

(** With the default naming the fields of a task are not fields of the
    machine, unless the task is called ["machine"]. *)
Lemma default_task_fields_apart (nextId : nat) (taskKey : string) :
  taskKey ≠ "machine" →
  ∀ f, f ∈ task_fields (defaultTaskPropKeys nextId taskKey) →
       f ∉ machine_fields (defaultMachinePropKeys nextId).
Proof.
  intros Hne f Hf Hm. unfold task_fields, machine_fields in *. simpl in *.
  set_unfold in Hf. set_unfold in Hm.
  assert (∀ sfx s, taskKey +:+ sfx = s → strip_suffix sfx s = Some taskKey) as Hs.
  { intros sfx s <-. apply strip_suffix_append. }
  destruct Hf as [Hf | [Hf | [Hf | [Hf | []]]]]; subst f;
    (destruct Hm as [Hm | [Hm | [Hm | []]]];
     apply Hs in Hm; vm_compute in Hm; simplify_eq).
Qed.

(** C9, as amended.  Constructing a machine writes [running = false],
    [startedAt = NEVER_EXECUTED] and [stoppedAt = NEVER_EXECUTED] under the
    machine's three field names, invokes no hook, and leaves every other
    property of the model as it was.  So a field of a task is left untouched
    whenever its name is not one of the machine's three; with the default
    naming this is so for every task key other than ["machine"]. *)
Theorem C9_constructor_writes_machine_fields
    (cfg : Config) (nextId : nat) (tasks : list (string * Hooks)) (options : OptionsArg)
    (s : Store) :
  let w := TaskMachine_new cfg nextId tasks options s in
  let pk := mc_propKeys (machine w) in
  (model (store w) =
     <[mk_stoppedAt pk := VNum NEVER_EXECUTED]>
       (<[mk_startedAt pk := VNum NEVER_EXECUTED]>
          (<[mk_running pk := VBool false]> (model s))) ∧
   trace (store w) = trace s) ∧
  (NoDup (machine_fields pk) →
   model (store w) !!! mk_running pk = VBool false ∧
   model (store w) !!! mk_startedAt pk = VNum NEVER_EXECUTED ∧
   model (store w) !!! mk_stoppedAt pk = VNum NEVER_EXECUTED) ∧
  (∀ key, key ∉ machine_fields pk → model (store w) !! key = model s !! key) ∧
  (∀ t k f, t ∈ task_objects w → t_propKeys t = Some k → f ∈ task_fields k →
            f ∉ machine_fields pk → model (store w) !! f = model s !! f) ∧
  (∀ taskKey f, taskKey ≠ "machine" →
                f ∈ task_fields (defaultTaskPropKeys nextId taskKey) →
                f ∉ machine_fields (defaultMachinePropKeys nextId)).
Proof.
  intros w pk.
  assert (∀ key, key ∉ machine_fields pk → model (store w) !! key = model s !! key) as Hother.
  { intros key. unfold machine_fields. rewrite !not_elem_of_cons. intros (?&?&?&_).
    simpl. by rewrite !lookup_insert_ne. }
  split; [done|]. split; [|split; [done|split]].
  - unfold machine_fields. rewrite !NoDup_cons, !not_elem_of_cons.
    intros ((H1 & H2 & _) & (H3 & _) & _). simpl.
    rewrite !lookup_total_insert. repeat case_decide; done.
  - intros t k f _ _ _. apply Hother.
  - intros taskKey f Hne. by apply default_task_fields_apart.
Qed.

(** C9 as stated fails for the task key ["machine"]: with the default naming
    its [running] field is [machineRunning], which the constructor writes. *)
Lemma C9_counterexample :
  let w := TaskMachine_new initial_config 1 [("machine", bare_hooks)] no_options empty_store in
  ∃ t k, t ∈ task_objects w ∧ t_key t = "machine" ∧ t_propKeys t = Some k ∧
         model empty_store !! tk_running k = None ∧
         model (store w) !! tk_running k = Some (VBool false).
Proof.
  intros w. eexists _, _. split; [apply list_elem_of_here|].
  split; [reflexivity|]. split; [reflexivity|]. split; by vm_compute.
Qed.

(** ** The polling loop: what stays fixed *)

Lemma indexed_tasks_length w : length (indexed_tasks w) = length (task_objects w).
Proof. unfold indexed_tasks. rewrite length_zip, length_seq. lia. Qed.

Lemma filter_runnable_length ts s s' l :
  filter_runnable ts s = (s', Normal l) → (length l ≤ length ts)%nat.
Proof.
  revert s s' l. induction ts as [|it ts IH]; intros s s' l H; simpl in H.
  - unfold mret, Eff_ret in H. simplify_eq. done.
  - unfold mbind, Eff_bind, mret, Eff_ret in H.
    destruct (Task_isRunnable it.2 s) as [s1 [b|e]]; [|done].
    destruct (filter_runnable ts s1) as [s2 [keep|e]] eqn:Hk; [|done].
    apply IH in Hk. destruct b; simplify_eq; simpl; lia.
Qed.

Lemma frame_eq r r' :
  frame r' = frame r →
  cap r' = cap r ∧ ntasks r' = ntasks r ∧
  mc_propKeys (machine (world r')) = mc_propKeys (machine (world r)).
Proof. unfold frame. intros H. by simplify_eq. Qed.

Lemma TaskMachine_destroy_frame w :
  mc_maxExecutions (machine (TaskMachine_destroy w).1) = mc_maxExecutions (machine w) ∧
  length (task_objects (TaskMachine_destroy w).1) = length (task_objects w) ∧
  mc_propKeys (machine (TaskMachine_destroy w).1) = mc_propKeys (machine w).
Proof. unfold TaskMachine_destroy. destruct (mc_tasks (machine w)); simpl; by rewrite ?length_map. Qed.

Lemma on_store_frame {A} (c : Eff A) w :
  machine (on_store c w).1 = machine w ∧ task_objects (on_store c w).1 = task_objects w.
Proof. unfold on_store. by destruct (c (store w)). Qed.

Lemma TaskMachine_clear_frame pred w :
  machine (TaskMachine_clear pred w).1 = machine w ∧
  task_objects (TaskMachine_clear pred w).1 = task_objects w.
Proof. unfold TaskMachine_clear. destruct (mc_tasks (machine w)); [done|]. apply on_store_frame. Qed.

Lemma settle_frame n o r :
  machine (world (settle n o r)) = machine (world r) ∧
  task_objects (world (settle n o r)) = task_objects (world r) ∧
  total (settle n o r) = total r ∧ polled (settle n o r) = polled r ∧
  r_options (settle n o r) = r_options r.
Proof.
  unfold settle. repeat case_match; done.
Qed.

Lemma act_frame r a :
  frame (act r a) = frame r ∧ total (act r a) = total r ∧ polled (act r a) = polled r ∧
  r_options (act r a) = r_options r.
Proof.
  unfold frame, cap, ntasks. destruct a as [n o|pred| |f]; simpl.
  - destruct (settle_frame n o r) as (-> & -> & -> & -> & ->). done.
  - destruct (TaskMachine_clear_frame pred (world r)) as [-> ->]. done.
  - destruct (TaskMachine_destroy_frame (world r)) as (-> & -> & ->). done.
  - done.
Qed.

Lemma foldl_act_frame acts r :
  frame (foldl act r acts) = frame r ∧ total (foldl act r acts) = total r ∧
  polled (foldl act r acts) = polled r ∧ r_options (foldl act r acts) = r_options r.
Proof.
  revert r. induction acts as [|a acts IH]; intros r; simpl; [done|].
  destruct (IH (act r a)) as (-> & -> & -> & ->). apply act_frame.
Qed.

Lemma finish_frame now r :
  frame (finish now r).2 = frame r ∧ total (finish now r).2 = total r ∧
  polled (finish now r).2 = polled r.
Proof.
  unfold finish, TaskMachine_set_isRunning, frame, cap, ntasks.
  destruct (mc_model (machine (world r))); simpl; done.
Qed.

Lemma finish_status now r : (finish now r).1 = Returned true.
Proof.
  unfold finish, TaskMachine_set_isRunning.
  destruct (mc_model (machine (world r))); simpl; done.
Qed.

(** One cycle: the cap and the tasks stay, [total] grows by the number of
    tasks started, which are at most all of them, and only while the cap
    has not been exceeded. *)
Lemma cycle_frame now r :
  frame (cycle_run (cycle now r)) = frame r ∧
  (total r ≤ total (cycle_run (cycle now r)))%Z ∧
  (total (cycle_run (cycle now r)) = total r ∨
   (total r ≤ cap r)%Z ∧
   (total (cycle_run (cycle now r)) ≤ total r + Z.of_nat (ntasks r))%Z).
Proof.
  unfold cycle, frame, cap, ntasks.
  destruct (filter_runnable _ _) as [s1 [l|e]] eqn:Hf; simpl; [|split; [done|lia]].
  apply filter_runnable_length in Hf. rewrite indexed_tasks_length in Hf.
  destruct (_ && _); simpl; [split; [done|lia]|].
  destruct (_ >? _)%Z eqn:Hgt; simpl; [split; [done|lia]|].
  destruct (launch_all now l s1) as [[s2 invs] done'].
  assert (total r ≤ mc_maxExecutions (machine (world r)))%Z by lia.
  destruct (r_options r); simpl; (split; [done|lia]).
Qed.

Lemma drain_frame r :
  frame (drain r) = frame r ∧ total (drain r) = total r ∧ polled (drain r) = polled r ∧
  r_options (drain r) = r_options r.
Proof. done. Qed.

Lemma resumed_frame acts r :
  frame (resumed acts r) = frame r ∧ total (resumed acts r) = total r ∧
  polled (resumed acts r) = polled r ∧ r_options (resumed acts r) = r_options r.
Proof. unfold resumed. by destruct (foldl_act_frame acts (drain r)) as (-> & -> & -> & ->). Qed.

Lemma loop_eq now script r :
  loop now script r =
  match cycle now r with
  | CycleThrow e r' => (Threw e, r')
  | CycleBreak r' => finish now r'
  | CycleAwait r' =>
      match script with
      | [] => (if waiting_for_tasks (drain r') then AwaitingTasks else AwaitingTimer, drain r')
      | (acts, now') :: rest =>
          if waiting_for_tasks (resumed acts r') then (AwaitingTasks, resumed acts r')
          else if mc_destroyed (machine (world (resumed acts r')))
               then finish now' (resumed acts r')
               else loop now' rest (resumed acts r')
      end
  end.
Proof. destruct script as [|[acts now'] rest]; reflexivity. Qed.

Lemma loop_frame script now r : frame (loop now script r).2 = frame r.
Proof.
  revert now r. induction script as [|[acts now'] rest IH]; intros now r;
    rewrite loop_eq;
    pose proof (cycle_frame now r) as (Hfr & _);
    destruct (cycle now r) as [e r1|r1|r1]; unfold cycle_run in *; try done.
  - by destruct (finish_frame now r1) as (-> & _).
  - by destruct (finish_frame now r1) as (-> & _).
  - destruct (resumed_frame acts r1) as (Hf2 & _).
    destruct (waiting_for_tasks _); [simpl; by rewrite Hf2|].
    destruct (mc_destroyed _).
    + destruct (finish_frame now' (resumed acts r1)) as (-> & _). by rewrite Hf2.
    + by rewrite IH, Hf2.
Qed.

Lemma loop_total_bound script now r :
  (total r ≤ cap r + Z.of_nat (ntasks r))%Z →
  (total (loop now script r).2 ≤ cap r + Z.of_nat (ntasks r))%Z.
Proof.
  revert now r. induction script as [|[acts now'] rest IH]; intros now r Hb;
    rewrite loop_eq;
    pose proof (cycle_frame now r) as (Hfr & _ & Hc);
    destruct (cycle now r) as [e r1|r1|r1]; unfold cycle_run in *;
    (assert (total r1 ≤ cap r + Z.of_nat (ntasks r))%Z as Hb1 by lia).
  - done.
  - by destruct (finish_frame now r1) as (_ & -> & _).
  - by destruct (waiting_for_tasks _).
  - done.
  - by destruct (finish_frame now r1) as (_ & -> & _).
  - destruct (resumed_frame acts r1) as (Hf2 & Ht2 & _).
    destruct (frame_eq _ _ Hfr) as (Hcap1 & Hn1 & _).
    destruct (frame_eq _ _ Hf2) as (Hcap2 & Hn2 & _).
    destruct (waiting_for_tasks _); [simpl; by rewrite Ht2|].
    destruct (mc_destroyed _).
    + destruct (finish_frame now' (resumed acts r1)) as (_ & -> & _). by rewrite Ht2.
    + specialize (IH now' (resumed acts r1)).
      rewrite Ht2, Hcap2, Hn2, Hcap1, Hn1 in IH. by apply IH.
Qed.

(** [total] counts the launches the trace records. *)
Lemma cycle_counted now r : counted r (cycle_run (cycle now r)).
Proof.
  unfold counted, cycle. pose proof (filter_runnable_store (indexed_tasks (world r)) (store (world r))) as Hs.
  destruct (filter_runnable _ _) as [s1 [l|e]]; simpl in Hs; subst s1; simpl; [|done].
  destruct (_ && _); simpl; [done|]. destruct (_ >? _)%Z; simpl; [done|].
  pose proof (launch_all_launches now l (store (world r))) as Hl.
  destruct (launch_all now l (store (world r))) as [[s2 invs] done']. simpl in Hl.
  destruct (r_options r); simpl; lia.
Qed.

Lemma act_counted r a : counted r (act r a).
Proof.
  unfold counted. destruct a as [n o|pred| |f]; simpl; try done.
  - unfold settle. destruct (inflight r !! n) as [inv|]; [|done].
    destruct (task_objects (world r) !! i_task inv) as [t|]; [|done].
    pose proof (emits_quiet_launches (Task_start_resume t inv o) (store (world r))
                  (Task_start_resume_emits t inv o)) as H.
    destruct (Task_start_resume t inv o (store (world r))) as [s c]. simpl in *. by rewrite H.
  - unfold TaskMachine_clear. destruct (mc_tasks _); [done|]. unfold on_store.
    pose proof (emits_quiet_launches (for_each Task_clear
                  (filter (λ t, predFn pred t = true) (task_objects (world r))))
                  (store (world r)) (for_each_emits _ _ _ Task_clear_emits)) as H.
    destruct (for_each _ _ _) as [s c]. simpl in *. by rewrite H.
  - unfold TaskMachine_destroy. by destruct (mc_tasks _).
Qed.

Lemma resumed_counted acts r : counted r (resumed acts r).
Proof.
  unfold resumed. assert (counted r (drain r)) as H by done. revert H.
  generalize (drain r). induction acts as [|a acts IH]; intros r0 H; simpl; [done|].
  apply IH. pose proof (act_counted r0 a) as H2. unfold counted in *. lia.
Qed.

Lemma finish_counted now r : counted r (finish now r).2.
Proof.
  unfold counted, finish, TaskMachine_set_isRunning. by destruct (mc_model _).
Qed.

Lemma loop_counted script now r : counted r (loop now script r).2.
Proof.
  revert now r. induction script as [|[acts now'] rest IH]; intros now r;
    rewrite loop_eq; pose proof (cycle_counted now r) as Hc;
    destruct (cycle now r) as [e r1|r1|r1]; unfold cycle_run in Hc; try done.
  - pose proof (finish_counted now r1). unfold counted in *. lia.
  - pose proof (finish_counted now r1). unfold counted in *. lia.
  - pose proof (resumed_counted acts r1) as Hr.
    destruct (waiting_for_tasks _); [unfold counted in *; simpl; lia|].
    destruct (mc_destroyed _).
    + pose proof (finish_counted now' (resumed acts r1)). unfold counted in *. lia.
    + specialize (IH now' (resumed acts r1)). unfold counted in *. lia.
Qed.

Lemma TaskMachine_set_isRunning_frame b now w :
  machine (TaskMachine_set_isRunning b now w).1 = machine w ∧
  task_objects (TaskMachine_set_isRunning b now w).1 = task_objects w ∧
  (TaskMachine_set_isRunning b now w).2 = Normal tt ∧
  trace (store (TaskMachine_set_isRunning b now w).1) = trace (store w).
Proof.
  unfold TaskMachine_set_isRunning. destruct (mc_model (machine w)); done.
Qed.

Lemma TaskMachine_get_isRunning_frame w :
  (TaskMachine_get_isRunning w).1 = w.
Proof.
  unfold TaskMachine_get_isRunning. destruct (mc_model (machine w)); [done|].
  by destruct w.
Qed.

(** Past the cap nothing is launched any more. *)
Lemma loop_total_past_cap script now r :
  (total r > cap r)%Z → total (loop now script r).2 = total r.
Proof.
  intros Hgt. rewrite loop_eq. unfold cycle, cap in *.
  destruct (filter_runnable _ _) as [s1 [l|e]]; [|done].
  destruct (_ && _).
  { by destruct (finish_frame now {| world := with_store (world r) s1; r_options := r_options r;
       count := count r; total := total r; inflight := inflight r; settled := settled r;
       polled := map (λ it : nat * Task, t_key it.2) l :: polled r |}) as (_ & -> & _). }
  destruct (_ >? _)%Z eqn:E; [|lia].
  by destruct (finish_frame now {| world := with_store (world r) s1; r_options := r_options r;
       count := count r; total := total r; inflight := inflight r; settled := settled r;
       polled := map (λ it : nat * Task, t_key it.2) l :: polled r |}) as (_ & -> & _).
Qed.

(** C10, as amended.  In every run of [start()], whatever happens while it
    is suspended and however long it goes on, [total] is the number of
    launches made so far (the ['Task #start'] lines the run has added to the
    trace).  With a cap that is not negative it never exceeds [maxExecutions]
    plus the number of tasks of the machine; with a negative cap nothing is
    launched at all, which is more than [maxExecutions] plus the number of
    tasks when that sum is negative. *)
Theorem C10_total_launches_bounded (now : Z) (script : list (list Action * Z)) (w : World) :
  let r' := (TaskMachine_start now script w).2 in
  let N := Z.of_nat (length (task_objects w)) in
  ((0 ≤ mc_maxExecutions (machine w))%Z → (total r' ≤ mc_maxExecutions (machine w) + N)%Z) ∧
  ((mc_maxExecutions (machine w) < 0)%Z → total r' = 0%Z) ∧
  Z.of_nat (launches (store (world r'))) = (Z.of_nat (launches (store w)) + total r')%Z.
Proof.
  unfold TaskMachine_start.
  pose proof (TaskMachine_get_isRunning_frame w) as Hg.
  destruct (TaskMachine_get_isRunning w) as [w1 [running|e]]; simpl in Hg; subst w1;
    [|simpl; lia].
  destruct (_ || _); [simpl; lia|].
  pose proof (TaskMachine_set_isRunning_frame true now w) as (Hm & Ht & Hc & Htr).
  destruct (TaskMachine_set_isRunning true now w) as [w2 c]; simpl in *. subst c.
  pose proof (loop_total_bound script now (fresh_run w2)) as Hl.
  pose proof (loop_counted script now (fresh_run w2)) as Hn.
  pose proof (loop_total_past_cap script now (fresh_run w2)) as Hz.
  unfold cap, ntasks in Hl, Hz. unfold counted, launches in *. simpl in Hl, Hn, Hz.
  rewrite Hm, Ht in Hl. rewrite Hm in Hz. rewrite Htr in Hn.
  split; [intros Hmax; apply Hl; lia|]. split; [intros Hneg; apply Hz; lia|]. lia.
Qed.

(** ** The polling loop: consistency *)

Lemma consistent_same w w' :
  machine w' = machine w → task_objects w' = task_objects w → consistent w → consistent w'.
Proof. unfold consistent. by intros -> ->. Qed.

Lemma consistent_destroy w : consistent w → consistent (TaskMachine_destroy w).1.
Proof.
  unfold consistent, TaskMachine_destroy.
  destruct (mc_destroyed (machine w)); intros H.
  - destruct H as (H1 & H2 & H3). by rewrite H2.
  - destruct H as (H1 & H2 & _). rewrite H2. simpl. repeat split.
    apply Forall_fmap. by apply Forall_true.
Qed.

Lemma consistent_act r a : consistent (world r) → consistent (world (act r a)).
Proof.
  intros H. destruct a as [n o|pred| |f]; simpl.
  - destruct (settle_frame n o r) as (Hm & Ht & _). by apply (consistent_same _ _ Hm Ht).
  - destruct (TaskMachine_clear_frame pred (world r)) as [Hm Ht].
    by apply (consistent_same _ _ Hm Ht).
  - by apply consistent_destroy.
  - done.
Qed.

Lemma consistent_resumed acts r : consistent (world r) → consistent (world (resumed acts r)).
Proof.
  unfold resumed. change (world r) with (world (drain r)). generalize (drain r).
  induction acts as [|a acts IH]; intros r0 H; simpl; [done|].
  apply IH. by apply consistent_act.
Qed.

Lemma indexed_tasks_attached w :
  Forall attached (task_objects w) → Forall (λ it : nat * Task, attached it.2) (indexed_tasks w).
Proof.
  unfold indexed_tasks. generalize (seq 0 (length (task_objects w))).
  induction (task_objects w) as [|t ts IH]; intros ns H; destruct ns as [|n ns]; simpl;
    try constructor.
  - by inversion H.
  - apply IH. by inversion H.
Qed.

Lemma filter_runnable_attached ts s :
  Forall (λ it : nat * Task, attached it.2) ts →
  filter_runnable ts s
  = (s, Normal (filter (λ it : nat * Task, task_runnable (model s) it.2 = true) ts)).
Proof.
  induction 1 as [|it ts (Hm & [k Hk] & [h Hh]) _ IH]; simpl; [done|].
  unfold mbind, Eff_bind. rewrite (Task_isRunnable_eq _ k h) by done. rewrite IH.
  unfold mret, Eff_ret. rewrite filter_cons.
  assert (task_runnable (model s) it.2 = runnable k h (model s)) as ->
    by (unfold task_runnable; by rewrite Hk, Hh).
  destruct (runnable k h (model s)); by case_decide.
Qed.

Lemma cycle_cases now r :
  consistent (world r) → mc_destroyed (machine (world r)) = false → is_Some (r_options r) →
  let l := runnable_now r in
  let r1 := cycle_run (cycle now r) in
  polled r1 = map (λ it : nat * Task, t_key it.2) l :: polled r ∧
  r_options r1 = r_options r ∧
  machine (world r1) = machine (world r) ∧
  task_objects (world r1) = task_objects (world r) ∧
  (cycle now r = CycleBreak r1 ∧ store (world r1) = store (world r) ∧ total r1 = total r ∧
   (l = [] ∧ count r = 0%Z ∨ (total r > mc_maxExecutions (machine (world r)))%Z)
   ∨
   cycle now r = CycleAwait r1 ∧ ¬ (l = [] ∧ count r = 0%Z) ∧
   (total r ≤ mc_maxExecutions (machine (world r)))%Z ∧
   total r1 = (total r + Z.of_nat (length l))%Z ∧
   store (world r1) = (launch_all now l (store (world r))).1.1).
Proof.
  intros Hc Hd [o Ho] l r1. unfold consistent in Hc. rewrite Hd in Hc.
  destruct Hc as (_ & _ & _ & Hatt). apply indexed_tasks_attached in Hatt.
  subst r1. unfold cycle.
  rewrite (filter_runnable_attached _ _ Hatt). fold (runnable_now r). fold l.
  destruct ((length l =? 0)%nat && (count r =? 0)%Z) eqn:Hq; simpl.
  { repeat split; try done. left. repeat split; try done. left.
    apply andb_true_iff in Hq as [Hl Hz]. apply Nat.eqb_eq in Hl. apply Z.eqb_eq in Hz.
    split; [by apply nil_length_inv|done]. }
  destruct (total r >? mc_maxExecutions (machine (world r)))%Z eqn:Hgt; simpl.
  { repeat split; try done. left. repeat split; try done. right. lia. }
  destruct (launch_all now l (store (world r))) as [[s2 invs] done'] eqn:Hl.
  rewrite Ho. simpl. repeat split; try done. right. repeat split; try done; [|lia].
  intros [Hnil Hz]. rewrite Hnil, Hz in Hq. done.
Qed.

(** ** The polling loop: how it ends *)

Lemma loop_ready_resumed acts r1 r :
  loop_ready r → r_options r1 = r_options r → consistent (world r1) →
  mc_destroyed (machine (world (resumed acts r1))) = false →
  loop_ready (resumed acts r1).
Proof.
  intros (_ & _ & Ho) Hopt Hc Hd. split; [by apply consistent_resumed|]. split; [done|].
  destruct (resumed_frame acts r1) as (_ & _ & _ & ->). by rewrite Hopt.
Qed.

Lemma loop_ends script : ∀ now r st r',
  loop_ready r → loop now script r = (st, r') →
  ∃ new, polled r' = new ++ polled r ∧
    match st with
    | Returned b =>
        b = true ∧
        ∃ now' r0, now' ∈ now :: script.*2 ∧ consistent (world r0) ∧
                   finish now' r0 = (Returned true, r')
    | Threw _ => False
    | AwaitingTasks => True
    | AwaitingTimer =>
        Forall (λ keys : list string, keys ≠ []) new →
        (total r + Z.of_nat (length script) ≤ mc_maxExecutions (machine (world r)))%Z
    end.
Proof.
  induction script as [|[acts now'] rest IH]; intros now r st r' Hready Hloop;
    rewrite loop_eq in Hloop;
    destruct Hready as (Hc & Hd & Ho);
    destruct (cycle_cases now r Hc Hd Ho) as (Hp & Hopt & Hm & Ht & Hcase);
    assert (consistent (world (cycle_run (cycle now r)))) as Hc1
      by (by apply (consistent_same _ _ Hm Ht));
    destruct Hcase as [(Heq & _ & _ & _) | (Heq & Hnq & Hle & Htot & _)];
    rewrite Heq in Hloop.
  - (* break *)
    pose proof (finish_status now (cycle_run (cycle now r))) as Hst.
    pose proof (finish_frame now (cycle_run (cycle now r))) as (_ & _ & Hpol).
    rewrite Hloop in Hst, Hpol. simpl in Hst, Hpol. subst st.
    exists [map (λ it : nat * Task, t_key it.2) (runnable_now r)].
    split; [by rewrite Hpol, Hp|]. split; [done|].
    exists now, (cycle_run (cycle now r)). split; [apply list_elem_of_here|]. done.
  - (* suspended, nothing more happens *)
    exists [map (λ it : nat * Task, t_key it.2) (runnable_now r)].
    assert (polled (drain (cycle_run (cycle now r))) = polled (cycle_run (cycle now r)))
      as Hpd by done.
    destruct (waiting_for_tasks _); simplify_eq; (split; [by rewrite Hpd, Hp|]); [done|].
    intros _. simpl. lia.
  - (* break *)
    pose proof (finish_status now (cycle_run (cycle now r))) as Hst.
    pose proof (finish_frame now (cycle_run (cycle now r))) as (_ & _ & Hpol).
    rewrite Hloop in Hst, Hpol. simpl in Hst, Hpol. subst st.
    exists [map (λ it : nat * Task, t_key it.2) (runnable_now r)].
    split; [by rewrite Hpol, Hp|]. split; [done|].
    exists now, (cycle_run (cycle now r)). split; [apply list_elem_of_here|]. done.
  - (* suspended, then resumed *)
    set (r1 := cycle_run (cycle now r)) in *.
    destruct (resumed_frame acts r1) as (Hf2 & Ht2 & Hp2 & Ho2).
    pose proof (consistent_resumed acts r1 Hc1) as Hc2.
    destruct (waiting_for_tasks _).
    { simplify_eq. exists [map (λ it : nat * Task, t_key it.2) (runnable_now r)].
      split; [by rewrite Hp2, Hp|done]. }
    destruct (mc_destroyed (machine (world (resumed acts r1)))) eqn:Hd2.
    { pose proof (finish_status now' (resumed acts r1)) as Hst.
      pose proof (finish_frame now' (resumed acts r1)) as (_ & _ & Hpol).
      rewrite Hloop in Hst, Hpol. simpl in Hst, Hpol. subst st.
      exists [map (λ it : nat * Task, t_key it.2) (runnable_now r)].
      split; [by rewrite Hpol, Hp2, Hp|]. split; [done|].
      exists now', (resumed acts r1). split; [|done].
      rewrite fmap_cons. simpl. apply list_elem_of_further, list_elem_of_here. }
    assert (loop_ready (resumed acts r1)) as Hready2.
    { apply (loop_ready_resumed acts r1 r); try done. }
    destruct (IH now' (resumed acts r1) st r' Hready2 Hloop) as (new & Hnew & Hst).
    exists (new ++ [map (λ it : nat * Task, t_key it.2) (runnable_now r)]).
    split; [by rewrite Hnew, Hp2, Hp, <- app_assoc|].
    destruct st as [b|e| |]; try done.
    + destruct Hst as (-> & now'' & r0 & Hin & Hc0 & Hfin). split; [done|].
      exists now'', r0. split; [|done]. rewrite fmap_cons. by apply list_elem_of_further.
    + intros Hall. apply Forall_app in Hall as [Hall Hk]. specialize (Hst Hall).
      rewrite Forall_singleton in Hk.
      assert (runnable_now r ≠ []) as Hne by (intros E; rewrite E in Hk; by apply Hk).
      assert (0 < length (runnable_now r))%nat
        by (destruct (runnable_now r); [done|simpl; lia]).
      assert (mc_maxExecutions (machine (world (resumed acts r1)))
              = mc_maxExecutions (machine (world r))) as Hmax
        by (apply frame_eq in Hf2 as (Hcap & _); unfold cap in Hcap; by rewrite Hcap, Hm).
      rewrite Ht2, Htot, Hmax in Hst. simpl. lia.
Qed.

(** ** [start()] from a machine at rest *)

Lemma start_enters_loop now script w :
  at_rest w →
  TaskMachine_start now script w = loop now script (entered now w) ∧
  loop_ready (entered now w) ∧
  frame (entered now w) = frame (fresh_run w) ∧
  total (entered now w) = 0%Z ∧ count (entered now w) = 0%Z ∧ polled (entered now w) = [].
Proof.
  intros (Hc & Hd & Hr). unfold entered.
  pose proof (TaskMachine_set_isRunning_frame true now w) as (Hm & Ht & Hn & _).
  assert (mc_model (machine w) = Obj ∧ is_Some (mc_options (machine w))) as [Hmod Hopt].
  { unfold consistent in Hc. rewrite Hd in Hc. by destruct Hc as (? & _ & ? & _). }
  split; [|split; [|split]]; try done.
  - unfold TaskMachine_start, TaskMachine_get_isRunning, on_store, read. rewrite Hmod. simpl.
    replace (with_store w (store w)) with w by (by destruct w).
    rewrite Hr, Hd. simpl.
    destruct (TaskMachine_set_isRunning true now w) as [w2 c]. simpl in *. by subst c.
  - split; [by apply (consistent_same _ _ Hm Ht)|]. simpl. by rewrite Hm.
  - unfold frame, cap, ntasks. simpl. by rewrite Hm, Ht.
Qed.

(** ** The polling loop: an environment that settles every execution *)












Lemma finish_not_destroyed now r :
  mc_model (machine (world r)) = Obj →
  let pk := mc_propKeys (machine (world r)) in
  model (store (world (finish now r).2))
  = <[mk_stoppedAt pk := VNum now]> (<[mk_running pk := VBool false]> (model (store (world r)))).
Proof.
  intros Hm. unfold finish, TaskMachine_set_isRunning. by rewrite Hm.
Qed.

Lemma finish_destroyed now r :
  mc_model (machine (world r)) = Null → finish now r = (Returned true, r).
Proof.
  intros Hm. unfold finish, TaskMachine_set_isRunning. rewrite Hm. by destruct r.
Qed.

(** How the loop is left.  Either a cycle breaks, in the machine as it is
    (not destroyed), at the clock of that cycle; or the loop resumes on a
    destroyed machine and the state the suspension left is the final one. *)
Lemma loop_exit script : ∀ now r r',
  loop_ready r → loop now script r = (Returned true, r') →
  (∃ k now' r0, (now :: script.*2) !! k = Some now' ∧
     length (polled r') = (length (polled r) + k + 1)%nat ∧
     consistent (world r0) ∧ mc_destroyed (machine (world r0)) = false ∧
     frame r0 = frame r ∧
     finish now' r0 = (Returned true, r')) ∨
  (∃ pre acts now' post, script = pre ++ (acts, now') :: post ∧
     length (polled r') = (length (polled r) + length pre + 1)%nat ∧
     mc_destroyed (machine (world r')) = true ∧
     ((loop now pre r).1 = AwaitingTimer ∨ (loop now pre r).1 = AwaitingTasks) ∧
     r' = foldl act (loop now pre r).2 acts).
Proof.
  induction script as [|[acts now'] rest IH]; intros now r r' Hready Hloop;
    pose proof Hloop as Hloop0;
    rewrite loop_eq in Hloop;
    destruct Hready as (Hc & Hd & Ho);
    destruct (cycle_cases now r Hc Hd Ho) as (Hp & Hopt & Hm & Ht & Hcase);
    assert (consistent (world (cycle_run (cycle now r)))) as Hc1
      by (by apply (consistent_same _ _ Hm Ht));
    destruct Hcase as [(Heq & _ & _ & _) | (Heq & Hnq & Hle & Htot & _)];
    rewrite Heq in Hloop.
  - left. exists 0%nat, now, (cycle_run (cycle now r)).
    pose proof (finish_frame now (cycle_run (cycle now r))) as (_ & _ & Hpol).
    rewrite Hloop in Hpol. simpl in Hpol.
    split; [done|]. split; [rewrite Hpol, Hp; simpl; lia|].
    split; [done|]. split; [by rewrite Hm|].
    split; [|done]. unfold frame, cap, ntasks. by rewrite Hm, Ht.
  - by destruct (waiting_for_tasks _).
  - left. exists 0%nat, now, (cycle_run (cycle now r)).
    pose proof (finish_frame now (cycle_run (cycle now r))) as (_ & _ & Hpol).
    rewrite Hloop in Hpol. simpl in Hpol.
    split; [done|]. split; [rewrite Hpol, Hp; simpl; lia|].
    split; [done|]. split; [by rewrite Hm|].
    split; [|done]. unfold frame, cap, ntasks. by rewrite Hm, Ht.
  - set (r1 := cycle_run (cycle now r)) in *.
    destruct (resumed_frame acts r1) as (Hf2 & Ht2 & Hp2 & Ho2).
    pose proof (consistent_resumed acts r1 Hc1) as Hc2.
    destruct (waiting_for_tasks (resumed acts r1)) eqn:Hw; [done|].
    destruct (mc_destroyed (machine (world (resumed acts r1)))) eqn:Hd2.
    + right. exists [], acts, now', rest. split; [done|].
      assert (mc_model (machine (world (resumed acts r1))) = Null) as Hnull.
      { unfold consistent in Hc2. rewrite Hd2 in Hc2. by destruct Hc2. }
      rewrite (finish_destroyed now' _ Hnull) in Hloop. simplify_eq.
      split; [rewrite Hp2, Hp; simpl; lia|]. split; [done|].
      rewrite loop_eq, Heq. split; [|done].
      destruct (waiting_for_tasks (drain r1)); [by right|by left].
    + assert (loop_ready (resumed acts r1)) as Hready2
        by (by apply (loop_ready_resumed acts r1 r)).
      destruct (IH now' (resumed acts r1) r' Hready2 Hloop) as
        [(k & now'' & r0 & Hk & Hlen & Hc0 & Hd0 & Hm0 & Hfin)
        |(pre & acts' & now'' & post & Hs & Hlen & Hd' & Hsus & Hr')].
      * left. exists (S k), now'', r0. split; [done|].
        split; [rewrite Hlen, Hp2, Hp; simpl; lia|]. split; [done|]. split; [done|].
        split; [|done]. rewrite Hm0, Hf2. unfold frame, cap, ntasks. by rewrite Hm, Ht.
      * right. exists ((acts, now') :: pre), acts', now'', post.
        split; [by rewrite Hs|]. split; [rewrite Hlen, Hp2, Hp; simpl; lia|].
        split; [done|].
        assert (loop now ((acts, now') :: pre) r = loop now' pre (resumed acts r1)) as ->.
        { rewrite (loop_eq now ((acts, now') :: pre)), Heq. fold r1. by rewrite Hw, Hd2. }
        done.
Qed.

(** C8, as amended.  Start a machine at rest.  The promise of [start()] is
    never rejected and never resolves to [false].  When it has resolved and
    the machine is not destroyed, the loop was left by a [break], in the
    last cycle of the run: [stoppedAt] holds the clock of that cycle and,
    when [running] and [stoppedAt] are different properties, [running] is
    [false].  When it has resolved and the machine is destroyed, the loop
    was left on a resumption, and leaving it wrote nothing: the final state
    is the one in which the run was suspended, changed by what happened
    during that suspension and by nothing else.  And whenever a poll finds
    no task runnable while [count] is zero, the loop breaks in that cycle. *)
Theorem C8_loop_exit
    (now : Z) (script : list (list Action * Z)) (w : World) (st : Status) (r' : Run) :
  at_rest w →
  TaskMachine_start now script w = (st, r') →
  let pk := mc_propKeys (machine w) in
  (st = Returned true ∨ st = AwaitingTasks ∨ st = AwaitingTimer) ∧
  (st = Returned true →
   if mc_destroyed (machine (world r'))
   then ∃ pre acts now' post,
          script = pre ++ (acts, now') :: post ∧
          length (polled r') = S (length pre) ∧
          ((TaskMachine_start now pre w).1 = AwaitingTimer ∨
           (TaskMachine_start now pre w).1 = AwaitingTasks) ∧
          r' = foldl act (TaskMachine_start now pre w).2 acts
   else ∃ k now',
          (now :: script.*2) !! k = Some now' ∧ length (polled r') = S k ∧
          model (store (world r')) !!! mk_stoppedAt pk = VNum now' ∧
          (mk_running pk ≠ mk_stoppedAt pk →
           model (store (world r')) !!! mk_running pk = VBool false)) ∧
  (∀ now1 script1 r, loop_ready r → runnable_now r = [] → count r = 0%Z →
     ∃ r1, cycle now1 r = CycleBreak r1 ∧ loop now1 script1 r = finish now1 r1).
Proof.
  intros Hrest Hstart pk.
  destruct (start_enters_loop now script w Hrest) as (Heq & Hready & Hfr & _ & _ & Hp0).
  rewrite Heq in Hstart.
  destruct (loop_ends script now _ st r' Hready Hstart) as (new & _ & Hst).
  split; [|split].
  - destruct st as [b|e| |]; try done; [|by right; left|by right; right].
    destruct Hst as [-> _]. by left.
  - intros ->.
    destruct (loop_exit script now _ r' Hready Hstart) as
      [(k & now' & r0 & Hk & Hlen & Hc0 & Hd0 & Hf0 & Hfin)
      |(pre & acts & now' & post & Hs & Hlen & Hd' & Hsus & Hr')].
    + assert (machine (world r') = machine (world r0)) as Hmach.
      { unfold finish in Hfin.
        destruct (TaskMachine_set_isRunning_frame false now' (world r0)) as (Hm & _).
        destruct (TaskMachine_set_isRunning false now' (world r0)) as [w0 c]. simpl in *.
        by simplify_eq. }
      rewrite Hmach, Hd0. exists k, now'. split; [done|].
      split; [rewrite Hlen, Hp0; simpl; lia|].
      unfold consistent in Hc0. rewrite Hd0 in Hc0. destruct Hc0 as (Hm0 & _).
      pose proof (finish_not_destroyed now' r0 Hm0) as Hmod. rewrite Hfin in Hmod.
      simpl in Hmod.
      assert (mc_propKeys (machine (world r0)) = pk) as Hpk.
      { rewrite Hfr in Hf0. by apply frame_eq in Hf0 as (_ & _ & ->). }
      rewrite Hpk in Hmod. rewrite Hmod. split; [by rewrite lookup_total_insert_eq|].
      intros Hkeys. by rewrite lookup_total_insert_ne, lookup_total_insert_eq.
    + rewrite Hd'. exists pre, acts, now', post. split; [done|].
      split; [rewrite Hlen, Hp0; simpl; lia|].
      destruct (start_enters_loop now pre w Hrest) as (-> & _). done.
  - intros now1 script1 r (Hc & Hd & Ho) Hnil Hz.
    destruct (cycle_cases now1 r Hc Hd Ho) as (_ & _ & _ & _ & Hcase).
    destruct Hcase as [(Hbr & _) | (_ & Hnq & _)]; [|by destruct Hnq].
    eexists. split; [exact Hbr|]. rewrite loop_eq. by rewrite Hbr.
Qed.

(** ** Which tasks a cycle starts *)

Lemma task_runnable_true m t :
  task_runnable m t = true →
  ∃ k h, t_propKeys t = Some k ∧ t_hooks t = Some h ∧ runnable k h m = true.
Proof.
  unfold task_runnable. destruct (t_propKeys t) as [k|]; [|done].
  destruct (t_hooks t) as [h|]; [|done]. intros H. by exists k, h.
Qed.

Lemma runnable_now_elem it r :
  it ∈ runnable_now r →
  it.2 ∈ task_objects (world r) ∧ task_runnable (model (store (world r))) it.2 = true.
Proof.
  unfold runnable_now. rewrite list_elem_of_filter. intros [Hr Hin]. split; [|done].
  unfold indexed_tasks in Hin. destruct it as [n t]. by apply elem_of_zip_r in Hin.
Qed.

(** C6.  A task that has not been destroyed is runnable exactly when its
    [running] field is not truthy and it has no guard or its guard, applied to
    the model, gives a truthy value; asking does not change the store.  And in
    every cycle of the polling loop, whatever is started or invoked (each
    ['Task #start'] and each hook invocation added to the trace) belongs to a
    task of the machine that was runnable, in this sense, on the model the
    cycle polled: a task that is running, or whose guard does not hold, is
    not launched. *)
Theorem C6_runnable_iff_idle_and_guard
    (t : Task) (k : TaskPropKeys) (h : Hooks) (s : Store) (now : Z) (r : Run) :
  t_model t = Obj → t_propKeys t = Some k → t_hooks t = Some h →
  loop_ready r →
  (∃ b, Task_isRunnable t s = (s, Normal b) ∧
        (b = true ↔
         truthy (model s !!! tk_running k) = false ∧
         (guard h = None ∨ ∃ g, guard h = Some g ∧ truthy (g (model s)) = true))) ∧
  (∃ l, trace (store (world (cycle_run (cycle now r)))) = trace (store (world r)) ++ l ∧
        ∀ key ev, (key, ev) ∈ l →
          ∃ t' k' h', t' ∈ task_objects (world r) ∧ t_key t' = key ∧
            t_propKeys t' = Some k' ∧ t_hooks t' = Some h' ∧
            truthy (model (store (world r)) !!! tk_running k') = false ∧
            (guard h' = None ∨
             ∃ g, guard h' = Some g ∧ truthy (g (model (store (world r)))) = true)).
Proof.
  intros Hm Hk Hh (Hc & Hd & Ho). split.
  - exists (runnable k h (model s)). split; [by apply Task_isRunnable_eq|].
    apply runnable_true.
  - destruct (cycle_cases now r Hc Hd Ho) as (_ & _ & _ & _ & Hcase).
    destruct Hcase as [(_ & -> & _) | (_ & _ & _ & _ & ->)].
    + exists []. split; [by rewrite app_nil_r|]. intros key ev Hin. by apply elem_of_nil in Hin.
    + destruct (launch_all_emits now (runnable_now r) (store (world r))) as (l & El & Hl).
      exists l. split; [done|]. intros key ev Hin.
      rewrite Forall_forall in Hl. destruct (Hl _ Hin) as (it & Hit & Hkey).
      apply runnable_now_elem in Hit as [Hobj Hrun].
      apply task_runnable_true in Hrun as (k' & h' & Hk' & Hh' & Hrun).
      apply runnable_true in Hrun as [Hidle Hguard].
      by exists it.2, k', h'.
Qed.

Lemma machine_a_at_rest h : at_rest (machine_a h).
Proof.
  unfold at_rest. split; [|split; [reflexivity|by vm_compute]].
  unfold consistent. simpl.
  split; [reflexivity|split; [reflexivity|split; [by eexists|]]].
  apply Forall_singleton. split; [reflexivity|split; by eexists].
Defined.

Lemma test_machine_at_rest : at_rest test_machine.
Proof.
  unfold at_rest. split; [|split; [reflexivity|by vm_compute]].
  unfold consistent. simpl.
  split; [reflexivity|split; [reflexivity|split; [by eexists|]]].
  apply Forall_singleton. split; [reflexivity|split; by eexists].
Defined.

Lemma machine_capped_at_rest : at_rest machine_capped.
Proof.
  unfold at_rest. split; [|split; [reflexivity|by vm_compute]].
  unfold consistent. simpl.
  split; [reflexivity|split; [reflexivity|split; [by eexists|]]].
  apply Forall_singleton. split; [reflexivity|split; by eexists].
Defined.

Lemma entered_ready now w : at_rest w → loop_ready (entered now w).
Proof. intros H. by destruct (start_enters_loop now [] w H) as (_ & ? & _). Defined.

Lemma C6_witness :
  (∃ b, Task_isRunnable (task_a fetch_hooks) empty_store = (empty_store, Normal b) ∧
        (b = true ↔
         truthy (model empty_store !!! "aRunning") = false ∧
         (guard fetch_hooks = None ∨
          ∃ g, guard fetch_hooks = Some g ∧ truthy (g (model empty_store)) = true))) ∧
  (∃ l, trace (store (world (cycle_run (cycle 100 (entered 100 test_machine)))))
        = trace (store (world (entered 100 test_machine))) ++ l ∧
        ∀ key ev, (key, ev) ∈ l →
          ∃ t' k' h', t' ∈ task_objects (world (entered 100 test_machine)) ∧ t_key t' = key ∧
            t_propKeys t' = Some k' ∧ t_hooks t' = Some h' ∧
            truthy (model (store (world (entered 100 test_machine))) !!! tk_running k') = false ∧
            (guard h' = None ∨
             ∃ g, guard h' = Some g ∧
                  truthy (g (model (store (world (entered 100 test_machine))))) = true)).
Proof.
  apply (C6_runnable_iff_idle_and_guard (task_a fetch_hooks) (defaultTaskPropKeys 1 "a")
           fetch_hooks empty_store 100 (entered 100 test_machine)
           eq_refl eq_refl eq_refl).
  apply entered_ready, test_machine_at_rest.
Defined.

(** ** Nothing is written after destroy *)

(** A destroyed task resumes to nothing, however its execution settles. *)
Lemma Task_start_resume_destroyed t i o s :
  t_destroyed t = true → Task_start_resume t i o s = (s, Normal tt).
Proof.
  intros Hd. unfold Task_start_resume, Task_start_catch. destruct o as [res|err].
  - unfold mbind, Eff_bind, read. by rewrite Hd.
  - by rewrite Hd.
Qed.

(** Once the machine has been destroyed, nothing the engine does while
    [start] is suspended writes to the store: executions that were in flight
    settle without effect, and [clear] and a second [destroy] throw before
    they touch anything.  Only the caller's own writes change the model. *)
Lemma after_destroy_nothing_is_written r a :
  consistent (world r) → mc_destroyed (machine (world r)) = true →
  (∀ f, a ≠ Mutate f) →
  store (world (act r a)) = store (world r).
Proof.
  intros Hc Hd Ha. unfold consistent in Hc. rewrite Hd in Hc. destruct Hc as (Hm & Ht & Hall).
  destruct a as [n o|pred| |f]; simpl.
  - unfold settle. destruct (inflight r !! n) as [inv|]; [|done].
    destruct (task_objects (world r) !! i_task inv) as [t|] eqn:Hl; [|done].
    rewrite Forall_forall in Hall.
    rewrite Task_start_resume_destroyed; [done|].
    apply Hall. by eapply list_elem_of_lookup_2.
  - unfold TaskMachine_clear. by rewrite Ht.
  - unfold TaskMachine_destroy. by rewrite Ht.
  - by destruct (Ha f).
Qed.

(** Leaving the loop after [destroy] writes nothing either. *)
Lemma after_destroy_finish_writes_nothing now r :
  consistent (world r) → mc_destroyed (machine (world r)) = true →
  finish now r = (Returned true, r).
Proof.
  intros Hc Hd. unfold consistent in Hc. rewrite Hd in Hc. destruct Hc as (Hm & _).
  by apply finish_destroyed.
Qed.

(** ** Examples of runs *)

Lemma C10_witness :
  (0 ≤ mc_maxExecutions (machine machine_capped))%Z ∧
  (total (TaskMachine_start 0 idle_script machine_capped).2 ≤ 2 + 1)%Z.
Proof.
  assert (0 ≤ mc_maxExecutions (machine machine_capped))%Z as Hcap by (by vm_compute).
  split; [exact Hcap|].
  exact (proj1 (C10_total_launches_bounded 0 idle_script machine_capped) Hcap).
Defined.

(** C10 as stated fails for a negative cap: with [maxExecutions = -5] and one
    task nothing is launched, and [total = 0] exceeds [-5 + 1]. *)
Lemma C10_counterexample :
  let run := TaskMachine_start 0 idle_script machine_negative in
  run.1 = Returned true ∧ total run.2 = 0%Z ∧
  ¬ (total run.2 ≤ mc_maxExecutions (machine machine_negative)
                   + Z.of_nat (length (task_objects machine_negative)))%Z.
Proof. split; [by vm_compute|]. split; [by vm_compute|]. intros H. vm_compute in H. by apply H. Qed.




(** With [waitForCompletion], as long as nothing settles the run stays
    parked on [await Promise.all], whatever the script holds. *)
Lemma machine_waiting_parked (script : list (list Action * Z)) :
  Forall (λ seg : list Action * Z, seg.1 = []) script →
  (TaskMachine_start 0 script machine_waiting).1 = AwaitingTasks.
Proof.
  intros Hs. destruct script as [|[acts t] rest]; [by vm_compute|].
  apply Forall_cons in Hs as [Ha _]. simpl in Ha. subst acts. by vm_compute.
Qed.


Lemma C8_witness :
  let run := TaskMachine_start 100 test_script test_machine in
  let gone := TaskMachine_start 100 destroy_script (machine_a bare_hooks) in
  (run.1 = Returned true ∧
   ∃ k now', (100%Z :: test_script.*2) !! k = Some now' ∧ length (polled run.2) = S k ∧
     model (store (world run.2)) !!! "machineStoppedAt" = VNum now' ∧
     ("machineRunning" ≠ "machineStoppedAt" →
      model (store (world run.2)) !!! "machineRunning" = VBool false)) ∧
  (gone.1 = Returned true ∧
   ∃ pre acts now' post,
     destroy_script = pre ++ (acts, now') :: post ∧ length (polled gone.2) = S (length pre) ∧
     ((TaskMachine_start 100 pre (machine_a bare_hooks)).1 = AwaitingTimer ∨
      (TaskMachine_start 100 pre (machine_a bare_hooks)).1 = AwaitingTasks) ∧
     gone.2 = foldl act (TaskMachine_start 100 pre (machine_a bare_hooks)).2 acts).
Proof.
  intros run gone. split.
  - destruct (C8_loop_exit 100 test_script test_machine run.1 run.2 test_machine_at_rest)
      as (_ & Hexit & _); [apply surjective_pairing|].
    assert (run.1 = Returned true) as Hst by (by vm_compute).
    split; [exact Hst|]. specialize (Hexit Hst).
    assert (mc_destroyed (machine (world run.2)) = false) as Hd by (by vm_compute).
    rewrite Hd in Hexit. exact Hexit.
  - destruct (C8_loop_exit 100 destroy_script (machine_a bare_hooks) gone.1 gone.2
                (machine_a_at_rest bare_hooks))
      as (_ & Hexit & _); [apply surjective_pairing|].
    assert (gone.1 = Returned true) as Hst by (by vm_compute).
    split; [exact Hst|]. specialize (Hexit Hst).
    assert (mc_destroyed (machine (world gone.2)) = true) as Hd by (by vm_compute).
    rewrite Hd in Hexit. exact Hexit.
Defined.

(** C8 as stated fails when the loop is left because the machine has been
    destroyed: the promise resolves to [true], but the model still has
    [running = true] and [stoppedAt] was never stamped. *)
Lemma C8_counterexample :
  let run := TaskMachine_start 100 destroy_script (machine_a bare_hooks) in
  run.1 = Returned true ∧
  mc_destroyed (machine (world run.2)) = true ∧
  model (store (world run.2)) !!! "machineRunning" = VBool true ∧
  model (store (world run.2)) !!! "machineStoppedAt" = VNum NEVER_EXECUTED.
Proof. by vm_compute. Qed.

(** The run of the repository's test ends as the test expects. *)
Example test_run :
  let run := TaskMachine_start 100 test_script test_machine in
  run.1 = Returned true ∧
  model (store (world run.2)) !!! "aError" = VNull ∧
  model (store (world run.2)) !!! "aRunning" = VBool false ∧
  model (store (world run.2)) !!! "aReady" = VBool true ∧
  model (store (world run.2)) !!! "machineRunning" = VBool false ∧
  model (store (world run.2)) !!! "value" = VObject 7.
Proof. by vm_compute. Qed.


(** A task whose [execute] always rejects is retried at every cycle until the
    cap is exceeded; the loop then halts with [error] set and [ready] false. *)
Example failing_run :
  let run := TaskMachine_start 0 failing_script machine_failing in
  run.1 = Returned true ∧ total run.2 = 3%Z ∧
  model (store (world run.2)) !!! "aError" = VStr "boom" ∧
  model (store (world run.2)) !!! "aReady" = VBool false ∧
  model (store (world run.2)) !!! "aRunning" = VBool false ∧
  model (store (world run.2)) !!! "machineRunning" = VBool false.
Proof. by vm_compute. Qed.

(** * More of the engine

    ** One execution of a task *)

(** X1.  An execution whose promise is fulfilled while its token is still in
    the model, whose [afterExecute] result is truthy and whose hooks return:
    the model is the one [assign] left with [ready = true] and
    [running = false] written over it, in this order, and the hooks called are
    [afterExecute] then [assign] (those the task has). *)
Theorem X1_success_path (t : Task) (i : Invocation) (res res' v : value) (s : Store)
    (m1 m2 : Model) :
  t_destroyed t = false → t_model t = Obj → t_propKeys t = Some (i_propKeys i) →
  model s !!! tk_executedAt (i_propKeys i) = VNum (i_time i) →
  after_hook i res (model s) = (m1, Normal res') →
  truthy res' = true →
  assign_hook i res' m1 = (m2, Normal v) →
  Task_start_resume t i (Fulfilled res) s =
  ({| model := <[tk_running (i_propKeys i) := VBool false]>
                 (<[tk_ready (i_propKeys i) := VBool true]> m2);
      trace := trace s ++ resume_calls i true |}, Normal tt).
Proof.
  intros Hd Hm Hk Htok Haft Htr Hass.
  unfold Task_start_resume, after_hook, assign_hook, resume_calls in *.
  unfold Task_set_isRunning, try_catch, call_hook, write, read, mbind, Eff_bind, mret, Eff_ret.
  rewrite Hd, Hm, Hk, Htok. simpl. rewrite Z.eqb_refl. simpl.
  destruct (afterExecute (i_hooks i)) as [fa|]; simpl.
  - rewrite Haft. simpl. rewrite Htr. simpl.
    destruct (assign (i_hooks i)) as [fg|]; simpl.
    + rewrite Hass. simpl. by rewrite <- app_assoc.
    + by simplify_eq.
  - simplify_eq. rewrite Htr. simpl.
    destruct (assign (i_hooks i)) as [fg|]; simpl.
    + rewrite Hass. simpl. done.
    + simplify_eq. by rewrite app_nil_r.
Qed.

Lemma X1_witness :
  Task_start_resume (task_a fetch_hooks) invocation_a (Fulfilled (VObject 7)) started_a.1 =
  ({| model := <[tk_running (i_propKeys invocation_a) := VBool false]>
                 (<[tk_ready (i_propKeys invocation_a) := VBool true]>
                    (<["value" := VObject 7]> (model started_a.1)));
      trace := trace started_a.1 ++ resume_calls invocation_a true |}, Normal tt).
Proof.
  apply (X1_success_path (task_a fetch_hooks) invocation_a (VObject 7) (VObject 7) VUndefined
           started_a.1 (model started_a.1) (<["value" := VObject 7]> (model started_a.1)));
    by vm_compute.
Defined.

(** X2.  A task without an [execute] hook: [start] does not throw; it
    records the error "Execute not a function" (its message, or the error
    object with [errorAsObject]), resets [running], and has called
    [beforeExecute] only.  There is nothing to wait for. *)
Theorem X2_missing_execute_is_recorded (t : Task) (k : TaskPropKeys) (h : Hooks) (idx : nat)
    (now : Z) (s : Store) (m1 : Model) (v e : value) :
  t_destroyed t = false → t_model t = Obj → t_propKeys t = Some k → t_hooks t = Some h →
  execute h = None →
  before_hook t h (started_fields k (model s)) = (m1, Normal v) →
  stored_error t (Error "Execute not a function") = Normal e →
  Task_start_sync t idx now s =
  ({| model := <[tk_running k := VBool false]> (<[tk_error k := e]> m1);
      trace := trace s ++ (t_key t, Started) :: before_calls t h |}, Normal None).
Proof.
  intros Hd Hm Hk Hh Hex Hbef He.
  unfold Task_start_sync, before_hook, before_calls, started_fields, stored_error,
    Task_start_catch in *.
  unfold Task_set_isRunning, try_catch, call_hook, log_start, write, read, lift, throw,
    mbind, Eff_bind, mret, Eff_ret.
  rewrite Hd, Hm, Hk, Hh, Hex. simpl.
  destruct (beforeExecute h) as [fb|]; simpl.
  - rewrite Hbef. simpl.
    destruct (errorAsObject (t_options t)); simpl in *; simplify_eq; by rewrite <- app_assoc.
  - simplify_eq. destruct (errorAsObject (t_options t)); simpl in *; simplify_eq; done.
Qed.

Lemma X2_witness :
  Task_start_sync (task_a no_hooks) 0 100 empty_store =
  ({| model := <["aRunning" := VBool false]>
                 (<["aError" := VStr "Execute not a function"]>
                    (started_fields (defaultTaskPropKeys 1 "a") ∅));
      trace := [("a", Started)] |}, Normal None).
Proof.
  apply (X2_missing_execute_is_recorded (task_a no_hooks) (defaultTaskPropKeys 1 "a") no_hooks
           0 100 empty_store (started_fields (defaultTaskPropKeys 1 "a") ∅) VUndefined
           (VStr "Execute not a function")); reflexivity.
Defined.

(** X3.  A falsy result (of [afterExecute], or of the promise when there is
    no such hook) is an error: "Result not truthy" is recorded, [running] is
    reset, [assign] is not called and [ready] is not written. *)
Theorem X3_falsy_result_is_an_error (t : Task) (i : Invocation) (res res' e : value)
    (s : Store) (m1 : Model) :
  t_destroyed t = false → t_model t = Obj → t_propKeys t = Some (i_propKeys i) →
  model s !!! tk_executedAt (i_propKeys i) = VNum (i_time i) →
  after_hook i res (model s) = (m1, Normal res') →
  truthy res' = false →
  stored_error t (Error "Result not truthy") = Normal e →
  Task_start_resume t i (Fulfilled res) s =
  ({| model := <[tk_running (i_propKeys i) := VBool false]>
                 (<[tk_error (i_propKeys i) := e]> m1);
      trace := trace s ++ resume_calls i false |}, Normal tt).
Proof.
  intros Hd Hm Hk Htok Haft Htr He.
  unfold Task_start_resume, after_hook, resume_calls, stored_error, Task_start_catch in *.
  unfold Task_set_isRunning, try_catch, call_hook, write, read, lift, throw,
    mbind, Eff_bind, mret, Eff_ret.
  rewrite Hd, Hm, Hk, Htok. simpl. rewrite Z.eqb_refl. simpl.
  destruct (afterExecute (i_hooks i)) as [fa|]; simpl.
  - rewrite Haft. simpl. rewrite Htr. simpl.
    destruct (errorAsObject (t_options t)); simpl in *; simplify_eq;
      destruct (assign (i_hooks i)); by rewrite ?app_nil_r.
  - simplify_eq. rewrite Htr. simpl.
    destruct (errorAsObject (t_options t)); simpl in *; simplify_eq;
      destruct (assign (i_hooks i)); by rewrite ?app_nil_r.
Qed.

Lemma X3_witness :
  Task_start_resume (task_a bare_hooks) invocation_bare (Fulfilled VNull) started_bare.1 =
  ({| model := <[tk_running (i_propKeys invocation_bare) := VBool false]>
                 (<[tk_error (i_propKeys invocation_bare) := VStr "Result not truthy"]>
                    (model started_bare.1));
      trace := trace started_bare.1 ++ resume_calls invocation_bare false |}, Normal tt).
Proof.
  apply (X3_falsy_result_is_an_error (task_a bare_hooks) invocation_bare VNull VNull
           (VStr "Result not truthy") started_bare.1 (model started_bare.1)); by vm_compute.
Defined.

(** X4.  A rejection is recorded whether or not the execution has been
    preempted: the token is not compared on this path, so a stale rejection
    writes [error] and resets [running] like a current one. *)
Theorem X4_stale_rejection_is_recorded (t : Task) (i : Invocation) (err e : value)
    (s : Store) :
  t_destroyed t = false → t_model t = Obj → t_propKeys t = Some (i_propKeys i) →
  stored_error t err = Normal e →
  Task_start_resume t i (Rejected err) s =
  ({| model := <[tk_running (i_propKeys i) := VBool false]>
                 (<[tk_error (i_propKeys i) := e]> (model s));
      trace := trace s |}, Normal tt).
Proof.
  intros Hd Hm Hk He. unfold Task_start_resume. by apply Task_start_catch_stores.
Qed.

Lemma X4_witness :
  model cleared_a !!! "aExecutedAt" ≠ VNum (i_time invocation_a) ∧
  Task_start_resume (task_a fetch_hooks) invocation_a (Rejected (Error "boom")) cleared_a =
  ({| model := <[tk_running (i_propKeys invocation_a) := VBool false]>
                 (<[tk_error (i_propKeys invocation_a) := VStr "boom"]> (model cleared_a));
      trace := trace cleared_a |}, Normal tt).
Proof.
  split; [by vm_compute|].
  apply (X4_stale_rejection_is_recorded (task_a fetch_hooks) invocation_a (Error "boom")
           (VStr "boom") cleared_a); by vm_compute.
Defined.

Section throws_only.
Context (Q : value → Prop).

Lemma throws_only_ret {A} (a : A) : throws_only Q (mret a).
Proof. by intros s s' e H. Qed.

Lemma throws_only_write k v : throws_only Q (write k v).
Proof. by intros s s' e H. Qed.

Lemma throws_only_read k : throws_only Q (read k).
Proof. by intros s s' e H. Qed.

Lemma throws_only_log_start key : throws_only Q (log_start key).
Proof. by intros s s' e H. Qed.

Lemma throws_only_bind {A B} (c : Eff A) (f : A → Eff B) :
  throws_only Q c → (∀ a, throws_only Q (f a)) → throws_only Q (c ≫= f).
Proof.
  intros Hc Hf s s' e. unfold mbind, Eff_bind.
  destruct (c s) as [s1 [a|e1]] eqn:E; intros H.
  - by eapply Hf.
  - simplify_eq. by eapply Hc.
Qed.

Lemma throws_only_try_catch {A} (c : Eff A) (h : value → Eff A) :
  (∀ e, throws_only Q (h e)) → throws_only Q (try_catch c h).
Proof.
  intros Hh s s' e. unfold try_catch.
  destruct (c s) as [s1 [a|e1]] eqn:E; intros H; [done|]. by eapply Hh.
Qed.

Lemma throws_only_set_isRunning t v :
  t_model t = Obj → is_Some (t_propKeys t) → throws_only Q (Task_set_isRunning t v).
Proof.
  intros Hm [k Hk] s s' e. unfold Task_set_isRunning. rewrite Hm, Hk. apply throws_only_write.
Qed.
End throws_only.

(** The [catch] block of [start] throws only when it takes the message of
    [null] or [undefined]. *)
Lemma Task_start_catch_throws_only t k err :
  t_model t = Obj → is_Some (t_propKeys t) →
  throws_only (λ e, errorAsObject (t_options t) = false ∧ e = null_deref)
    (Task_start_catch t k err).
Proof.
  intros Hm Hk. unfold Task_start_catch. destruct (t_destroyed t); [apply throws_only_ret|].
  apply throws_only_bind.
  - destruct (errorAsObject (t_options t)) eqn:E; [apply throws_only_ret|].
    intros s s' e. unfold lift. destruct err; simpl; intros H; by simplify_eq.
  - intros v. apply throws_only_bind; [apply throws_only_write|]. intros _.
    by apply throws_only_set_isRunning.
Qed.

(** X5.  The promise of [start] of a task that has its model and field names
    is rejected in one way only: with the [TypeError] of reading [message]
    off a nullish reason, and only when [errorAsObject] is off.  Whatever a
    hook throws, and whatever the promise of [execute] is rejected with
    otherwise, is recorded in the model instead. *)
Theorem X5_start_rejects_only_without_message (t : Task) (k : TaskPropKeys)
    (idx : nat) (now : Z) (i : Invocation) (o : Settlement) (s s' : Store) (e' : value) :
  t_model t = Obj → t_propKeys t = Some k →
  Task_start_sync t idx now s = (s', Throw e') ∨ Task_start_resume t i o s = (s', Throw e') →
  errorAsObject (t_options t) = false ∧ e' = null_deref.
Proof.
  intros Hm Hk.
  assert (is_Some (t_propKeys t)) as Hk' by (by eexists).
  assert (throws_only (λ e, errorAsObject (t_options t) = false ∧ e = null_deref)
            (Task_start_sync t idx now)) as Hsync.
  { unfold Task_start_sync.
    apply throws_only_bind; [apply throws_only_log_start|]. intros _.
    apply throws_only_bind; [by apply throws_only_set_isRunning|]. intros _.
    rewrite Hm, Hk.
    apply throws_only_bind; [apply throws_only_write|]. intros _.
    apply throws_only_bind; [apply throws_only_write|]. intros _.
    apply throws_only_try_catch. intros e.
    apply throws_only_bind; [by apply Task_start_catch_throws_only|]. intros _.
    apply throws_only_ret. }
  assert (throws_only (λ e, errorAsObject (t_options t) = false ∧ e = null_deref)
            (Task_start_resume t i o)) as Hres.
  { unfold Task_start_resume. destruct o as [res|err];
      [|by apply Task_start_catch_throws_only].
    apply throws_only_bind; [apply throws_only_read|]. intros cur.
    destruct (_ || _); [apply throws_only_ret|].
    apply throws_only_try_catch. intros e. by apply Task_start_catch_throws_only. }
  intros [H|H]; [by eapply Hsync|by eapply Hres].
Qed.

Lemma X5_witness :
  Task_start_resume (task_a fetch_hooks) invocation_a (Rejected VNull) started_a.1
    = (started_a.1, Throw null_deref) ∧
  errorAsObject (t_options (task_a fetch_hooks)) = false ∧ null_deref = null_deref.
Proof.
  assert (Task_start_resume (task_a fetch_hooks) invocation_a (Rejected VNull) started_a.1
          = (started_a.1, Throw null_deref)) as H by (by vm_compute).
  split; [exact H|].
  exact (X5_start_rejects_only_without_message (task_a fetch_hooks)
           (defaultTaskPropKeys 1 "a") 0 100 invocation_a (Rejected VNull) started_a.1
           started_a.1 null_deref eq_refl eq_refl (or_intror H)).
Defined.

(** X6.  After [Task.destroy()]: [isRunnable] and [clear] throw a [TypeError]
    and leave the model alone; [start] throws as well, having written
    nothing to the model; the reactions of an execution still in flight do
    nothing. *)
Theorem X6_destroyed_task (t : Task) (idx : nat) (now : Z) (i : Invocation) (o : Settlement)
    (s : Store) :
  let d := Task_destroy t in
  Task_isRunnable d s = (s, Throw null_deref) ∧
  Task_clear d s = (s, Throw null_deref) ∧
  (model (Task_start_sync d idx now s).1 = model s ∧
   (Task_start_sync d idx now s).2 = Throw null_deref) ∧
  Task_start_resume d i o s = (s, Normal tt).
Proof.
  intros d. repeat split; try done. by apply Task_start_resume_destroyed.
Qed.

(** ** The field names *)

Lemma string_append_assoc (a b c : string) : (a +:+ b) +:+ c = a +:+ (b +:+ c).
Proof.
  induction a as [|x a IH]; [done|].
  change (String x ((a +:+ b) +:+ c) = String x (a +:+ (b +:+ c))). by rewrite IH.
Qed.

Lemma length_list_ascii_of_string (a : string) :
  length (String.list_ascii_of_string a) = String.length a.
Proof. induction a as [|x a IH]; simpl; [done|]. by rewrite IH. Qed.

Lemma string_of_list_ascii_inj (a b : string) :
  String.list_ascii_of_string a = String.list_ascii_of_string b → a = b.
Proof.
  intros H. rewrite <- (String.string_of_list_ascii_of_string a),
    <- (String.string_of_list_ascii_of_string b). by rewrite H.
Qed.

(** Two strings that end in suffixes of the same length agree on both parts. *)
Lemma append_eq_split (a b s1 s2 : string) :
  String.length s1 = String.length s2 → a +:+ s1 = b +:+ s2 → a = b ∧ s1 = s2.
Proof.
  intros Hlen H. apply (f_equal String.list_ascii_of_string) in H.
  rewrite !list_ascii_of_string_append in H.
  apply app_inj_2 in H as [H1 H2].
  - split; by apply string_of_list_ascii_inj.
  - by rewrite !length_list_ascii_of_string.
Qed.

Lemma default_fields_same_task (nextId : nat) (k1 k2 f : string) :
  f ∈ task_fields (defaultTaskPropKeys nextId k1) →
  f ∈ task_fields (defaultTaskPropKeys nextId k2) → k1 = k2.
Proof.
  unfold task_fields. simpl. intros H1 H2. set_unfold in H1. set_unfold in H2.
  destruct H1 as [-> | [-> | [-> | [-> | []]]]];
    destruct H2 as [H | [H | [H | [H | []]]]].
  all: try (by apply append_eq_split in H as [? _]).
  all: exfalso.
  all: repeat match type of H with
       | context [?k +:+ "Running"] =>
           change (k +:+ "Running") with (k +:+ ("Ru" +:+ "nning")) in H;
           rewrite <- (string_append_assoc k "Ru" "nning") in H
       | context [?k +:+ "ExecutedAt"] =>
           change (k +:+ "ExecutedAt") with (k +:+ ("Execu" +:+ "tedAt")) in H;
           rewrite <- (string_append_assoc k "Execu" "tedAt") in H
       end.
  all: by apply append_eq_split in H as [_ ?].
Qed.

Lemma string_append_inj_l (k s1 s2 : string) : k +:+ s1 = k +:+ s2 → s1 = s2.
Proof.
  induction k as [|x k IH]; [done|]. intros H.
  change (String x (k +:+ s1) = String x (k +:+ s2)) in H. apply IH. congruence.
Qed.

(** X12.  With the default naming the four fields of a task are four
    different properties of the model, and two tasks with different keys
    share no field: what the engine writes for one task never lands in a
    field of another. *)
Theorem X12_default_naming_separates_tasks (nextId : nat) (k1 k2 : string) :
  NoDup (task_fields (defaultTaskPropKeys nextId k1)) ∧
  (k1 ≠ k2 →
   ∀ f, f ∈ task_fields (defaultTaskPropKeys nextId k1) →
        f ∉ task_fields (defaultTaskPropKeys nextId k2)).
Proof.
  split.
  - unfold task_fields. simpl.
    repeat (apply NoDup_cons; split; [set_unfold; intros H|]); [..|apply NoDup_nil_2].
    all: repeat (destruct H as [H|H]; [apply string_append_inj_l in H; discriminate|]).
    all: done.
  - intros Hne f H1 H2. apply Hne. by apply (default_fields_same_task nextId k1 k2 f).
Qed.

Lemma X12_witness :
  "a" ≠ "b" ∧
  ∀ f, f ∈ task_fields (defaultTaskPropKeys 1 "a") → f ∉ task_fields (defaultTaskPropKeys 1 "b").
Proof.
  assert ("a" ≠ "b") as Hne by discriminate.
  split; [exact Hne|].
  exact (proj2 (X12_default_naming_separates_tasks 1 "a" "b") Hne).
Defined.

(** ** The machine *)

Lemma launch_all_lengths now ts s :
  (length (launch_all now ts s).1.2 + (launch_all now ts s).2 = length ts)%nat.
Proof.
  revert s. induction ts as [|it ts IH]; intros s; simpl; [done|].
  destruct (Task_start_sync it.2 it.1 now s) as [s1 c].
  specialize (IH s1). destruct (launch_all now ts s1) as [[s2 invs] done']. simpl in IH.
  destruct c as [[inv|]|e]; simpl; lia.
Qed.

Lemma cycle_balanced now r : balanced r → balanced (cycle_run (cycle now r)).
Proof.
  unfold balanced, cycle. intros Hb.
  destruct (filter_runnable _ _) as [s1 [l|e]]; simpl; [|done].
  destruct (_ && _); simpl; [done|]. destruct (_ >? _)%Z; simpl; [done|].
  pose proof (launch_all_lengths now l s1) as Hl.
  destruct (launch_all now l s1) as [[s2 invs] done']. simpl in Hl.
  destruct (r_options r); simpl; rewrite length_app; lia.
Qed.

Lemma settle_balanced n o r : balanced r → balanced (settle n o r).
Proof.
  unfold balanced, settle. intros Hb.
  destruct (inflight r !! n) as [inv|] eqn:Hn; [|done].
  destruct (task_objects (world r) !! i_task inv) as [t|]; [|done].
  destruct (Task_start_resume t inv o (store (world r))) as [s c]. simpl.
  rewrite length_delete by (by eexists).
  apply lookup_lt_Some in Hn. lia.
Qed.

Lemma act_balanced r a : balanced r → balanced (act r a).
Proof. destruct a; simpl; try done. apply settle_balanced. Qed.

Lemma resumed_balanced acts r : balanced r → balanced (resumed acts r).
Proof.
  intros Hb. unfold resumed. assert (balanced (drain r)) as H.
  { unfold balanced in *. simpl. lia. }
  revert H. generalize (drain r). induction acts as [|a acts IH]; intros r0 H; simpl; [done|].
  apply IH. by apply act_balanced.
Qed.

Lemma settled_act r a : settled (act r a) = settled r.
Proof. destruct a; simpl; try done. unfold settle. by repeat case_match. Qed.

Lemma settled_resumed acts r : settled (resumed acts r) = 0%nat.
Proof.
  unfold resumed. assert (settled (drain r) = 0%nat) as H by done.
  revert H. generalize (drain r). induction acts as [|a acts IH]; intros r0 H; simpl; [done|].
  apply IH. by rewrite settled_act.
Qed.

Lemma finish_counts now r :
  count (finish now r).2 = count r ∧ inflight (finish now r).2 = inflight r ∧
  settled (finish now r).2 = settled r.
Proof. unfold finish. by destruct (TaskMachine_set_isRunning false now (world r)). Qed.

Lemma cycle_break_counts now r r1 :
  cycle now r = CycleBreak r1 →
  count r1 = count r ∧ inflight r1 = inflight r ∧ settled r1 = settled r ∧
  r_options r1 = r_options r.
Proof.
  unfold cycle. destruct (filter_runnable _ _) as [s1 [l|e]]; [|done].
  destruct (_ && _); [by intros [= <-]|]. destruct (_ >? _)%Z; [by intros [= <-]|].
  destruct (launch_all now l s1) as [[s2 invs] done']. by destruct (r_options r).
Qed.

Lemma loop_balanced script now r st r' :
  loop_ready r → balanced r → settled r = 0%nat →
  loop now script r = (st, r') → balanced r' ∧ settled r' = 0%nat.
Proof.
  revert now r. induction script as [|[acts now'] rest IH]; intros now r Hready Hb Hs Hloop;
    rewrite loop_eq in Hloop;
    pose proof (cycle_balanced now r Hb) as Hb1;
    destruct Hready as (Hc & Hd & Ho);
    destruct (cycle_cases now r Hc Hd Ho) as (Hp & Hopt & Hm & Ht & Hcase);
    assert (consistent (world (cycle_run (cycle now r)))) as Hc1
      by (by apply (consistent_same _ _ Hm Ht));
    destruct Hcase as [(Heq & _) | (Heq & _)]; rewrite Heq in Hloop.
  - destruct (finish_counts now (cycle_run (cycle now r))) as (E1 & E2 & E3).
    destruct (cycle_break_counts _ _ _ Heq) as (_ & _ & E4 & _).
    rewrite Hloop in E1, E2, E3. simpl in *. unfold balanced in *. rewrite E1, E2, E3.
    split; [done|]. by rewrite E4.
  - pose proof (resumed_balanced [] _ Hb1) as Hb2.
    pose proof (settled_resumed [] (cycle_run (cycle now r))) as Hs2.
    unfold resumed in Hb2, Hs2. simpl in Hb2, Hs2.
    destruct (waiting_for_tasks _); by simplify_eq.
  - destruct (finish_counts now (cycle_run (cycle now r))) as (E1 & E2 & E3).
    destruct (cycle_break_counts _ _ _ Heq) as (_ & _ & E4 & _).
    rewrite Hloop in E1, E2, E3. simpl in *. unfold balanced in *. rewrite E1, E2, E3.
    split; [done|]. by rewrite E4.
  - set (r1 := cycle_run (cycle now r)) in *.
    pose proof (resumed_balanced acts _ Hb1) as Hb2.
    pose proof (settled_resumed acts r1) as Hs2.
    destruct (waiting_for_tasks _); [by simplify_eq|].
    destruct (mc_destroyed (machine (world (resumed acts r1)))) eqn:Hd2.
    + destruct (finish_counts now' (resumed acts r1)) as (E1 & E2 & E3).
      rewrite Hloop in E1, E2, E3. simpl in *. unfold balanced in *. by rewrite E1, E2, E3.
    + apply (IH now' (resumed acts r1)); try done.
      apply (loop_ready_resumed acts r1 r); try done.
Qed.

(** X10.  Whenever [start] of a machine at rest has come to a halt (resolved,
    rejected or suspended), its counter [count] is exactly the number of
    executions whose promise has not settled: every launch that left a
    promise behind was counted once and every settlement uncounted once. *)
Theorem X10_count_is_in_flight (now : Z) (script : list (list Action * Z)) (w : World)
    (st : Status) (r' : Run) :
  at_rest w → TaskMachine_start now script w = (st, r') →
  count r' = Z.of_nat (length (inflight r')).
Proof.
  intros Hrest Hstart.
  destruct (start_enters_loop now script w Hrest) as (Heq & Hready & _ & _ & Hc0 & _).
  rewrite Heq in Hstart.
  destruct (loop_balanced script now (entered now w) st r' Hready) as [Hb Hs]; try done.
  unfold balanced in Hb. rewrite Hb, Hs. f_equal. lia.
Qed.

(** ** Consistency along a run *)

Lemma consistent_finish now r : consistent (world r) → consistent (world (finish now r).2).
Proof.
  intros H. unfold finish.
  destruct (TaskMachine_set_isRunning_frame false now (world r)) as (Hm & Ht & _).
  destruct (TaskMachine_set_isRunning false now (world r)) as [w c]. simpl in *.
  by apply (consistent_same _ _ Hm Ht).
Qed.

Lemma loop_consistent script now r :
  loop_ready r → consistent (world (loop now script r).2).
Proof.
  revert now r. induction script as [|[acts now'] rest IH]; intros now r Hready;
    rewrite loop_eq;
    destruct Hready as (Hc & Hd & Ho);
    destruct (cycle_cases now r Hc Hd Ho) as (Hp & Hopt & Hm & Ht & Hcase);
    assert (consistent (world (cycle_run (cycle now r)))) as Hc1
      by (by apply (consistent_same _ _ Hm Ht));
    destruct Hcase as [(Heq & _) | (Heq & _)]; rewrite Heq.
  - by apply consistent_finish.
  - by destruct (waiting_for_tasks _).
  - by apply consistent_finish.
  - set (r1 := cycle_run (cycle now r)) in *.
    pose proof (consistent_resumed acts r1 Hc1) as Hc2.
    destruct (waiting_for_tasks _); [done|].
    destruct (mc_destroyed (machine (world (resumed acts r1)))) eqn:Hd2.
    + by apply consistent_finish.
    + apply IH. by apply (loop_ready_resumed acts r1 r).
Qed.

Lemma constructed_consistent cfg nextId tasks options s :
  consistent (TaskMachine_new cfg nextId tasks options s).
Proof.
  unfold consistent. simpl. split; [done|]. split; [done|]. split; [by eexists|].
  apply Forall_fmap, Forall_true. intros [key h]. split; [done|]. split; by eexists.
Qed.

(** X9.  A machine as the constructor builds it is consistent (model, task
    array and options present, every task attached; or destroyed with all
    of them dropped), and it stays so whatever is done to it: any sequence
    of settlements, [clear()], [destroy()] and writes of the caller, then a
    [start()] driven by any script. *)
Theorem X9_consistency_is_kept (cfg : Config) (nextId : nat) (tasks : list (string * Hooks))
    (options : OptionsArg) (s : Store) (acts : list Action) (now : Z)
    (script : list (list Action * Z)) :
  let w := TaskMachine_new cfg nextId tasks options s in
  let w1 := world (foldl act (fresh_run w) acts) in
  consistent w ∧ consistent w1 ∧ consistent (world (TaskMachine_start now script w1).2).
Proof.
  intros w w1.
  assert (consistent w) as Hw by apply constructed_consistent.
  assert (consistent w1) as Hw1.
  { unfold w1. change w with (world (fresh_run w)) in Hw. revert Hw.
    generalize (fresh_run w). induction acts as [|a acts IH]; intros r H; simpl; [done|].
    apply IH. by apply consistent_act. }
  split; [done|]. split; [done|].
  unfold TaskMachine_start.
  pose proof (TaskMachine_get_isRunning_frame w1) as Hg.
  destruct (TaskMachine_get_isRunning w1) as [w2 [running|e]] eqn:Hget; simpl in Hg; subst w2;
    [|done].
  destruct (truthy running || mc_destroyed (machine w1)) eqn:Hor; [done|].
  apply orb_false_iff in Hor as [Hrun Hd].
  assert (at_rest w1) as Hrest.
  { split; [done|]. split; [done|].
    unfold TaskMachine_get_isRunning, on_store, read in Hget.
    destruct (mc_model (machine w1)); [done|]. simpl in Hget. by simplify_eq. }
  destruct (start_enters_loop now script w1 Hrest) as (Heq & Hready & _).
  unfold TaskMachine_start in Heq. rewrite Hget, Hrun, Hd in Heq. simpl in Heq.
  rewrite Heq. by apply loop_consistent.
Qed.

(** ** Starting again *)

Lemma constructed_at_rest cfg nextId tasks options s :
  let w := TaskMachine_new cfg nextId tasks options s in
  NoDup (machine_fields (mc_propKeys (machine w))) → at_rest w.
Proof.
  intros w Hnd. split; [apply constructed_consistent|]. split; [done|].
  unfold machine_fields in Hnd. rewrite !NoDup_cons, !not_elem_of_cons in Hnd.
  destruct Hnd as ((H1 & H2 & _) & _). simpl.
  rewrite lookup_total_insert_ne by done. rewrite lookup_total_insert_ne by done.
  by rewrite lookup_total_insert_eq.
Qed.

(** X13.  A run that resolved [true] on a machine that was not destroyed
    leaves the machine at rest again (consistent, [running] false), so that
    [start()] can be called once more; this needs the machine's [running]
    and [stoppedAt] fields to be different properties. *)
Theorem X13_can_be_started_again (now : Z) (script : list (list Action * Z)) (w : World)
    (r' : Run) :
  at_rest w →
  mk_running (mc_propKeys (machine w)) ≠ mk_stoppedAt (mc_propKeys (machine w)) →
  TaskMachine_start now script w = (Returned true, r') →
  mc_destroyed (machine (world r')) = false →
  at_rest (world r').
Proof.
  intros Hrest Hkeys Hstart Hd.
  destruct (start_enters_loop now script w Hrest) as (Heq & Hready & Hfr & _).
  rewrite Heq in Hstart.
  pose proof (loop_consistent script now _ Hready) as Hc. rewrite Hstart in Hc. simpl in Hc.
  split; [done|]. split; [done|].
  destruct (loop_ends script now _ _ r' Hready Hstart) as (new & _ & _ & now' & r0 & _ & Hc0 & Hfin).
  pose proof (finish_frame now' r0) as (Hf0 & _). rewrite Hfin in Hf0. simpl in Hf0.
  apply frame_eq in Hf0 as (_ & _ & Hpk0).
  assert (machine (world r') = machine (world r0)) as Hmach.
  { unfold finish in Hfin.
    destruct (TaskMachine_set_isRunning_frame false now' (world r0)) as (Hm & _).
    destruct (TaskMachine_set_isRunning false now' (world r0)) as [w0 c]. simpl in *.
    by simplify_eq. }
  unfold consistent in Hc0. rewrite <- Hmach, Hd in Hc0. destruct Hc0 as (Hm0 & _).
  rewrite Hmach in Hm0.
  pose proof (finish_not_destroyed now' r0 Hm0) as Hmod. rewrite Hfin in Hmod. simpl in Hmod.
  pose proof (loop_frame script now (entered now w)) as Hl. rewrite Hstart, Hfr in Hl.
  simpl in Hl. apply frame_eq in Hl as (_ & _ & Hl). simpl in Hl.
  rewrite <- Hpk0, Hl in Hmod. rewrite Hmod, Hl.
  rewrite lookup_total_insert_ne by done. by rewrite lookup_total_insert_eq.
Qed.

(** ** After destroy, along any sequence of actions *)

Lemma act_destroyed r a :
  mc_destroyed (machine (world r)) = true → mc_destroyed (machine (world (act r a))) = true.
Proof.
  intros Hd. destruct a as [n o|pred| |f]; simpl; try done.
  - by destruct (settle_frame n o r) as (-> & _).
  - by destruct (TaskMachine_clear_frame pred (world r)) as [-> _].
  - unfold TaskMachine_destroy. by destruct (mc_tasks _).
Qed.

(** X8.  Once the machine is destroyed, no call of the engine writes the
    model or invokes a hook any more: settlements of executions in flight,
    [clear()], [destroy()] and the end of a suspended [start()] leave the
    store as it was, the machine stays destroyed, and a new [start()] is
    rejected with a [TypeError]. *)
Theorem X8_destroy_is_final (r : Run) (acts : list Action) (now : Z)
    (script : list (list Action * Z)) :
  consistent (world r) → mc_destroyed (machine (world r)) = true →
  Forall engine_action acts →
  let r' := foldl act r acts in
  store (world r') = store (world r) ∧
  mc_destroyed (machine (world r')) = true ∧
  (finish now r').1 = Returned true ∧ store (world (finish now r').2) = store (world r) ∧
  (TaskMachine_start now script (world r')).1 = Threw null_deref ∧
  store (world (TaskMachine_start now script (world r')).2) = store (world r).
Proof.
  intros Hc Hd Hacts r'.
  assert (store (world r') = store (world r) ∧ mc_destroyed (machine (world r')) = true ∧
          consistent (world r')) as (Hs & Hd' & Hc').
  { unfold r'. clear r'. revert r Hc Hd.
    induction Hacts as [|a acts Ha _ IH]; intros r Hc Hd; simpl; [done|].
    destruct (IH (act r a)) as (E & ? & ?);
      [by apply consistent_act|by apply act_destroyed|].
    rewrite E. split; [|done]. by apply after_destroy_nothing_is_written. }
  split; [done|]. split; [done|].
  rewrite (after_destroy_finish_writes_nothing now r' Hc' Hd'). simpl.
  split; [done|]. split; [done|].
  unfold consistent in Hc'. rewrite Hd' in Hc'. destruct Hc' as (Hm & _).
  unfold TaskMachine_start, TaskMachine_get_isRunning. rewrite Hm. by simpl.
Qed.

(** ** [start()] while running *)

Section keeps.
Context (fld : string).

Lemma keeps_ret {A} (a : A) : keeps fld (mret a).
Proof. by intros s. Qed.

Lemma keeps_throw {A} e : keeps fld (throw (A:=A) e).
Proof. by intros s. Qed.

Lemma keeps_lift {A} (c : completion A) : keeps fld (lift c).
Proof. by intros s. Qed.

Lemma keeps_read k : keeps fld (read k).
Proof. by intros s. Qed.

Lemma keeps_log_start key : keeps fld (log_start key).
Proof. by intros s. Qed.

Lemma keeps_write k v : k ≠ fld → keeps fld (write k v).
Proof. intros H s. simpl. by rewrite lookup_total_insert_ne. Qed.

Lemma keeps_call_hook key name f :
  (∀ m, (f m).1 !!! fld = m !!! fld) → keeps fld (call_hook key name f).
Proof. intros H s. unfold call_hook. specialize (H (model s)). by destruct (f (model s)). Qed.

Lemma keeps_bind {A B} (c : Eff A) (f : A → Eff B) :
  keeps fld c → (∀ a, keeps fld (f a)) → keeps fld (c ≫= f).
Proof.
  intros Hc Hf s. unfold mbind, Eff_bind. specialize (Hc s).
  destruct (c s) as [s1 [a|e]]; simpl in *; [|done]. by rewrite Hf.
Qed.

Lemma keeps_try_catch {A} (c : Eff A) (h : value → Eff A) :
  keeps fld c → (∀ e, keeps fld (h e)) → keeps fld (try_catch c h).
Proof.
  intros Hc Hh s. unfold try_catch. specialize (Hc s).
  destruct (c s) as [s1 [a|e]]; simpl in *; [done|]. by rewrite Hh.
Qed.

Lemma keeps_set_isRunning t v :
  (∀ k, t_propKeys t = Some k → fld ∉ task_fields k) → keeps fld (Task_set_isRunning t v).
Proof.
  intros H. unfold Task_set_isRunning. destruct (t_model t); [apply keeps_ret|].
  destruct (t_propKeys t) as [k|]; [|apply keeps_throw].
  apply keeps_write. intros E. apply (H k eq_refl). unfold task_fields. set_solver.
Qed.

Lemma keeps_catch t k err :
  task_spares fld t → fld ∉ task_fields k → keeps fld (Task_start_catch t k err).
Proof.
  intros [Ht _] Hk. unfold Task_start_catch. destruct (t_destroyed t); [apply keeps_ret|].
  apply keeps_bind; [destruct (errorAsObject _); [apply keeps_ret|apply keeps_lift]|].
  intros v. apply keeps_bind; [|intros _; by apply keeps_set_isRunning].
  apply keeps_write. intros E. apply Hk. unfold task_fields. set_solver.
Qed.

Lemma Task_start_sync_keeps t idx now :
  task_spares fld t → keeps fld (Task_start_sync t idx now).
Proof.
  intros Hsp. pose proof Hsp as [Hk Hh]. unfold Task_start_sync.
  apply keeps_bind; [apply keeps_log_start|]. intros _.
  apply keeps_bind; [by apply keeps_set_isRunning|]. intros _.
  destruct (t_model t); [apply keeps_throw|].
  destruct (t_propKeys t) as [k|] eqn:Ek; [|apply keeps_throw].
  specialize (Hk k eq_refl).
  assert (tk_error k ≠ fld ∧ tk_ready k ≠ fld ∧ tk_executedAt k ≠ fld) as (H1 & H2 & H3).
  { unfold task_fields in Hk. set_solver. }
  apply keeps_bind; [by apply keeps_write|]. intros _.
  apply keeps_bind; [by apply keeps_write|]. intros _.
  apply keeps_try_catch.
  - destruct (t_hooks t) as [h|] eqn:Eh; [|apply keeps_throw].
    destruct (Hh h eq_refl) as (Hb & He & _).
    apply keeps_bind.
    { destruct (beforeExecute h) as [f|]; [|apply keeps_ret].
      apply keeps_bind; [|intros _; apply keeps_ret].
      apply keeps_call_hook. intros m. by apply Hb. }
    intros _. destruct (execute h) as [f|]; [|apply keeps_throw].
    apply keeps_bind; [by apply keeps_write|]. intros _.
    apply keeps_bind; [|intros _; apply keeps_ret].
    apply keeps_call_hook. intros m. by apply He.
  - intros e. apply keeps_bind; [by apply keeps_catch|]. intros _. apply keeps_ret.
Qed.

Lemma Task_start_resume_keeps t i o :
  task_spares fld t → invocation_spares fld i → keeps fld (Task_start_resume t i o).
Proof.
  intros Hsp [Hk (_ & _ & Ha & Hg & _)]. unfold Task_start_resume.
  destruct o as [res|err]; [|by apply keeps_catch].
  apply keeps_bind; [apply keeps_read|]. intros cur.
  destruct (_ || _); [apply keeps_ret|].
  apply keeps_try_catch; [|intros e; by apply keeps_catch].
  apply keeps_bind.
  { destruct (afterExecute (i_hooks i)) as [f|]; [|apply keeps_ret].
    apply keeps_call_hook. intros m. by apply Ha. }
  intros res'. destruct (negb (truthy res')); [apply keeps_throw|].
  apply keeps_bind.
  { destruct (assign (i_hooks i)) as [f|]; [|apply keeps_ret].
    apply keeps_bind; [|intros _; apply keeps_ret].
    apply keeps_call_hook. intros m. by apply Hg. }
  intros _. apply keeps_bind.
  { apply keeps_write. intros E. apply Hk. unfold task_fields. set_solver. }
  intros _. apply keeps_set_isRunning. by destruct Hsp.
Qed.

Lemma Task_clear_keeps t : task_spares fld t → keeps fld (Task_clear t).
Proof.
  intros [Hk Hh]. unfold Task_clear.
  apply keeps_bind; [by apply keeps_set_isRunning|]. intros _.
  destruct (t_model t); [apply keeps_throw|].
  destruct (t_propKeys t) as [k|] eqn:Ek; [|apply keeps_throw].
  specialize (Hk k eq_refl).
  assert (tk_error k ≠ fld ∧ tk_ready k ≠ fld ∧ tk_executedAt k ≠ fld) as (H1 & H2 & H3).
  { unfold task_fields in Hk. set_solver. }
  apply keeps_bind; [by apply keeps_write|]. intros _.
  apply keeps_bind; [by apply keeps_write|]. intros _.
  apply keeps_bind; [by apply keeps_write|]. intros _.
  destruct (t_hooks t) as [h|] eqn:Eh; [|apply keeps_throw].
  destruct (Hh h eq_refl) as (_ & _ & _ & _ & Hc).
  destruct (clear h) as [f|]; [|apply keeps_ret].
  apply keeps_bind; [|intros _; apply keeps_ret].
  apply keeps_call_hook. intros m. by apply Hc.
Qed.

Lemma for_each_clear_keeps ts :
  Forall (task_spares fld) ts → keeps fld (for_each Task_clear ts).
Proof.
  induction 1 as [|t ts Ht _ IH]; simpl; [apply keeps_ret|].
  apply keeps_bind; [by apply Task_clear_keeps|]. intros _. apply IH.
Qed.

Lemma launch_all_keeps now ts s :
  Forall (λ it : nat * Task, task_spares fld it.2) ts →
  model (launch_all now ts s).1.1 !!! fld = model s !!! fld ∧
  Forall (invocation_spares fld) (launch_all now ts s).1.2.
Proof.
  revert s. induction ts as [|it ts IH]; intros s Hts; simpl; [done|].
  apply Forall_cons in Hts as [Hit Hts].
  pose proof (Task_start_sync_keeps it.2 it.1 now Hit s) as Hk.
  destruct (Task_start_sync it.2 it.1 now s) as [s1 c] eqn:Hs. simpl in Hk.
  destruct (IH s1 Hts) as [H1 H2].
  destruct (launch_all now ts s1) as [[s2 invs] done']. simpl in *.
  destruct c as [[inv|]|e]; simpl; try (split; [congruence|done]).
  split; [congruence|]. apply Forall_cons. split; [|done].
  apply Task_start_sync_invocation in Hs as (_ & _ & _ & Hpk & Hhk).
  destruct Hit as [Ha Hb]. split; [by apply Ha|by apply Hb].
Qed.

Lemma task_destroy_spares t : task_spares fld (Task_destroy t).
Proof. by split. Qed.

Lemma filter_runnable_Forall (P : nat * Task → Prop) ts s s' l :
  filter_runnable ts s = (s', Normal l) → Forall P ts → Forall P l.
Proof.
  revert s s' l. induction ts as [|it ts IH]; intros s s' l H Hts; simpl in H.
  - unfold mret, Eff_ret in H. by simplify_eq.
  - unfold mbind, Eff_bind, mret, Eff_ret in H.
    apply Forall_cons in Hts as [Hit Hts].
    destruct (Task_isRunnable it.2 s) as [s1 [b|e]]; [|done].
    destruct (filter_runnable ts s1) as [s2 [keep|e]] eqn:Hk; [|done].
    specialize (IH _ _ _ Hk Hts). destruct b; simplify_eq; [by apply Forall_cons|done].
Qed.

Lemma indexed_tasks_Forall (P : Task → Prop) w :
  Forall P (task_objects w) → Forall (λ it : nat * Task, P it.2) (indexed_tasks w).
Proof.
  intros H. apply Forall_forall. intros [n t] Hin. unfold indexed_tasks in Hin.
  apply elem_of_zip_r in Hin. rewrite Forall_forall in H. by apply H.
Qed.

Lemma cycle_spared now r :
  spared fld r →
  spared fld (cycle_run (cycle now r)) ∧
  model (store (world (cycle_run (cycle now r)))) !!! fld = model (store (world r)) !!! fld.
Proof.
  intros [Ht Hi]. unfold cycle, spared.
  pose proof (filter_runnable_store (indexed_tasks (world r)) (store (world r))) as Hs.
  destruct (filter_runnable _ _) as [s1 [l|e]] eqn:Hf; simpl in Hs; subst s1; simpl; [|done].
  destruct (_ && _); simpl; [done|]. destruct (_ >? _)%Z; simpl; [done|].
  assert (Forall (λ it : nat * Task, task_spares fld it.2) l) as Hl.
  { eapply filter_runnable_Forall; [exact Hf|]. by apply indexed_tasks_Forall. }
  destruct (launch_all_keeps now l (store (world r)) Hl) as [H1 H2].
  destruct (launch_all now l (store (world r))) as [[s2 invs] done']. simpl in *.
  destruct (r_options r); simpl; (split; [split; [done|by apply Forall_app]|done]).
Qed.

Lemma settle_spared n o r :
  spared fld r →
  spared fld (settle n o r) ∧
  model (store (world (settle n o r))) !!! fld = model (store (world r)) !!! fld.
Proof.
  intros [Ht Hi]. unfold settle, spared.
  destruct (inflight r !! n) as [inv|] eqn:Hn; [|done].
  destruct (task_objects (world r) !! i_task inv) as [t|] eqn:Hl; [|done].
  assert (task_spares fld t) as Hsp.
  { rewrite Forall_forall in Ht. apply Ht. by apply list_elem_of_lookup_2 in Hl. }
  assert (invocation_spares fld inv) as Hisp.
  { rewrite Forall_forall in Hi. apply Hi. by apply list_elem_of_lookup_2 in Hn. }
  pose proof (Task_start_resume_keeps t inv o Hsp Hisp (store (world r))) as Hk.
  destruct (Task_start_resume t inv o (store (world r))) as [s c]. simpl in *.
  split; [|done]. split; [done|]. by apply Forall_delete.
Qed.

Lemma act_spared r a :
  spared fld r → action_spares fld a →
  spared fld (act r a) ∧
  model (store (world (act r a))) !!! fld = model (store (world r)) !!! fld.
Proof.
  intros Hsp Ha. destruct a as [n o|pred| |f]; simpl.
  - by apply settle_spared.
  - destruct Hsp as [Ht Hi]. unfold spared, TaskMachine_clear. simpl.
    destruct (mc_tasks (machine (world r))); [done|]. unfold on_store.
    set (ts := filter _ _).
    assert (Forall (task_spares fld) ts) as Hts.
    { apply Forall_forall. intros t Hin. apply list_elem_of_filter in Hin as [_ Hin].
      rewrite Forall_forall in Ht. by apply Ht. }
    pose proof (for_each_clear_keeps ts Hts (store (world r))) as Hk.
    destruct (for_each Task_clear ts (store (world r))) as [s c]. simpl in *. done.
  - destruct Hsp as [Ht Hi]. unfold spared, TaskMachine_destroy. simpl.
    destruct (mc_tasks (machine (world r))); simpl; [done|].
    split; [|done]. split; [|done]. apply Forall_fmap, Forall_true. intros t.
    apply task_destroy_spares.
  - destruct Hsp as [Ht Hi]. split; [done|]. simpl. apply Ha.
Qed.

Lemma resumed_spared acts r :
  spared fld r → Forall (action_spares fld) acts →
  spared fld (resumed acts r) ∧
  model (store (world (resumed acts r))) !!! fld = model (store (world r)) !!! fld.
Proof.
  intros Hsp Hacts. unfold resumed.
  assert (spared fld (drain r)) as Hd by done.
  change (store (world r)) with (store (world (drain r))).
  revert Hd. generalize (drain r). clear Hsp.
  induction Hacts as [|a acts Ha _ IH]; intros r0 Hsp; simpl; [done|].
  destruct (act_spared r0 a Hsp Ha) as [H1 H2].
  destruct (IH _ H1) as [H3 H4]. split; [done|]. by rewrite H4.
Qed.

(** While the run is suspended the property is as it was when the loop
    was entered. *)
Lemma loop_spared script : ∀ now r st r',
  loop_ready r → spared fld r →
  Forall (λ seg : list Action * Z, Forall (action_spares fld) seg.1) script →
  loop now script r = (st, r') → st = AwaitingTimer ∨ st = AwaitingTasks →
  model (store (world r')) !!! fld = model (store (world r)) !!! fld.
Proof.
  induction script as [|[acts now'] rest IH]; intros now r st r' Hready Hsp Hscr Hloop Hst;
    rewrite loop_eq in Hloop;
    destruct (cycle_spared now r Hsp) as [Hsp1 Hk1];
    destruct Hready as (Hc & Hd & Ho);
    destruct (cycle_cases now r Hc Hd Ho) as (Hp & Hopt & Hm & Ht & Hcase);
    assert (consistent (world (cycle_run (cycle now r)))) as Hc1
      by (by apply (consistent_same _ _ Hm Ht));
    destruct Hcase as [(Heq & _) | (Heq & _)]; rewrite Heq in Hloop.
  - pose proof (finish_status now (cycle_run (cycle now r))) as Hfs.
    rewrite Hloop in Hfs. simpl in Hfs. destruct Hst; congruence.
  - assert (r' = drain (cycle_run (cycle now r))) as -> by (by destruct (waiting_for_tasks _); simplify_eq).
    done.
  - pose proof (finish_status now (cycle_run (cycle now r))) as Hfs.
    rewrite Hloop in Hfs. simpl in Hfs. destruct Hst; congruence.
  - set (r1 := cycle_run (cycle now r)) in *.
    apply Forall_cons in Hscr as [Hacts Hscr]. simpl in Hacts.
    destruct (resumed_spared acts r1 Hsp1 Hacts) as [Hsp2 Hk2].
    destruct (waiting_for_tasks (resumed acts r1)) eqn:Hw.
    { simplify_eq. by rewrite Hk2. }
    destruct (mc_destroyed (machine (world (resumed acts r1)))) eqn:Hd2.
    { pose proof (finish_status now' (resumed acts r1)) as Hfs.
      rewrite Hloop in Hfs. simpl in Hfs. destruct Hst; congruence. }
    assert (loop_ready (resumed acts r1)) as Hready2.
    { apply (loop_ready_resumed acts r1 r); try done. }
    rewrite (IH now' _ st r' Hready2 Hsp2 Hscr Hloop Hst). by rewrite Hk2.
Qed.
End keeps.

(** X7.  While a [start()] is suspended (at the timer or on its tasks) and
    the machine has not been destroyed, the machine's [running] field is
    still [true] and another [start()] resolves [false] and changes nothing,
    provided only the engine writes that field: it is not [startedAt], it is
    no field of a task, no hook writes it, and the caller's writes during
    the run leave it alone. *)
Theorem X7_second_start_is_refused (now now2 : Z) (script script2 : list (list Action * Z))
    (w : World) (st : Status) (r' : Run) :
  at_rest w →
  let fld := mk_running (mc_propKeys (machine w)) in
  fld ≠ mk_startedAt (mc_propKeys (machine w)) →
  Forall (task_spares fld) (task_objects w) →
  Forall (λ seg : list Action * Z, Forall (action_spares fld) seg.1) script →
  TaskMachine_start now script w = (st, r') →
  st = AwaitingTimer ∨ st = AwaitingTasks →
  mc_destroyed (machine (world r')) = false →
  model (store (world r')) !!! fld = VBool true ∧
  (TaskMachine_start now2 script2 (world r')).1 = Returned false ∧
  world (TaskMachine_start now2 script2 (world r')).2 = world r'.
Proof.
  intros Hrest fld Hkeys Htasks Hscr Hstart Hst Hd'.
  destruct (start_enters_loop now script w Hrest) as (Heq & Hready & Hfr & _).
  rewrite Heq in Hstart.
  destruct Hrest as (Hc & Hd & Hr).
  pose proof Hc as Hc0. unfold consistent in Hc0. rewrite Hd in Hc0. destruct Hc0 as (Hm & _).
  assert (spared fld (entered now w)) as Hsp.
  { split; [|by apply Forall_nil_2]. unfold entered. simpl.
    by destruct (TaskMachine_set_isRunning_frame true now w) as (_ & -> & _). }
  assert (model (store (world (entered now w))) !!! fld = VBool true) as Hrun.
  { unfold entered, TaskMachine_set_isRunning, on_store. rewrite Hm. simpl.
    rewrite lookup_total_insert_ne by done. by rewrite lookup_total_insert_eq. }
  pose proof (loop_spared fld script now _ st r' Hready Hsp Hscr Hstart Hst) as Hk.
  rewrite Hrun in Hk.
  pose proof (loop_consistent script now _ Hready) as Hc'. rewrite Hstart in Hc'.
  simpl in Hc'. unfold consistent in Hc'. rewrite Hd' in Hc'. destruct Hc' as (Hm' & _).
  assert (mc_propKeys (machine (world r')) = mc_propKeys (machine w)) as Hpk.
  { pose proof (loop_frame script now (entered now w)) as Hl. rewrite Hstart, Hfr in Hl.
    simpl in Hl. by apply frame_eq in Hl as (_ & _ & ->). }
  split; [done|].
  assert (truthy (model (store (world r')) !!! mk_running (mc_propKeys (machine (world r'))))
          = true) as Htr by (by rewrite Hpk; fold fld; rewrite Hk).
  by rewrite (TaskMachine_start_when_running now2 script2 (world r') Hm' Htr).
Qed.

(** ** [clear(pred)] *)

Lemma for_each_clear_emits ts key :
  Forall (λ t, t_key t = key) ts →
  emits (λ e, e = (key, Called HClear)) (for_each Task_clear ts).
Proof.
  induction 1 as [|t ts Ht _ IH]; simpl; [apply emits_ret|].
  apply emits_bind; [|intros _; apply IH].
  unfold Task_clear.
  apply emits_bind; [apply emits_set_isRunning|]. intros _.
  destruct (t_model t); [apply emits_throw|].
  destruct (t_propKeys t) as [k|]; [|apply emits_throw].
  apply emits_bind; [apply emits_write|]. intros _.
  apply emits_bind; [apply emits_write|]. intros _.
  apply emits_bind; [apply emits_write|]. intros _.
  destruct (t_hooks t) as [h|]; [|apply emits_throw].
  destruct (clear h); [|apply emits_ret].
  apply emits_bind; [apply emits_call_hook; by rewrite Ht|]. intros _. apply emits_ret.
Qed.

(** X11.  [clear(key)] with a string: the machine and its task array are
    unchanged, the only hooks invoked are [clear] hooks of tasks with this
    key, and when no task has the key the call does nothing at all. *)
Theorem X11_clear_by_key (key : string) (w : World) :
  mc_tasks (machine w) = Obj →
  let w' := (TaskMachine_clear (PredKey key) w).1 in
  machine w' = machine w ∧ task_objects w' = task_objects w ∧
  (∃ l, trace (store w') = trace (store w) ++ l ∧ Forall (λ e, e = (key, Called HClear)) l) ∧
  (Forall (λ t, t_key t ≠ key) (task_objects w) →
   TaskMachine_clear (PredKey key) w = (w, Normal tt)).
Proof.
  intros Hm w'. destruct (TaskMachine_clear_frame (PredKey key) w) as [E1 E2].
  split; [done|]. split; [done|]. split.
  - unfold w', TaskMachine_clear, on_store. rewrite Hm.
    set (ts := filter _ _).
    assert (Forall (λ t, t_key t = key) ts) as Hts.
    { apply Forall_forall. intros t Ht. apply list_elem_of_filter in Ht as [Ht _].
      simpl in Ht. by apply String.eqb_eq. }
    destruct (for_each_clear_emits ts key Hts (store w)) as (l & El & Hl).
    destruct (for_each Task_clear ts (store w)) as [s c]. simpl in *. by exists l.
  - intros Hno. unfold TaskMachine_clear, on_store. rewrite Hm.
    assert (filter (λ t, predFn (PredKey key) t = true) (task_objects w) = []) as ->.
    { clear E1 E2 w'. induction Hno as [|t ts Ht _ IH]; [done|]. rewrite filter_cons, IH.
      apply String.eqb_neq in Ht. rewrite decide_False; [done|]. simpl. by rewrite Ht. }
    simpl. by destruct w.
Qed.

(** ** [waitForCompletion] *)

Lemma waiting_for_tasks_false r o :
  r_options r = Some o → waitForCompletion o = false → waiting_for_tasks r = false.
Proof. intros Ho Hw. unfold waiting_for_tasks. by rewrite Ho, Hw. Qed.

Lemma waiting_for_tasks_true r o :
  r_options r = Some o → waitForCompletion o = true →
  waiting_for_tasks r = false → inflight r = [].
Proof.
  intros Ho Hw. unfold waiting_for_tasks. rewrite Ho, Hw. simpl.
  rewrite negb_false_iff, Nat.eqb_eq. apply nil_length_inv.
Qed.

Lemma loop_waits script now r o st r' :
  loop_ready r → r_options r = Some o → loop now script r = (st, r') →
  if waitForCompletion o
  then inflight r = [] → st ≠ AwaitingTasks → inflight r' = []
  else st ≠ AwaitingTasks.
Proof.
  revert now r. induction script as [|[acts now'] rest IH]; intros now r Hready Hopt0 Hloop;
    rewrite loop_eq in Hloop;
    destruct Hready as (Hc & Hd & Ho);
    destruct (cycle_cases now r Hc Hd Ho) as (Hp & Hopt & Hm & Ht & Hcase);
    assert (consistent (world (cycle_run (cycle now r)))) as Hc1
      by (by apply (consistent_same _ _ Hm Ht));
    destruct Hcase as [(Heq & _) | (Heq & _)]; rewrite Heq in Hloop.
  - destruct (finish_counts now (cycle_run (cycle now r))) as (_ & E2 & _).
    destruct (cycle_break_counts _ _ _ Heq) as (_ & E4 & _).
    pose proof (finish_status now (cycle_run (cycle now r))) as Hst.
    rewrite Hloop in E2, Hst. simpl in *. subst st.
    destruct (waitForCompletion o); [|done]. intros Hin _. by rewrite E2, E4.
  - assert (r_options (drain (cycle_run (cycle now r))) = Some o) as Ho1
      by (simpl; by rewrite Hopt).
    destruct (waitForCompletion o) eqn:Hw.
    + destruct (waiting_for_tasks _) eqn:Hwt; simplify_eq; [done|].
      intros _ _. by apply (waiting_for_tasks_true _ o).
    + rewrite (waiting_for_tasks_false _ o Ho1 Hw) in Hloop. by simplify_eq.
  - destruct (finish_counts now (cycle_run (cycle now r))) as (_ & E2 & _).
    destruct (cycle_break_counts _ _ _ Heq) as (_ & E4 & _).
    pose proof (finish_status now (cycle_run (cycle now r))) as Hst.
    rewrite Hloop in E2, Hst. simpl in *. subst st.
    destruct (waitForCompletion o); [|done]. intros Hin _. by rewrite E2, E4.
  - set (r1 := cycle_run (cycle now r)) in *.
    destruct (resumed_frame acts r1) as (_ & _ & _ & Ho2).
    assert (r_options (resumed acts r1) = Some o) as Ho1 by (by rewrite Ho2, Hopt).
    pose proof (consistent_resumed acts r1 Hc1) as Hc2.
    destruct (waiting_for_tasks (resumed acts r1)) eqn:Hwt.
    { simplify_eq. destruct (waitForCompletion o) eqn:Hw; [done|].
      by rewrite (waiting_for_tasks_false _ o Ho1 Hw) in Hwt. }
    destruct (mc_destroyed (machine (world (resumed acts r1)))) eqn:Hd2.
    + destruct (finish_counts now' (resumed acts r1)) as (_ & E2 & _).
      pose proof (finish_status now' (resumed acts r1)) as Hst.
      rewrite Hloop in E2, Hst. simpl in *. subst st.
      destruct (waitForCompletion o) eqn:Hw; [|done]. intros _ _. rewrite E2.
      by apply (waiting_for_tasks_true _ o).
    + assert (loop_ready (resumed acts r1)) as Hready2
        by (by apply (loop_ready_resumed acts r1 r)).
      specialize (IH now' (resumed acts r1) Hready2 Ho1 Hloop).
      destruct (waitForCompletion o) eqn:Hw; [|done]. intros _ Hst. apply IH; [|done].
      by apply (waiting_for_tasks_true _ o).
Qed.

(** X15.  Without [waitForCompletion] a started machine never waits for its
    tasks.  With it, whenever [start] is not waiting for them (it resolved,
    was rejected, or sleeps on the timer) no execution is in flight and
    [count] is zero. *)
Theorem X15_completion_mode (now : Z) (script : list (list Action * Z)) (w : World)
    (o : Options) (st : Status) (r' : Run) :
  at_rest w → mc_options (machine w) = Some o →
  TaskMachine_start now script w = (st, r') →
  if waitForCompletion o
  then st ≠ AwaitingTasks → inflight r' = [] ∧ count r' = 0%Z
  else st ≠ AwaitingTasks.
Proof.
  intros Hrest Hopt Hstart.
  destruct (start_enters_loop now script w Hrest) as (Heq & Hready & _).
  pose proof Hstart as Hstart'. rewrite Heq in Hstart.
  assert (r_options (entered now w) = Some o) as Ho.
  { unfold entered. simpl.
    destruct (TaskMachine_set_isRunning_frame true now w) as (-> & _). done. }
  pose proof (loop_waits script now _ o st r' Hready Ho Hstart) as H.
  destruct (waitForCompletion o); [|done].
  intros Hst. assert (inflight r' = []) as Hin by (by apply H).
  split; [done|].
  assert (count r' = Z.of_nat (length (inflight r'))) as ->.
  { destruct (loop_balanced script now (entered now w) st r' Hready) as [Hb Hs]; try done.
    unfold balanced in Hb. rewrite Hb, Hs. f_equal. lia. }
  by rewrite Hin.
Qed.

(** ** A machine without tasks *)



Lemma destroyed_run_consistent : consistent (world destroyed_run).
Proof.
  unfold consistent. simpl.
  split; [reflexivity|split; [reflexivity|]].
  apply Forall_singleton. repeat split.
Defined.

Lemma fetch_hooks_spare : hooks_spare "machineRunning" fetch_hooks.
Proof.
  repeat split; intros f [= <-]; intros; simpl; try done;
    by rewrite lookup_total_insert_ne.
Defined.

Lemma machine_a_spares :
  Forall (task_spares "machineRunning") (task_objects (machine_a fetch_hooks)).
Proof.
  apply Forall_singleton. split.
  - intros k [= <-]. apply (bool_decide_unpack _). vm_compute. exact I.
  - intros h [= <-]. exact fetch_hooks_spare.
Defined.

Lemma X7_witness :
  let r' := (TaskMachine_start 100 [([CallClear PredTrue], 300%Z)] (machine_a fetch_hooks)).2 in
  model (store (world r')) !!! "machineRunning" = VBool true ∧
  (TaskMachine_start 350 idle_script (world r')).1 = Returned false ∧
  world (TaskMachine_start 350 idle_script (world r')).2 = world r'.
Proof.
  apply (X7_second_start_is_refused 100 350 [([CallClear PredTrue], 300%Z)] idle_script
           (machine_a fetch_hooks) AwaitingTimer _ (machine_a_at_rest fetch_hooks)).
  - by vm_compute.
  - exact machine_a_spares.
  - repeat constructor.
  - by vm_compute.
  - by left.
  - by vm_compute.
Defined.

Lemma X8_witness :
  store (world (foldl act destroyed_run
                  [Settle 0 (Fulfilled VNull); CallClear PredTrue; CallDestroy]))
  = store (world destroyed_run).
Proof.
  refine (proj1 (X8_destroy_is_final destroyed_run
                   [Settle 0 (Fulfilled VNull); CallClear PredTrue; CallDestroy] 300
                   idle_script destroyed_run_consistent eq_refl _)).
  repeat constructor; intros f; discriminate.
Defined.

Lemma X10_witness :
  count (TaskMachine_start 100 [] test_machine).2 = 1%Z ∧
  count (TaskMachine_start 100 [] test_machine).2
  = Z.of_nat (length (inflight (TaskMachine_start 100 [] test_machine).2)).
Proof.
  split; [by vm_compute|].
  apply (X10_count_is_in_flight 100 [] test_machine
           (TaskMachine_start 100 [] test_machine).1 _ test_machine_at_rest).
  apply surjective_pairing.
Defined.

Lemma X11_witness :
  let w := machine_a fetch_hooks in
  let w' := (TaskMachine_clear (PredKey "b") w).1 in
  machine w' = machine w ∧ task_objects w' = task_objects w ∧
  (∃ l, trace (store w') = trace (store w) ++ l ∧ Forall (λ e, e = ("b", Called HClear)) l) ∧
  (Forall (λ t, t_key t ≠ "b") (task_objects w) →
   TaskMachine_clear (PredKey "b") w = (w, Normal tt)).
Proof.
  exact (X11_clear_by_key "b" (machine_a fetch_hooks) eq_refl).
Defined.

Lemma X13_witness : at_rest (world (TaskMachine_start 100 test_script test_machine).2).
Proof.
  apply (X13_can_be_started_again 100 test_script test_machine _ test_machine_at_rest).
  - by vm_compute.
  - by vm_compute.
  - by vm_compute.
Defined.


Lemma X15_witness : (TaskMachine_start 100 test_script test_machine).1 ≠ AwaitingTasks.
Proof.
  exact (X15_completion_mode 100 test_script test_machine default_options
           (TaskMachine_start 100 test_script test_machine).1
           (TaskMachine_start 100 test_script test_machine).2
           test_machine_at_rest eq_refl
           (surjective_pairing (TaskMachine_start 100 test_script test_machine))).
Defined.

(** ** The settings *)

Lemma set_logger_idempotent a l : set_logger a (set_logger a l) = set_logger a l.
Proof.
  destruct a; simpl; try done.
  all: apply map_eq; intros k; rewrite !lookup_insert; by repeat case_decide.
Qed.

(** X16.  [configure] is idempotent: calling it again with the same
    argument changes neither the defaults nor the logger. *)
Theorem X16_configure_idempotent (a : ConfigureArg) (st st' : Settings) :
  configure a st = Normal st' → configure a st' = Normal st'.
Proof.
  destruct a as [| |o]; simpl; intros H; simplify_eq; [done|]. simpl.
  rewrite set_logger_idempotent.
  by destruct (c_interval o), (c_maxExecutions o), (c_machinePropKeys o), (c_taskPropKeys o).
Qed.

Lemma X16_witness :
  configure (ArgObject test_settings) (configure_all [ArgObject test_settings] declared)
  = Normal (configure_all [ArgObject test_settings] declared).
Proof.
  exact (X16_configure_idempotent (ArgObject test_settings) declared
           (configure_all [ArgObject test_settings] declared) eq_refl).
Defined.

Lemma set_logger_complete a l :
  (a = LoggerOther → Forall (λ k, is_Some (l !! k)) logger_keys) →
  Forall (λ k, is_Some (set_logger a l !! k)) logger_keys.
Proof.
  intros H. destruct a; simpl; [..|by apply H].
  all: repeat apply Forall_cons_2; try apply Forall_nil_2.
  all: rewrite !lookup_insert; repeat case_decide; try done; by eexists.
Qed.

Lemma set_logger_callable callable a l :
  (∀ props, a = LoggerObject props →
     ∀ k f, k ∈ logger_keys → props k = Some f → callable f = true) →
  (a = LoggerOther →
   Forall (λ k, ∃ s, l !! k = Some s ∧ slot_callable callable s = true) logger_keys) →
  Forall (λ k, ∃ s, set_logger a l !! k = Some s ∧ slot_callable callable s = true)
         logger_keys.
Proof.
  intros Hp H. destruct a as [| |props|]; simpl; [..|by apply H].
  1,2: repeat apply Forall_cons_2; try apply Forall_nil_2.
  1-6: rewrite !lookup_insert; repeat case_decide; try done; by eexists.
  specialize (Hp props eq_refl).
  assert (∀ k, k ∈ logger_keys →
               slot_callable callable (from_option LogTo NoLog (props k)) = true) as Hs.
  { intros k Hk. destruct (props k) as [f|] eqn:E; [|done]. simpl. by apply (Hp k). }
  repeat apply Forall_cons_2; try apply Forall_nil_2.
  all: rewrite !lookup_insert; repeat case_decide; try done.
  all: eexists; split; [reflexivity|]; apply Hs; unfold logger_keys;
    rewrite !elem_of_cons; auto.
Qed.

Lemma set_logger_stores f l k :
  k ∈ logger_keys → set_logger (LoggerObject (λ _, Some f)) l !! k = Some (LogTo f).
Proof.
  intros Hk. unfold logger_keys in Hk. rewrite !elem_of_cons, elem_of_nil in Hk.
  destruct Hk as [->|[->|[->|[]]]]; simpl; rewrite !lookup_insert; by repeat case_decide.
Qed.

Lemma configure_all_complete args st :
  logger_complete st → logger_complete (configure_all args st).
Proof.
  revert st. induction args as [|a args IH]; intros st Hst; [done|]. simpl. apply IH.
  destruct a as [| |o]; simpl; try done. by apply set_logger_complete.
Qed.

Lemma configure_all_callable callable args st :
  logger_callable callable st → Forall (arg_callable callable) args →
  logger_callable callable (configure_all args st).
Proof.
  revert st. induction args as [|a args IH]; intros st Hst Hargs; [done|].
  apply Forall_cons in Hargs as [Ha Hargs]. simpl. apply IH; [|done].
  destruct a as [| |o]; simpl; try done.
  apply set_logger_callable; [|done].
  intros props E. simpl in Ha. by rewrite E in Ha.
Qed.

(** X17.  Once the module is loaded no slot the engine logs to ([error],
    [info], [warn]) is ever left undefined, whatever [configure] is called
    with.  The slots hold functions as long as every truthy [error], [info]
    or [warn] property of the loggers given was one; [configure] does not
    check this: a truthy property is stored as it is. *)
Theorem X17_logger_stays_complete (callable : nat → bool) (args : list ConfigureArg) :
  ∃ st0, loaded = Normal st0 ∧
    logger_complete (configure_all args st0) ∧
    (Forall (arg_callable callable) args →
     logger_callable callable (configure_all args st0)) ∧
    (∀ f k, k ∈ logger_keys →
       logger (configure_all (args ++ [logger_of f]) st0) !! k = Some (LogTo f)).
Proof.
  eexists. split; [reflexivity|]. split; [|split].
  - apply configure_all_complete. by apply (set_logger_complete LoggerFalse).
  - apply configure_all_callable. by apply (set_logger_callable callable LoggerFalse).
  - intros f k Hk. unfold configure_all. rewrite foldl_app. simpl.
    by apply set_logger_stores.
Qed.

Lemma X17_witness :
  ∃ st0, loaded = Normal st0 ∧
         logger_callable (Nat.eqb 0) (configure_all [ArgObject test_settings] st0).
Proof.
  destruct (X17_logger_stays_complete (Nat.eqb 0) [ArgObject test_settings])
    as (st0 & H0 & _ & Hc & _).
  exists st0. split; [exact H0|]. apply Hc.
  apply Forall_singleton. simpl. intros k f _ Hf. by simplify_eq.
Defined.

(** X18.  The constructor reads the defaults as the last [configure] left
    them: for the interval, the cap and the two naming functions, an option
    of the instance wins over the configured value, and the configured
    value over the one in force before. *)
Theorem X18_constructor_defaults (o : ConfigureOptions) (st st' : Settings) (nextId : nat)
    (tasks : list (string * Hooks)) (oa : OptionsArg) (s : Store) :
  configure (ArgObject o) st = Normal st' →
  let w := TaskMachine_new (defaults st') nextId tasks oa s in
  let d := defaults st in
  mc_interval (machine w)
    = default (default (cfg_interval d) (c_interval o)) (o_interval oa) ∧
  mc_maxExecutions (machine w)
    = default (default (cfg_maxExecutions d) (c_maxExecutions o)) (o_maxExecutions oa) ∧
  mc_propKeys (machine w)
    = default (default (cfg_machinePropKeys d) (c_machinePropKeys o)) (o_machinePropKeys oa)
        nextId ∧
  Forall2 (λ kh t,
             t_key t = kh.1 ∧
             t_propKeys t =
               Some (default (default (cfg_taskPropKeys d) (c_taskPropKeys o))
                       (o_taskPropKeys oa) nextId kh.1))
          tasks (task_objects w).
Proof.
  intros H w d. simpl in H. simplify_eq. subst w d. simpl.
  repeat split. apply Forall2_fmap_r, Forall_Forall2_diag, Forall_true. by intros [k h].
Qed.

Lemma X18_witness :
  mc_interval
    (machine (TaskMachine_new (defaults (configure_all [ArgObject test_settings] declared))
                1 [("a", fetch_hooks)] no_options empty_store)) = 200%Z.
Proof.
  exact (proj1 (X18_constructor_defaults test_settings declared
                  (configure_all [ArgObject test_settings] declared) 1
                  [("a", fetch_hooks)] no_options empty_store eq_refl)).
Defined.

(** ** The generator-driven engine *)

(** X19.  In the generator-driven engine a fulfilled execution that was
    preempted (its token is no longer in the model), or that comes back after
    [destroy()], is not discarded altogether: its reaction writes
    [running = false] for the task, and nothing else; no hook is called. *)
Theorem X19_v1_stale_or_destroyed (d : bool) (i : V1.Invocation) (res : value) (s : Store) :
  d = true ∨ v1_stale i (model s) →
  V1.reactions d i (Fulfilled res) s =
  ({| model := <[tk_running (V1.v_keys i) := VBool false]> (model s); trace := trace s |},
   Normal tt).
Proof.
  intros H. v1_unfold. simpl.
  destruct (strict_eq_num _ _) eqn:E; simpl.
  - destruct H as [-> | H]; [done|]. unfold v1_stale in H. congruence.
  - by rewrite orb_true_r.
Qed.

(** X20.  In the generator-driven engine a rejected execution records the
    message of its reason and resets [running], whatever the token; after
    [destroy()] it writes nothing. *)
Theorem X20_v1_rejection (d : bool) (i : V1.Invocation) (err v : value) (s : Store) :
  get_message err = Normal v →
  V1.reactions d i (Rejected err) s =
  (if d then s
   else {| model := <[tk_error (V1.v_keys i) := v]>
                      (<[tk_running (V1.v_keys i) := VBool false]> (model s));
           trace := trace s |},
   Normal tt).
Proof. intros H. v1_unfold. destruct d; simpl; [done|]. by rewrite H. Qed.

Lemma V1_filter_runnable_length mc m ts l :
  V1.filter_runnable mc m ts = Normal l → (length l ≤ length ts)%nat.
Proof.
  revert l. induction ts as [|kt ts IH]; intros l H; simpl in H; [by simplify_eq|].
  destruct (V1.is_runnable mc m kt) as [b|e]; [|done].
  destruct (V1.filter_runnable mc m ts) as [keep|e]; [|done].
  specialize (IH keep eq_refl). destruct b; simplify_eq; simpl; lia.
Qed.

Lemma V1_launch_all_count mc now ts s :
  ((V1.launch_all mc now ts s).1.2 ≤ length ts)%nat.
Proof.
  revert s. induction ts as [|kt ts IH]; intros s; simpl; [done|].
  destruct (V1.keys_of mc kt.1) as [keys|e]; simpl; [|lia].
  destruct (V1.launch kt keys now s) as [s1 [inv|e]]; simpl; [|lia].
  specialize (IH s1). destruct (V1.launch_all mc now ts s1) as [[[s2 invs] n] e]. simpl in *. lia.
Qed.

Lemma V1_act_frame r a : v1_frame (V1.act r a) = v1_frame r ∧ V1.total (V1.act r a) = V1.total r.
Proof.
  unfold v1_frame. destruct a as [n o|pred| |f]; simpl; try done.
  - unfold V1.settle. destruct (V1.inflight r !! n); [|done].
    by destruct (V1.reactions _ _ _ _).
  - unfold V1.TaskMachine_clear. destruct (mc_tasks _); [done|].
    unfold V1.on_store. by destruct (for_each _ _ _).
Qed.

Lemma V1_foldl_act_frame acts r :
  v1_frame (foldl V1.act r acts) = v1_frame r ∧ V1.total (foldl V1.act r acts) = V1.total r.
Proof.
  revert r. induction acts as [|a acts IH]; intros r; simpl; [done|].
  destruct (IH (V1.act r a)) as [-> ->]. apply V1_act_frame.
Qed.

Lemma V1_set_isRunning_frame b now w :
  V1.machine (V1.TaskMachine_set_isRunning b now w) = V1.machine w ∧
  V1.tasks (V1.TaskMachine_set_isRunning b now w) = V1.tasks w.
Proof. unfold V1.TaskMachine_set_isRunning. by destruct (mc_model _). Qed.

Lemma V1_worker_total script r :
  (V1.total r ≤ (v1_frame r).1)%Z →
  (V1.total (V1.worker script r).2 ≤ (v1_frame r).1 + Z.of_nat (v1_frame r).2)%Z.
Proof.
  revert r. induction script as [|[acts now] rest IH]; intros r Hr;
    unfold v1_frame in *; simpl in *; [lia|].
  destruct (V1_foldl_act_frame acts r) as [Hf Ht].
  unfold v1_frame in Hf. injection Hf as Hmax Hlen.
  set (r1 := foldl V1.act r acts) in *.
  destruct (V1.filter_runnable _ _ _) as [runnable|e] eqn:Ef; simpl; [|lia].
  apply V1_filter_runnable_length in Ef.
  pose proof (V1_launch_all_count (V1.machine (V1.world r1)) now runnable
                (V1.store (V1.world r1))) as Hn.
  destruct (V1.launch_all _ _ _ _) as [[[s2 invs] n] e]. simpl in Hn.
  destruct e as [e|]; simpl; [lia|].
  destruct (_ >? _)%Z eqn:Emax; simpl; [lia|].
  destruct (_ && _); simpl; [|lia].
  rewrite Z.gtb_ltb in Emax. apply Z.ltb_ge in Emax.
  etransitivity; [apply IH; simpl; lia|]. simpl. lia.
Qed.

(** X26.  In the generator-driven engine, with a cap that is not negative,
    the number of launches of one [start()] never exceeds [maxExecutions]
    plus the number of tasks, however the run ends. *)
Theorem X26_v1_total_bounded (now : Z) (script : list (list V1.Action * Z)) (w : V1.World) :
  (0 ≤ mc_maxExecutions (V1.machine w))%Z →
  (V1.total (V1.TaskMachine_start now script w).2
   ≤ mc_maxExecutions (V1.machine w) + Z.of_nat (length (V1.tasks w)))%Z.
Proof.
  intros Hmax. unfold V1.TaskMachine_start.
  destruct (V1.TaskMachine_get_isRunning w) as [w1 [running|e]] eqn:Eg; simpl; [|lia].
  assert (w1 = w) as ->.
  { unfold V1.TaskMachine_get_isRunning in Eg. destruct (mc_model _); [by simplify_eq|].
    unfold V1.on_store, read in Eg. simpl in Eg. simplify_eq. by destruct w. }
  destruct (_ || _); simpl; [lia|].
  destruct (V1_set_isRunning_frame true now w) as [Hm Ht].
  set (r := {| V1.world := _ |}).
  assert (Hf : v1_frame r = (mc_maxExecutions (V1.machine w), length (V1.tasks w))).
  { unfold v1_frame, r. simpl. by rewrite Hm, Ht. }
  pose proof (V1_worker_total script r) as H. rewrite Hf in H. simpl in H. apply H. lia.
Qed.

(** A launch without an [execute] hook throws. *)
Lemma V1_launch_missing_execute kt keys now s :
  execute kt.2 = None → ∃ e, (V1.launch kt keys now s).2 = Throw e.
Proof.
  intros H. v1_unfold. simpl. rewrite H.
  destruct (beforeExecute kt.2) as [f|]; simpl; [|eauto].
  destruct (f _ _) as [m [v|e]]; simpl; eauto.
Qed.

Lemma V1_launch_all_missing_execute mc now ts s kt :
  kt ∈ ts → execute kt.2 = None → ∃ e, (V1.launch_all mc now ts s).2 = Some e.
Proof.
  intros Hin Hex. revert s. induction ts as [|kt' ts IH]; intros s; [by apply elem_of_nil in Hin|].
  simpl. destruct (V1.keys_of mc kt'.1) as [keys|e]; simpl; [|eauto].
  destruct (V1.launch kt' keys now s) as [s1 [inv|e]] eqn:El; simpl; [|eauto].
  apply elem_of_cons in Hin as [->|Hin].
  - destruct (V1_launch_missing_execute kt' keys now s Hex) as [e He].
    rewrite El in He. done.
  - destruct (IH Hin s1) as [e He].
    destruct (V1.launch_all mc now ts s1) as [[[s2 invs] n] e']. simpl in *. eauto.
Qed.

(** X24.  In the generator-driven engine a runnable task without an
    [execute] hook is not recorded as a failed task: the tick that launches
    it ends with an exception thrown out of the generator, so the promise of
    [start] stays pending whatever follows. *)
Theorem X24_v1_missing_execute_crashes (r : V1.Run) (acts : list V1.Action) (now : Z)
    (rest : list (list V1.Action * Z)) (runnable : list (string * Hooks))
    (kt : string * Hooks) :
  v1_runnable r acts = Normal runnable →
  kt ∈ runnable →
  execute kt.2 = None →
  ∃ e, (V1.worker ((acts, now) :: rest) r).1 = V1.Crashed e.
Proof.
  intros Hr Hin Hex. unfold v1_runnable in Hr. simpl. rewrite Hr.
  set (r1 := foldl V1.act r acts) in *.
  destruct (V1_launch_all_missing_execute (V1.machine (V1.world r1)) now runnable
              (V1.store (V1.world r1)) kt Hin Hex) as [e He].
  destruct (V1.launch_all _ _ _ _) as [[[s2 invs] n] e']. simpl in He. subst e'.
  simpl. eauto.
Qed.

Lemma V1_launch_all_complete mc now ts s :
  (V1.launch_all mc now ts s).2 = None → (V1.launch_all mc now ts s).1.2 = length ts.
Proof.
  revert s. induction ts as [|kt ts IH]; intros s; simpl; [done|].
  destruct (V1.keys_of mc kt.1) as [keys|e]; simpl; [|done].
  destruct (V1.launch kt keys now s) as [s1 [inv|e]]; simpl; [|done].
  specialize (IH s1). destruct (V1.launch_all mc now ts s1) as [[[s2 invs] n] e].
  simpl in *. intros H. by rewrite IH.
Qed.

Lemma V1_act_destroyed r a :
  mc_model (V1.machine (V1.world r)) = Null ∧ mc_destroyed (V1.machine (V1.world r)) = true →
  mc_model (V1.machine (V1.world (V1.act r a))) = Null ∧
  mc_destroyed (V1.machine (V1.world (V1.act r a))) = true.
Proof.
  intros H. destruct a as [n o|pred| |f]; simpl; try done.
  - unfold V1.settle. destruct (V1.inflight r !! n); [|done].
    by destruct (V1.reactions _ _ _ _).
  - unfold V1.TaskMachine_clear. destruct (mc_tasks _); [done|].
    unfold V1.on_store. by destruct (for_each _ _ _).
Qed.

Lemma V1_foldl_act_destroyed acts r :
  mc_model (V1.machine (V1.world r)) = Null ∧ mc_destroyed (V1.machine (V1.world r)) = true →
  mc_model (V1.machine (V1.world (foldl V1.act r acts))) = Null ∧
  mc_destroyed (V1.machine (V1.world (foldl V1.act r acts))) = true.
Proof.
  revert r. induction acts as [|a acts IH]; intros r H; simpl; [done|].
  by apply IH, V1_act_destroyed.
Qed.

Lemma V1_destroy_in_script acts r :
  V1.CallDestroy ∈ acts →
  mc_model (V1.machine (V1.world (foldl V1.act r acts))) = Null ∧
  mc_destroyed (V1.machine (V1.world (foldl V1.act r acts))) = true.
Proof.
  revert r. induction acts as [|a acts IH]; intros r H; [by apply elem_of_nil in H|].
  apply elem_of_cons in H as [<-|H]; simpl.
  - by apply V1_foldl_act_destroyed.
  - by apply IH.
Qed.

(** X25.  In the generator-driven engine [destroy()] does not cancel the
    tick that is already scheduled: that tick still launches every runnable
    task ([total] grows by their number); then the promise resolves [true]
    and the machine's own fields are left as the launches found them. *)
Theorem X25_v1_destroy_keeps_pending_tick (r : V1.Run) (acts : list V1.Action) (now : Z)
    (rest : list (list V1.Action * Z)) (runnable : list (string * Hooks)) :
  V1.CallDestroy ∈ acts →
  v1_runnable r acts = Normal runnable →
  (v1_launches r acts now runnable).2 = None →
  ∃ r', V1.worker ((acts, now) :: rest) r = (V1.Returned true, r') ∧
        V1.total r' = (V1.total r + Z.of_nat (length runnable))%Z ∧
        V1.store (V1.world r') = (v1_launches r acts now runnable).1.1.1.
Proof.
  intros Hd Hr He. unfold v1_runnable, v1_launches in *. simpl. rewrite Hr.
  destruct (V1_destroy_in_script acts r Hd) as [Hm Hdes].
  destruct (V1_foldl_act_frame acts r) as [_ Ht].
  set (r1 := foldl V1.act r acts) in *.
  pose proof (V1_launch_all_complete _ _ _ _ He) as Hn.
  destruct (V1.launch_all _ _ _ _) as [[[s2 invs] n] e]. simpl in *. subst e n.
  rewrite Hdes, andb_false_r.
  eexists. split.
  - destruct (_ >? _)%Z; reflexivity.
  - simpl. unfold V1.TaskMachine_set_isRunning. simpl. rewrite Hm. simpl. by rewrite Ht.
Qed.

(** X23.  In the generator-driven engine a promise rejected with [null] or
    [undefined] makes the [catch] reaction throw at [err.message]: the task's
    [running] field has been reset, but the chain ends rejected, so [count]
    is never decremented for this execution. *)
Theorem X23_v1_nullish_rejection_keeps_count (r : V1.Run) (n : nat) (inv : V1.Invocation)
    (err : value) :
  V1.inflight r !! n = Some inv →
  mc_destroyed (V1.machine (V1.world r)) = false →
  err = VNull ∨ err = VUndefined →
  V1.count (V1.settle n (Rejected err) r) = V1.count r ∧
  model (V1.store (V1.world (V1.settle n (Rejected err) r))) =
    <[tk_running (V1.v_keys inv) := VBool false]> (model (V1.store (V1.world r))).
Proof.
  intros Hi Hd He. unfold V1.settle. rewrite Hi, Hd.
  destruct He as [-> | ->]; done.
Qed.

(** X21.  In the generator-driven engine a current execution whose result
    is truthy: [running = false] is written before the hooks run,
    [afterExecute] and [assign] (those the task has) are called in this
    order, and [ready = true] is written last. *)
Theorem X21_v1_success_path (i : V1.Invocation) (res res' v : value) (s : Store) (m1 m2 : Model) :
  ¬ v1_stale i (model s) →
  v1_after_hook i res (<[tk_running (V1.v_keys i) := VBool false]> (model s))
    = (m1, Normal res') →
  truthy res' = true →
  v1_assign_hook i res' m1 = (m2, Normal v) →
  V1.reactions false i (Fulfilled res) s =
  ({| model := <[tk_ready (V1.v_keys i) := VBool true]> m2;
      trace := trace s ++ v1_calls i true |}, Normal tt).
Proof.
  intros Hst Haft Htr Hass. unfold v1_stale in Hst. apply not_false_is_true in Hst.
  unfold v1_after_hook, v1_assign_hook, v1_calls in *. v1_unfold. simpl. rewrite Hst. simpl.
  destruct (afterExecute (V1.v_task i)) as [fa|]; simpl.
  - rewrite Haft. simpl. rewrite Htr. simpl.
    destruct (assign (V1.v_task i)) as [fg|]; simpl.
    + rewrite Hass. simpl. by rewrite <- app_assoc.
    + by simplify_eq.
  - simplify_eq. rewrite Htr. simpl.
    destruct (assign (V1.v_task i)) as [fg|]; simpl.
    + rewrite Hass. simpl. done.
    + simplify_eq. by rewrite app_nil_r.
Qed.

(** X22.  In the generator-driven engine a falsy result is the error
    "Not found: <task key>": its message is recorded over the model that
    [afterExecute] left, [assign] is not called and [ready] is not written. *)
Theorem X22_v1_falsy_result (i : V1.Invocation) (res res' : value) (s : Store) (m1 : Model) :
  ¬ v1_stale i (model s) →
  v1_after_hook i res (<[tk_running (V1.v_keys i) := VBool false]> (model s))
    = (m1, Normal res') →
  truthy res' = false →
  V1.reactions false i (Fulfilled res) s =
  ({| model := <[tk_error (V1.v_keys i) := VStr ("Not found: " +:+ V1.v_key i)]>
                 (<[tk_running (V1.v_keys i) := VBool false]> m1);
      trace := trace s ++ v1_calls i false |}, Normal tt).
Proof.
  intros Hst Haft Htr. unfold v1_stale in Hst. apply not_false_is_true in Hst.
  unfold v1_after_hook, v1_calls in *. v1_unfold. simpl. rewrite Hst. simpl.
  destruct (afterExecute (V1.v_task i)) as [fa|]; simpl.
  - rewrite Haft. simpl. rewrite Htr. simpl.
    destruct (assign (V1.v_task i)); by rewrite ?app_nil_r.
  - simplify_eq. rewrite Htr. simpl.
    destruct (assign (V1.v_task i)); by rewrite ?app_nil_r.
Qed.

(** X27.  The generator-driven machine after [destroy()]: a second
    [destroy()] changes nothing, [start()] is rejected with the [TypeError]
    of reading the [running] field off the dropped model, [clear()] throws
    the [TypeError] of [Object.keys(null)], and the end of a run writes
    nothing. *)
Theorem X27_v1_after_destroy (w : V1.World) (now : Z) (script : list (list V1.Action * Z))
    (pred : V1.ClearPred) :
  let w' := V1.TaskMachine_destroy w in
  V1.TaskMachine_destroy w' = w' ∧
  (V1.TaskMachine_start now script w').1 = V1.Threw null_deref ∧
  V1.TaskMachine_clear pred w' =
    (w', Throw (TypeError "Cannot convert undefined or null to object")) ∧
  V1.TaskMachine_set_isRunning false now w' = w'.
Proof. done. Qed.

Lemma X19_witness :
  V1.reactions false v1_invocation (Fulfilled (VObject 7)) v1_cleared =
  ({| model := <["aRunning" := VBool false]> (model v1_cleared); trace := trace v1_cleared |},
   Normal tt).
Proof.
  apply (X19_v1_stale_or_destroyed false v1_invocation (VObject 7) v1_cleared).
  right. by vm_compute.
Defined.

Lemma X20_witness :
  V1.reactions false v1_invocation (Rejected (Error "boom")) v1_cleared =
  ({| model := <["aError" := VStr "boom"]> (<["aRunning" := VBool false]> (model v1_cleared));
      trace := trace v1_cleared |}, Normal tt).
Proof.
  exact (X20_v1_rejection false v1_invocation (Error "boom") (VStr "boom") v1_cleared eq_refl).
Defined.

Lemma X21_witness :
  let s := V1.store (V1.world v1_in_flight) in
  V1.reactions false v1_invocation (Fulfilled (VObject 7)) s =
  ({| model := <["aReady" := VBool true]>
                 (<["value" := VObject 7]> (<["aRunning" := VBool false]> (model s)));
      trace := trace s ++ v1_calls v1_invocation true |}, Normal tt).
Proof.
  apply (X21_v1_success_path v1_invocation (VObject 7) (VObject 7) VUndefined
           (V1.store (V1.world v1_in_flight))
           (<["aRunning" := VBool false]> (model (V1.store (V1.world v1_in_flight))))).
  - unfold v1_stale. by vm_compute.
  - reflexivity.
  - reflexivity.
  - reflexivity.
Defined.

Lemma X22_witness :
  let s := V1.store (V1.world v1_in_flight) in
  V1.reactions false v1_invocation (Fulfilled VNull) s =
  ({| model := <["aError" := VStr "Not found: a"]>
                 (<["aRunning" := VBool false]>
                    (<["aRunning" := VBool false]> (model s)));
      trace := trace s ++ v1_calls v1_invocation false |}, Normal tt).
Proof.
  apply (X22_v1_falsy_result v1_invocation VNull VNull (V1.store (V1.world v1_in_flight))
           (<["aRunning" := VBool false]> (model (V1.store (V1.world v1_in_flight))))).
  - unfold v1_stale. by vm_compute.
  - reflexivity.
  - reflexivity.
Defined.

Lemma X23_witness :
  V1.count v1_in_flight = 1%Z ∧
  V1.count (V1.settle 0 (Rejected VNull) v1_in_flight) = V1.count v1_in_flight ∧
  model (V1.store (V1.world (V1.settle 0 (Rejected VNull) v1_in_flight))) =
    <["aRunning" := VBool false]> (model (V1.store (V1.world v1_in_flight))).
Proof.
  split; [by vm_compute|].
  apply (X23_v1_nullish_rejection_keeps_count v1_in_flight 0 v1_invocation VNull).
  - by vm_compute.
  - by vm_compute.
  - by left.
Defined.

Lemma X24_witness :
  ∃ e, (V1.worker [([], 300%Z)] (v1_entered no_hooks)).1 = V1.Crashed e.
Proof.
  apply (X24_v1_missing_execute_crashes (v1_entered no_hooks) [] 300 [] [("a", no_hooks)]
           ("a", no_hooks)).
  - by vm_compute.
  - apply list_elem_of_here.
  - reflexivity.
Defined.

Lemma X25_witness :
  ∃ r', V1.worker [(v1_destroy_then_settle, 500%Z)] v1_in_flight = (V1.Returned true, r') ∧
        V1.total r' = (V1.total v1_in_flight + 1)%Z ∧
        V1.store (V1.world r')
        = (v1_launches v1_in_flight v1_destroy_then_settle 500 [("a", fetch_hooks)]).1.1.1.
Proof.
  apply (X25_v1_destroy_keeps_pending_tick v1_in_flight v1_destroy_then_settle 500 []
           [("a", fetch_hooks)]).
  - apply list_elem_of_here.
  - by vm_compute.
  - by vm_compute.
Defined.

Lemma X26_witness :
  (V1.total (V1.TaskMachine_start 100 [(v1_destroy_then_settle, 300%Z)]
               (v1_machine fetch_hooks)).2 ≤ 200 + 1)%Z.
Proof.
  apply (X26_v1_total_bounded 100 [(v1_destroy_then_settle, 300%Z)] (v1_machine fetch_hooks)).
  by vm_compute.
Defined.
